(** * The on-demand gateway: service registry, health checker, activity
      monitor and path-prefix router

    A shallow embedding of [process/manager.ts] (class [ProcessManager]),
    [monitoring/activity-monitor.ts] (class [ActivityMonitor]),
    [gateway/router.ts] (the path-prefix class [Router]) and the service
    actions of [api/management.ts] (class [ManagementAPI]), over the types
    of [types/index.ts].

    Conventions of the embedding.
    - A JavaScript number that holds a count, a port or a time in
      milliseconds is an integer ([Z], [N] for ports).  Fractions,
      infinities and NaN are outside the embedding, except where a [Date]
      is built from a number: an Invalid Date is modelled ([Date_new]).
    - The record of service configurations is the map of its own
      properties; what a JavaScript object inherits from [Object.prototype]
      is not in it (see [Router.ensureServiceRunning]), and every record of
      the registry is one registered from a configuration.
    - The [Map<string, ServiceInstance>] of the process manager is kept in
      insertion order as the list of its values; the key of an entry is the
      [name] field of its value, as [registerService] stores it.  A
      reference to a record is its key, and an assignment to a field of a
      record is an update of the entry with that key.
    - An [async] method run on its own is a computation in the monad [M]:
      it threads the world (registry, configuration, effect history) and
      may raise.  What the outside world answers (the supervisor, the
      network, the clock) is read from an environment [Env], each answer a
      function of the history of effects so far.
    - The interleaving of several requests at their [await] points is the
      step relation of [Module Concurrent]. *)

From Stdlib Require Import ZArith NArith Ascii String List Lia DecimalString.
From stdpp Require Import base gmap strings list.

Local Open Scope Z_scope.

(** ** JavaScript strings *)

Module Js.

(** [s.split(sep)] for a one-character separator. *)
Fixpoint split (sep : ascii) (s : string) : list string :=
  match s with
  | EmptyString => [EmptyString]
  | String c rest =>
      if Ascii.eqb c sep then EmptyString :: split sep rest
      else match split sep rest with
           | [] => [String c EmptyString]
           | seg :: segs => String c seg :: segs
           end
  end.

(** [Boolean(s)] on a string: the empty string is falsy. *)
Definition truthy (s : string) : bool := negb (String.eqb s "").

(** [xs.join(sep)]. *)
Definition join (sep : string) (xs : list string) : string :=
  String.concat sep xs.

(** [xs.slice(1)]. *)
Definition slice1 {A} (xs : list A) : list A := List.tl xs.

(** [s.slice(0, -1)]: all but the last character. *)
Fixpoint slice_0_m1 (s : string) : string :=
  match s with
  | EmptyString => EmptyString
  | String c EmptyString => EmptyString
  | String c rest => String c (slice_0_m1 rest)
  end.

(** [s.endsWith("/")]. *)
Fixpoint endsWith_slash (s : string) : bool :=
  match s with
  | EmptyString => false
  | String c EmptyString => Ascii.eqb c "/"
  | String _ rest => endsWith_slash rest
  end.

(** [n.toString()] and [`${n}`] of a non-negative integer. *)
Definition toString (n : N) : string :=
  NilEmpty.string_of_uint (N.to_uint n).

(** ASCII lower-casing, as the [Headers] class applies to names. *)
Definition lower_ascii (c : ascii) : ascii :=
  let n := N_of_ascii c in
  if ((65 <=? n) && (n <=? 90))%N then ascii_of_N (n + 32) else c.

Fixpoint toLowerCase (s : string) : string :=
  match s with
  | EmptyString => EmptyString
  | String c rest => String (lower_ascii c) (toLowerCase rest)
  end.

(** What a [throw] carries: an [Error], a [DOMException] (which is an
    [Error] too) or any other value, kept as its [String(...)]. *)
Inductive Exn : Type :=
| JsError (message : string)
| DOMException (name message : string)
| JsThrown (value : string).

(** [error instanceof Error ? error.message : String(error)]. *)
Definition error_message (e : Exn) : string :=
  match e with
  | JsError m => m
  | DOMException _ m => m
  | JsThrown v => v
  end.

(** [error instanceof DOMException && error.name === 'TimeoutError']. *)
Definition is_timeout (e : Exn) : bool :=
  match e with
  | DOMException n _ => String.eqb n "TimeoutError"
  | _ => false
  end.

End Js.

Export Js(Exn, JsError, DOMException, JsThrown).

(** ** The [Headers] class of the fetch API *)

Module Headers.

(** Header names are stored lower-cased, in insertion order. *)
Definition t := list (string * string).

Definition has_name (n : string) (kv : string * string) : bool :=
  String.eqb (fst kv) n.

(** [headers.get(name)]: the values stored under the name, joined. *)
Definition get (name : string) (h : t) : option string :=
  match List.filter (has_name (Js.toLowerCase name)) h with
  | [] => None
  | kvs => Some (Js.join ", " (List.map snd kvs))
  end.

Fixpoint replace1 (n v : string) (h : t) : t :=
  match h with
  | [] => []
  | kv :: rest =>
      if has_name n kv then
        (n, v) :: List.filter (fun kv' => negb (has_name n kv')) rest
      else kv :: replace1 n v rest
  end.

(** [headers.set(name, value)]: the first entry of that name takes the
    value and the others go; a new name is appended. *)
Definition set (name value : string) (h : t) : t :=
  let n := Js.toLowerCase name in
  if List.existsb (has_name n) h then replace1 n value h
  else h ++ [(n, value)].

End Headers.

(** ** Data model *)

(** The type [ServiceStatus] of [types/index.ts], which the sources hold at
    the end of [api/management.ts]: the five string literals. *)
Inductive ServiceStatus : Type :=
| stopped | starting | running | stopping | error.

#[global] Instance ServiceStatus_eq_dec : EqDecision ServiceStatus.
Proof. solve_decision. Defined.

Module ServiceConfig.
(** The type [ServiceConfig] of [types/index.ts], as [ServiceConfigSchema]
    infers it, without the [name] field, which the core never reads.  The
    numbers are whole numbers here: the schema, [z.number()] with bounds,
    also lets fractions through, and a configuration with a fractional
    port, timeout or count is outside this embedding.  An absent [env] is
    the empty map: the only use of the field is the spread in
    [startService]. *)
Record t : Type := mk {
  command : string;
  port : N;
  timeout : Z;
  healthCheck : string;
  env : gmap string string;
  instances : Z;
  autorestart : bool;
  maxRestarts : Z
}.
End ServiceConfig.

(** The interface [ServiceInstance] of [types/index.ts]; [pid] and
    [startTime] are optional, and a [Date] is its time value in
    milliseconds. *)
Record ServiceInstance : Type := mkService {
  name : string;
  config : ServiceConfig.t;
  status : ServiceStatus;
  pid : option N;
  port : N;
  lastActivity : Z;
  startTime : option Z;
  requestCount : Z;
  errorCount : Z
}.

Module Config.
(** The [global] block of the type [Config] of [types/index.ts]
    ([GlobalConfigSchema]), as far as the classes embedded here read it. *)
Record global_t : Type := mkGlobal {
  defaultTimeout : Z;
  healthCheckInterval : Z;
  cleanupInterval : Z
}.

(** The type [Config] of [types/index.ts] ([ConfigSchema]): the record of
    service configurations by name, as the map of its own properties, and
    the global block. *)
Record t : Type := mk {
  services : gmap string ServiceConfig.t;
  global : global_t
}.
End Config.

(** The interface [HealthCheckResult] of [types/index.ts]. *)
Inductive HealthStatus : Type := healthy | unhealthy | timeout.

#[global] Instance HealthStatus_eq_dec : EqDecision HealthStatus.
Proof. solve_decision. Defined.

Record HealthCheckResult : Type := mkHealth {
  h_status : HealthStatus;
  responseTime : Z;
  h_error : option string
}.

(** Field assignments [service.f = v]. *)
Definition set_status (v : ServiceStatus) (s : ServiceInstance) :=
  mkService (name s) (config s) v (pid s) (port s) (lastActivity s)
            (startTime s) (requestCount s) (errorCount s).
Definition set_pid (v : option N) (s : ServiceInstance) :=
  mkService (name s) (config s) (status s) v (port s) (lastActivity s)
            (startTime s) (requestCount s) (errorCount s).
Definition set_lastActivity (v : Z) (s : ServiceInstance) :=
  mkService (name s) (config s) (status s) (pid s) (port s) v
            (startTime s) (requestCount s) (errorCount s).
Definition set_startTime (v : option Z) (s : ServiceInstance) :=
  mkService (name s) (config s) (status s) (pid s) (port s) (lastActivity s)
            v (requestCount s) (errorCount s).
Definition set_requestCount (v : Z) (s : ServiceInstance) :=
  mkService (name s) (config s) (status s) (pid s) (port s) (lastActivity s)
            (startTime s) v (errorCount s).
Definition set_errorCount (v : Z) (s : ServiceInstance) :=
  mkService (name s) (config s) (status s) (pid s) (port s) (lastActivity s)
            (startTime s) (requestCount s) v.

(** [service.requestCount++] and [service.errorCount++]. *)
Definition incr_requestCount (s : ServiceInstance) :=
  set_requestCount (requestCount s + 1) s.
Definition incr_errorCount (s : ServiceInstance) :=
  set_errorCount (errorCount s + 1) s.

(** Assignments to the fields other than [name] leave the key alone. *)
Definition keeps_name (f : ServiceInstance -> ServiceInstance) : Prop :=
  forall s, name (f s) = name s.

(** Assignments to the fields other than [status]. *)
Definition keeps_status (f : ServiceInstance -> ServiceInstance) : Prop :=
  forall s, status (f s) = status s.

(** ** Effects *)

(** The options object handed to [pm2.start]. *)
Record Pm2Config : Type := mkPm2 {
  pm_name : string;
  pm_script : string;
  pm_args : list string;
  pm_instances : Z;
  pm_autorestart : bool;
  pm_max_restarts : Z;
  pm_env : gmap string string;
  pm_error_file : string;
  pm_out_file : string;
  pm_log_file : string
}.

(** The arguments of a [fetch] call. *)
Record FetchRequest : Type := mkFetch {
  f_url : string;
  f_method : string;
  f_headers : Headers.t;
  f_body : option string;
  f_timeout : Z
}.

(** A [Response] of the fetch API. *)
Record Response : Type := mkResponse {
  r_status : N;
  r_statusText : string;
  r_headers : Headers.t;
  r_body : option string
}.

(** [response.ok]: the status is in the range 200 to 299. *)
Definition r_ok (r : Response) : bool :=
  ((200 <=? r_status r) && (r_status r <=? 299))%N.

Inductive LogLevel : Type := Debug | Info | Warn | Error.

(** What a method does to the outside world, most recent first. *)
Inductive Event : Type :=
| EvGetConfig
| EvPm2Start (c : Pm2Config)
| EvPm2Stop (n : string)
| EvPm2Delete (n : string)
| EvFetch (r : FetchRequest)
| EvSleep (ms : Z)
| EvRandomUUID
| EvLog (l : LogLevel) (msg : string).

(** What the outside world answers, given the effects so far: the
    supervisor and the network succeed or raise, the clock gives the time
    in milliseconds. *)
Record Env : Type := mkEnv {
  env_pm2_start : list Event -> Pm2Config -> option Exn;
  env_pm2_stop : list Event -> string -> option Exn;
  env_pm2_delete : list Event -> string -> option Exn;
  env_fetch : list Event -> FetchRequest -> Exn + Response;
  env_now : list Event -> Z;
  env_uuid : list Event -> string
}.

(** The registry of the process manager, the configuration the
    configuration manager holds, and the effects so far. *)
Record World : Type := mkWorld {
  services : list ServiceInstance;
  conf : Config.t;
  trace : list Event
}.

Definition with_services (l : list ServiceInstance) (w : World) : World :=
  mkWorld l (conf w) (trace w).
Definition with_event (e : Event) (w : World) : World :=
  mkWorld (services w) (conf w) (e :: trace w).

(** ** The monad of methods: world passing with exceptions *)

Inductive Outcome (A : Type) : Type :=
| Ok (a : A)
| Raise (e : Exn).
Arguments Ok {A} a.
Arguments Raise {A} e.

Definition M (A : Type) : Type := World -> Outcome A * World.

Definition ret {A} (a : A) : M A := fun w => (Ok a, w).
Definition throw {A} (e : Exn) : M A := fun w => (Raise e, w).
Definition bind {A B} (m : M A) (k : A -> M B) : M B :=
  fun w => match m w with
           | (Ok a, w') => k a w'
           | (Raise e, w') => (Raise e, w')
           end.
Definition try_catch {A} (m : M A) (h : Exn -> M A) : M A :=
  fun w => match m w with
           | (Ok a, w') => (Ok a, w')
           | (Raise e, w') => h e w'
           end.

Declare Scope js_scope.
Delimit Scope js_scope with js.
Notation "'let*' x ':=' c 'in' k" := (bind c (fun x => k))
  (at level 10, x pattern, c at level 100, k at level 200) : js_scope.
Notation "c ';;' k" := (bind c (fun _ => k))
  (at level 100, k at level 200, right associativity) : js_scope.
Local Open Scope js_scope.

Definition emit (e : Event) : M unit := fun w => (Ok tt, with_event e w).
Definition log (l : LogLevel) (msg : string) : M unit := emit (EvLog l msg).

(** [for (const x of xs) { await f(x) }]. *)
Fixpoint for_each {A} (f : A -> M unit) (xs : list A) : M unit :=
  match xs with
  | [] => ret tt
  | x :: rest => f x ;; for_each f rest
  end.

(** ** Class [ProcessManager] *)

Module ProcessManager.

(** The key under which a record is stored. *)
Definition is_named (n : string) (s : ServiceInstance) : bool :=
  String.eqb (name s) n.

(** [this.services.get(name)]. *)
Definition Map_get (n : string) (l : list ServiceInstance)
  : option ServiceInstance :=
  List.find (is_named n) l.

(** [this.services.has(name)]. *)
Definition Map_has (n : string) (l : list ServiceInstance) : bool :=
  List.existsb (is_named n) l.

(** [this.services.set(name, instance)] for a name the map does not hold. *)
Definition Map_set_new (s : ServiceInstance) (l : list ServiceInstance)
  : list ServiceInstance :=
  l ++ [s].

(** An assignment through the reference held under key [n]. *)
Definition Map_assign (n : string) (f : ServiceInstance -> ServiceInstance)
  (l : list ServiceInstance) : list ServiceInstance :=
  List.map (fun s => if is_named n s then f s else s) l.

Definition services_has (n : string) : M bool :=
  fun w => (Ok (Map_has n (services w)), w).

Definition services_set (instance : ServiceInstance) : M unit :=
  fun w => (Ok tt, with_services (Map_set_new instance (services w)) w).

Definition assign (n : string) (f : ServiceInstance -> ServiceInstance)
  : M unit :=
  fun w => (Ok tt, with_services (Map_assign n f (services w)) w).

(** Reading through a reference: the record as the registry has it now
    (records are never removed; the snapshot stands in otherwise). *)
Definition deref (service : ServiceInstance) : M ServiceInstance :=
  fun w => (Ok (default service (Map_get (name service) (services w))), w).

(** The largest time value of a [Date], in milliseconds on either side of
    the epoch. *)
Definition Date_max : Z := 8640000000000000.

(** [new Date(value)] for a whole number [value]: the time value of the
    date, which is [value] itself, or [None] for the Invalid Date that a
    [value] beyond [Date_max] gives (its time value is NaN). *)
Definition Date_new (value : Z) : option Z :=
  if Z.abs value <=? Date_max then Some value else None.

(** [a < b] for a date [a] that is valid, given by its time value, and a
    date [b]: the time values are compared, and no number is less than
    NaN. *)
Definition Date_lt (a : Z) (b : option Z) : bool :=
  match b with
  | Some b => a <? b
  | None => false
  end.

Section WithEnv.
Variable env : Env.

(** [Date.now()], and [new Date()] as its time value. *)
Definition Date_now : M Z := fun w => (Ok (env_now env (trace w)), w).

(** [await promisify(pm2.start.bind(pm2))(pm2Config)]: the call is made and
    its result, a success or the error it rejects with, comes back. *)
Definition pm2_start (c : Pm2Config) : M (option Exn) :=
  fun w => (Ok (env_pm2_start env (trace w) c), with_event (EvPm2Start c) w).

Definition pm2_stop (n : string) : M (option Exn) :=
  fun w => (Ok (env_pm2_stop env (trace w) n), with_event (EvPm2Stop n) w).

Definition pm2_delete (n : string) : M (option Exn) :=
  fun w => (Ok (env_pm2_delete env (trace w) n), with_event (EvPm2Delete n) w).

Definition fetch (r : FetchRequest) : M (Exn + Response) :=
  fun w => (Ok (env_fetch env (trace w) r), with_event (EvFetch r) w).

(** [getService(name)]. *)
Definition getService (n : string) : M (option ServiceInstance) :=
  fun w => (Ok (Map_get n (services w)), w).

(** [getAllServices()]. *)
Definition getAllServices : M (list ServiceInstance) :=
  fun w => (Ok (services w), w).

(** [registerService(name, config)]. *)
Definition registerService (n : string) (c : ServiceConfig.t) : M unit :=
  let* registered := services_has n in
  if registered then
    log Warn ("Service " +:+ n +:+ " is already registered")
  else
    let* now := Date_now in
    let instance :=
      {| name := n; config := c; status := stopped; pid := None;
         port := ServiceConfig.port c; lastActivity := now;
         startTime := None; requestCount := 0; errorCount := 0 |} in
    services_set instance;;
    log Info ("Service " +:+ n +:+ " registered").

(** The options [startService] builds for the supervisor. *)
Definition pm2Config_of (n : string) (service : ServiceInstance) : Pm2Config :=
  let c := config service in
  let words := Js.split " " (ServiceConfig.command c) in
  {| pm_name := n;
     pm_script := List.hd "" words;
     pm_args := Js.slice1 words;
     pm_instances := ServiceConfig.instances c;
     pm_autorestart := ServiceConfig.autorestart c;
     pm_max_restarts := ServiceConfig.maxRestarts c;
     pm_env := ServiceConfig.env c ∪ {[ "PORT" := Js.toString (ServiceConfig.port c) ]};
     pm_error_file := "logs/" +:+ n +:+ "-error.log";
     pm_out_file := "logs/" +:+ n +:+ "-out.log";
     pm_log_file := "logs/" +:+ n +:+ "-combined.log" |}.

(** Where [startService] stands at its [await]: it has returned already, or
    it is about to call the supervisor with these options. *)
Inductive Started : Type :=
| Returned (service : ServiceInstance)
| Launching (service : ServiceInstance) (c : Pm2Config).

(** [startService(name)] up to its [await]: the lookup, the guard on
    [running] and [starting], and the first statements of the [try]
    block. *)
Definition startService_sync (n : string) : M Started :=
  let* service := getService n in
  match service with
  | None => throw (JsError ("Service " +:+ n +:+ " not registered"))
  | Some service =>
      if bool_decide (status service = running)
         || bool_decide (status service = starting)
      then ret (Returned service)
      else
        assign n (set_status starting);;
        log Info ("Starting service " +:+ n);;
        ret (Launching service (pm2Config_of n service))
  end.

(** [startService(name)] from the [await] on: the rest of the [try] block
    when the supervisor succeeded, the [catch] block when it raised. *)
Definition startService_resume (n : string) (service : ServiceInstance)
  (result : option Exn) : M ServiceInstance :=
  match result with
  | None =>
      assign n (set_status running);;
      (let* t := Date_now in assign n (set_startTime (Some t)));;
      (let* t := Date_now in assign n (set_lastActivity t));;
      log Info ("Service " +:+ n +:+ " started successfully");;
      deref service
  | Some err =>
      assign n (set_status error);;
      assign n incr_errorCount;;
      log Error ("Failed to start service " +:+ n);;
      throw err
  end.

(** [startService(name)]. *)
Definition startService (n : string) : M ServiceInstance :=
  let* st := startService_sync n in
  match st with
  | Returned service => ret service
  | Launching service pm2Config =>
      let* result := pm2_start pm2Config in
      startService_resume n service result
  end.

(** The [catch] block of [stopService]. *)
Definition stopService_catch (n : string) (err : Exn) : M unit :=
  assign n (set_status error);;
  assign n incr_errorCount;;
  log Error ("Failed to stop service " +:+ n);;
  throw err.

(** [stopService(name)]. *)
Definition stopService (n : string) : M unit :=
  let* service := getService n in
  match service with
  | None => throw (JsError ("Service " +:+ n +:+ " not registered"))
  | Some service =>
      if bool_decide (status service = stopped)
         || bool_decide (status service = stopping)
      then ret tt
      else
        assign n (set_status stopping);;
        log Info ("Stopping service " +:+ n);;
        let* stopResult := pm2_stop n in
        match stopResult with
        | Some err => stopService_catch n err
        | None =>
            let* deleteResult := pm2_delete n in
            match deleteResult with
            | Some err => stopService_catch n err
            | None =>
                assign n (set_status stopped);;
                assign n (set_pid None);;
                assign n (set_startTime None);;
                log Info ("Service " +:+ n +:+ " stopped successfully")
            end
        end
  end.

(** The request [healthCheck] sends. *)
Definition health_request (service : ServiceInstance) : FetchRequest :=
  {| f_url := "http://localhost:" +:+ Js.toString (port service)
              +:+ ServiceConfig.healthCheck (config service);
     f_method := "GET";
     f_headers := Headers.set "User-Agent" "Gateway-Health-Check/1.0" [];
     f_body := None;
     f_timeout := 5000 |}.

(** [healthCheck(serviceName)]. *)
Definition healthCheck (serviceName : string) : M HealthCheckResult :=
  let* service := getService serviceName in
  match service with
  | Some service =>
      if bool_decide (status service = running) then
        let* startTime := Date_now in
        let* outcome := fetch (health_request service) in
        match outcome with
        | inr response =>
            let* t := Date_now in
            let responseTime := t - startTime in
            if r_ok response then
              ret {| h_status := healthy; responseTime := responseTime;
                     h_error := None |}
            else
              ret {| h_status := unhealthy; responseTime := responseTime;
                     h_error := Some ("HTTP " +:+ Js.toString (r_status response)) |}
        | inl err =>
            let* t := Date_now in
            let responseTime := t - startTime in
            ret {| h_status := if Js.is_timeout err then timeout else unhealthy;
                   responseTime := responseTime;
                   h_error := Some (Js.error_message err) |}
        end
      else
        ret {| h_status := unhealthy; responseTime := 0;
               h_error := Some "Service not running" |}
  | None =>
      ret {| h_status := unhealthy; responseTime := 0;
             h_error := Some "Service not running" |}
  end.

(** [updateActivity(serviceName)]. *)
Definition updateActivity (serviceName : string) : M unit :=
  let* service := getService serviceName in
  match service with
  | Some _ =>
      (let* t := Date_now in assign serviceName (set_lastActivity t));;
      assign serviceName incr_requestCount
  | None => ret tt
  end.

(** [getInactiveServices(timeoutMs)] for a whole number of milliseconds:
    [cutoff] is [new Date(Date.now() - timeoutMs)], which may be an Invalid
    Date. *)
Definition getInactiveServices (timeoutMs : Z) : M (list ServiceInstance) :=
  let* now := Date_now in
  let cutoff := Date_new (now - timeoutMs) in
  let* all := getAllServices in
  ret (List.filter
         (fun service => bool_decide (status service = running)
                         && Date_lt (lastActivity service) cutoff)
         all).

End WithEnv.
End ProcessManager.

(** [await Promise.all(tasks)]: every task runs; the first rejection, if
    any, is what the whole raises. *)
Fixpoint Promise_all (tasks : list (M unit)) : M unit :=
  match tasks with
  | [] => ret tt
  | task :: rest =>
      fun w =>
        match task w with
        | (Ok _, w') => Promise_all rest w'
        | (Raise e, w') => (Raise e, snd (Promise_all rest w'))
        end
  end.

(** ** Class [ActivityMonitor] *)

Module ActivityMonitor.
Import ProcessManager.
Section WithEnv.
Variable env : Env.

(** [this.configManager.getConfig()]. *)
Definition getConfig : M Config.t :=
  fun w => (Ok (conf w), with_event EvGetConfig w).

(** The body of the loop of [performCleanup] for one element of the array
    [getAllServices()] returned. *)
Definition cleanup_one (cfg : Config.t) (service : ServiceInstance) : M unit :=
  let* service := deref service in
  if negb (bool_decide (status service = running)) then ret tt
  else
    let timeout :=
      if ServiceConfig.timeout (config service) =? 0
      then Config.defaultTimeout (Config.global cfg)
      else ServiceConfig.timeout (config service) in
    let* inactive := getInactiveServices env timeout in
    match List.find (fun s => String.eqb (name s) (name service)) inactive with
    | Some _ =>
        log Info ("Stopping inactive service " +:+ name service);;
        try_catch (stopService env (name service))
          (fun err => log Error ("Failed to stop inactive service "
                                 +:+ name service))
    | None => ret tt
    end.

(** [performCleanup()]. *)
Definition performCleanup : M unit :=
  let* cfg := getConfig in
  let* services := getAllServices in
  for_each (cleanup_one cfg) services.

(** The function [performHealthChecks] maps over the running services. *)
Definition health_task (service : ServiceInstance) : M unit :=
  try_catch
    (let* result := healthCheck env (name service) in
     if bool_decide (h_status result = healthy) then
       log Debug ("Health check passed for " +:+ name service)
     else
       log Warn ("Health check failed for " +:+ name service);;
       assign (name service) incr_errorCount)
    (fun err =>
       log Error ("Health check error for " +:+ name service);;
       assign (name service) incr_errorCount).

(** [performHealthChecks()]. *)
Definition performHealthChecks : M unit :=
  let* services := getAllServices in
  let runningServices :=
    List.filter (fun s => bool_decide (status s = running)) services in
  Promise_all (List.map health_task runningServices).

(** The object [getStats()] returns. *)
Record Stats : Type := mkStats {
  totalServices : Z;
  runningServices : Z;
  stoppedServices : Z;
  errorServices : Z;
  totalRequests : Z;
  totalErrors : Z
}.

(** [services.filter(s => s.status === st).length]. *)
Definition count_status (st : ServiceStatus) (l : list ServiceInstance) : Z :=
  Z.of_nat (List.length (List.filter (fun s => bool_decide (status s = st)) l)).

(** [getStats()]. *)
Definition getStats : M Stats :=
  let* services := getAllServices in
  ret {| totalServices := Z.of_nat (List.length services);
         runningServices := count_status running services;
         stoppedServices := count_status stopped services;
         errorServices := count_status error services;
         totalRequests :=
           List.fold_left (fun sum s => sum + requestCount s) services 0;
         totalErrors :=
           List.fold_left (fun sum s => sum + errorCount s) services 0 |}.

End WithEnv.
End ActivityMonitor.

(** ** Class [Router] (path-prefix routing) *)

(** A parsed [URL]: [protocol] ends in a colon, [search] is empty or starts
    with a question mark. *)
Record URL : Type := mkURL {
  protocol : string;
  pathname : string;
  search : string
}.

(** An incoming [Request]. *)
Record Request : Type := mkRequest {
  q_url : URL;
  q_method : string;
  q_headers : Headers.t;
  q_body : option string
}.

Module Router.
Import ProcessManager.
Section WithEnv.
Variable env : Env.

Definition dquote : string := String "034"%char EmptyString.

(** [new Response(JSON.stringify({ error: msg }), { status, headers })] for
    the four statuses the router answers with, 404, 500, 503 and 504, which
    the constructor admits. *)
Definition error_response (code : N) (msg : string) : Response :=
  {| r_status := code;
     r_statusText := "";
     r_headers := Headers.set "Content-Type" "application/json" [];
     r_body := Some ("{" +:+ dquote +:+ "error" +:+ dquote +:+ ":"
                     +:+ dquote +:+ msg +:+ dquote +:+ "}") |}.

(** A character of a reason phrase: a tab, a space, a visible character or
    a byte from 128 on. *)
Definition reason_phrase_char (c : ascii) : bool :=
  let n := N_of_ascii c in
  ((n =? 9) || ((32 <=? n) && (n <=? 126)) || (128 <=? n))%N.

(** The status text is empty or a reason phrase. *)
Fixpoint reason_phrase (statusText : string) : bool :=
  match statusText with
  | EmptyString => true
  | String c rest => reason_phrase_char c && reason_phrase rest
  end.

(** The statuses of a response without a body that the constructor
    admits. *)
Definition null_body_status (code : N) : bool :=
  ((code =? 204) || (code =? 205) || (code =? 304))%N.

(** [new Response(body, { status, statusText, headers })] for headers that
    are a [Headers] object, as the Fetch standard defines the constructor:
    a status outside the range 200 to 599 is a [RangeError], a status text
    that is no reason phrase is a [TypeError], and so is a body given with
    a null body status.  The wording of the messages is the engine's; the
    texts here stand for it. *)
Definition Response_new (body : option string) (code : N)
  (statusText : string) (headers : Headers.t) : M Response :=
  if negb ((200 <=? code) && (code <=? 599))%N then
    throw (JsError "status must be in the range 200 to 599")
  else if negb (reason_phrase statusText) then
    throw (JsError "invalid status text")
  else if bool_decide (body <> None) && null_body_status code then
    throw (JsError "a response with a null body status cannot have a body")
  else
    ret {| r_status := code;
           r_statusText := statusText;
           r_headers := headers;
           r_body := body |}.

Definition getConfig : M Config.t :=
  fun w => (Ok (conf w), with_event EvGetConfig w).

(** [await new Promise(resolve => setTimeout(resolve, ms))]. *)
Definition sleep (ms : Z) : M unit := emit (EvSleep ms).

(** [crypto.randomUUID()]. *)
Definition randomUUID : M string :=
  fun w => (Ok (env_uuid env (trace w)), with_event EvRandomUUID w).

(** The names [ensureServiceRunning] ignores. *)
Definition ignored (serviceName : string) : bool :=
  String.eqb serviceName ".well-known" || String.eqb serviceName "favicon.ico".

(** The second half of [ensureServiceRunning]: the statement
    [if (service && service.status !== 'running') { ... } return service]. *)
Definition start_if_needed (serviceName : string)
  (service : option ServiceInstance) : M (option ServiceInstance) :=
  match service with
  | Some s =>
      if negb (bool_decide (status s = running)) then
        try_catch
          (startService env serviceName;;
           sleep 1000;;
           getService serviceName)
          (fun err =>
             log Error ("Failed to start service " +:+ serviceName);;
             ret None)
      else ret service
  | None => ret service
  end.

(** [ensureServiceRunning(serviceName)].  The read
    [config.services[serviceName]] is the lookup among the own properties
    of the record of configurations.  JavaScript also finds what the object
    inherits: for a name that [Object.prototype] defines ([constructor],
    [toString], [__proto__] and the like) and the configuration does not,
    the value read is truthy and no configuration, so that the code
    registers a record without a command, [startService] throws a
    [TypeError] before it calls the supervisor, and the [catch] below
    returns [null].  What the method returns and what the supervisor is
    asked are the same on both paths; the record such a name leaves in the
    registry, in [error], is outside this embedding. *)
Definition ensureServiceRunning (serviceName : string)
  : M (option ServiceInstance) :=
  if ignored serviceName then ret None
  else
    let* service := getService serviceName in
    match service with
    | Some _ => start_if_needed serviceName service
    | None =>
        let* cfg := getConfig in
        match Config.services cfg !! serviceName with
        | None =>
            log Error ("Service configuration not found: " +:+ serviceName);;
            ret None
        | Some serviceConfig =>
            registerService env serviceName serviceConfig;;
            let* service := getService serviceName in
            start_if_needed serviceName service
        end
    end.

(** [url.pathname.split('/').filter(Boolean)]. *)
Definition segments_of (url : URL) : list string :=
  List.filter Js.truthy (Js.split "/" (pathname url)).

(** The path sent on: the segments after the service name. *)
Definition targetPath_of (url : URL) (segments : list string) : string :=
  let strippedPath := "/" +:+ Js.join "/" (Js.slice1 segments) in
  if String.eqb strippedPath "/"
     && negb (Js.endsWith_slash (pathname url))
     && (List.length segments =? 1)%nat
  then "/" else strippedPath.

(** The call of [fetch] that forwards the request. *)
Definition forward_request (request : Request) (service : ServiceInstance)
  (segments : list string) : FetchRequest :=
  let url := q_url request in
  let targetUrl := "http://localhost:" +:+ Js.toString (port service)
                   +:+ targetPath_of url segments +:+ search url in
  let headers := q_headers request in
  let headers := Headers.set "X-Forwarded-For" "gateway" headers in
  let headers := Headers.set "X-Forwarded-Proto"
                   (Js.slice_0_m1 (protocol url)) headers in
  {| f_url := targetUrl;
     f_method := q_method request;
     f_headers := headers;
     f_body := q_body request;
     f_timeout := 30000 |}.

(** [handleRequest(request)]. *)
Definition handleRequest (request : Request) : M Response :=
  let url := q_url request in
  try_catch
    (let segments := segments_of url in
     match segments with
     | [] => ret (error_response 404 "Service not specified")
     | serviceName :: _ =>
         let* service := ensureServiceRunning serviceName in
         match service with
         | None => ret (error_response 503 "Service unavailable")
         | Some service =>
             updateActivity env (name service);;
             let outbound := forward_request request service segments in
             log Debug "Forwarding request";;
             let* outcome := fetch env outbound in
             match outcome with
             | inl err => throw err
             | inr response =>
                 let responseHeaders := r_headers response in
                 let responseHeaders :=
                   Headers.set "X-Gateway-Service" (name service)
                     responseHeaders in
                 let* uuid := randomUUID in
                 let responseHeaders :=
                   Headers.set "X-Gateway-Request-ID" uuid responseHeaders in
                 Response_new (r_body response) (r_status response)
                   (r_statusText response) responseHeaders
             end
         end
     end)
    (fun err =>
       log Error "Request handling error";;
       if Js.is_timeout err
       then ret (error_response 504 "Gateway timeout")
       else ret (error_response 500 "Internal server error")).

End WithEnv.
End Router.

(** ** Class [ManagementAPI] of [api/management.ts]: the service actions *)

Module ManagementAPI.
Import ProcessManager.

(** The object a response body is the [JSON.stringify] of. *)
Inductive Payload : Type :=
| P_error (error : string)
| P_message (message : string)
| P_message_service (message : string) (service : ServiceInstance)
| P_health (service : string) (health : HealthCheckResult).

(** [new Response(JSON.stringify(payload), { status, headers })]; the status
    is 200 when the call gives none. *)
Record ApiResponse : Type := mkApi {
  a_status : N;
  a_headers : Headers.t;
  a_payload : Payload
}.

Definition json (code : N) (payload : Payload) : ApiResponse :=
  {| a_status := code;
     a_headers := Headers.set "Content-Type" "application/json" [];
     a_payload := payload |}.

Section WithEnv.
Variable env : Env.

(** The [switch] of [handleServiceAction]. *)
Definition service_action (serviceName action : string) : M ApiResponse :=
  if String.eqb action "start" then
    let* startedService := startService env serviceName in
    ret (json 200 (P_message_service
                     ("Service " +:+ serviceName +:+ " started")
                     startedService))
  else if String.eqb action "stop" then
    stopService env serviceName;;
    ret (json 200 (P_message ("Service " +:+ serviceName +:+ " stopped")))
  else if String.eqb action "restart" then
    stopService env serviceName;;
    emit (EvSleep 1000);;
    let* restartedService := startService env serviceName in
    ret (json 200 (P_message_service
                     ("Service " +:+ serviceName +:+ " restarted")
                     restartedService))
  else if String.eqb action "health" then
    let* healthResult := healthCheck env serviceName in
    ret (json 200 (P_health serviceName healthResult))
  else
    ret (json 400 (P_error "Invalid action")).

(** [handleServiceAction(serviceName, action)]. *)
Definition handleServiceAction (serviceName action : string)
  : M ApiResponse :=
  if negb (Js.truthy serviceName) then
    ret (json 400 (P_error "Service name required"))
  else
    try_catch (service_action serviceName action)
      (fun err => ret (json 500 (P_error (Js.error_message err)))).

End WithEnv.
End ManagementAPI.

(** ** Reading the effect history *)

(** The requests sent with [fetch], most recent first. *)
Definition fetch_calls (h : list Event) : list FetchRequest :=
  List.flat_map (fun e => match e with EvFetch r => [r] | _ => [] end) h.

(** The options of the start commands given to the supervisor, most recent
    first. *)
Definition start_calls (h : list Event) : list Pm2Config :=
  List.flat_map (fun e => match e with EvPm2Start c => [c] | _ => [] end) h.

(** ** Several requests at once *)

(** The requests the gateway is handling are threads of one event loop: a
    thread runs from one [await] to the next without interruption, and at
    an [await] any other thread may run.  Every [await] of
    [Router.handleRequest], of [Router.ensureServiceRunning] and of
    [ProcessManager.startService] is a point where the scheduler may switch,
    also those on promises that are already settled.  The supervisor and the
    network answer when the scheduler says so, with what the schedule
    says. *)
Module Concurrent.
Import ProcessManager Router.

(** Where a request stands: the [await] it is suspended at. *)
Inductive Pc : Type :=
| Arrived
| AwaitRegister
| AwaitStart
| AwaitPm2 (service : ServiceInstance)
| AwaitSettle
| Ensured (service : option ServiceInstance)
| Forwarding (service : ServiceInstance)
| Responded (response : Response).

Record Thread : Type := mkThread {
  t_request : Request;
  t_pc : Pc
}.

(** What the scheduler delivers when it resumes a thread: nothing, the
    result of the supervisor's start, or the outcome of the fetch. *)
Inductive Answer : Type :=
| Tick
| Pm2Answer (result : option Exn)
| FetchAnswer (outcome : Exn + Response).

(** The world, the threads, and what the supervisor has reported of its
    start commands (name and result), most recent first. *)
Record State : Type := mkState {
  world : World;
  threads : list Thread;
  reports : list (string * option Exn)
}.

(** The service a request names: [segments[0]]. *)
Definition svc_name (t : Thread) : option string :=
  List.head (segments_of (q_url (t_request t))).

Section WithEnv.
Variable env : Env.

(** The [catch] block of [ensureServiceRunning]. *)
Definition start_failed (serviceName : string) : M Pc :=
  log Error ("Failed to start service " +:+ serviceName);;
  ret (Ensured None).

(** [await this.processManager.startService(serviceName)] up to the point
    where it suspends: at the supervisor call inside [startService], or on
    the promise of a [startService] that returned or threw at once. *)
Definition call_startService (serviceName : string) : M Pc :=
  try_catch
    (let* st := startService_sync serviceName in
     match st with
     | Returned _ => ret AwaitStart
     | Launching service c => emit (EvPm2Start c);; ret (AwaitPm2 service)
     end)
    (fun err => start_failed serviceName).

(** [if (service && service.status !== 'running') { ... } return service]. *)
Definition check_running (serviceName : string)
  (service : option ServiceInstance) : M Pc :=
  match service with
  | Some s =>
      if negb (bool_decide (status s = running))
      then call_startService serviceName
      else ret (Ensured service)
  | None => ret (Ensured service)
  end.

(** [handleRequest] from its entry to the first [await]; the configuration
    is read as in [Router.ensureServiceRunning]. *)
Definition enter (request : Request) : M Pc :=
  match segments_of (q_url request) with
  | [] => ret (Responded (error_response 404 "Service not specified"))
  | serviceName :: _ =>
      if ignored serviceName then ret (Ensured None)
      else
        let* service := getService serviceName in
        match service with
        | Some _ => check_running serviceName service
        | None =>
            let* cfg := getConfig in
            match Config.services cfg !! serviceName with
            | None =>
                log Error ("Service configuration not found: " +:+ serviceName);;
                ret (Ensured None)
            | Some serviceConfig =>
                registerService env serviceName serviceConfig;;
                ret AwaitRegister
            end
        end
  end.

(** After [await this.processManager.registerService(...)]. *)
Definition after_register (serviceName : string) : M Pc :=
  let* service := getService serviceName in
  check_running serviceName service.

(** After the [await] on a [startService] that had returned at once. *)
Definition after_start : M Pc :=
  sleep 1000;; ret AwaitSettle.

(** After the supervisor answered: the rest of [startService], then the
    settle delay, or the [catch] block of [ensureServiceRunning]. *)
Definition after_pm2 (serviceName : string) (service : ServiceInstance)
  (result : option Exn) : M Pc :=
  try_catch
    (startService_resume env serviceName service result;;
     sleep 1000;;
     ret AwaitSettle)
    (fun err => start_failed serviceName).

(** After the settle delay: [return this.processManager.getService(...)]. *)
Definition after_settle (serviceName : string) : M Pc :=
  let* service := getService serviceName in
  ret (Ensured service).

(** [handleRequest] from the return of [ensureServiceRunning] to the
    [fetch]. *)
Definition after_ensured (request : Request)
  (service : option ServiceInstance) : M Pc :=
  match service with
  | None => ret (Responded (error_response 503 "Service unavailable"))
  | Some service =>
      updateActivity env (name service);;
      log Debug "Forwarding request";;
      emit (EvFetch (forward_request request service
                       (segments_of (q_url request))));;
      ret (Forwarding service)
  end.

(** [handleRequest] from the answer of the backend on. *)
Definition after_fetch (service : ServiceInstance)
  (outcome : Exn + Response) : M Pc :=
  match outcome with
  | inl err => throw err
  | inr response =>
      let responseHeaders := r_headers response in
      let responseHeaders :=
        Headers.set "X-Gateway-Service" (name service) responseHeaders in
      let* uuid := randomUUID env in
      let responseHeaders :=
        Headers.set "X-Gateway-Request-ID" uuid responseHeaders in
      let* answer :=
        Response_new (r_body response) (r_status response)
          (r_statusText response) responseHeaders in
      ret (Responded answer)
  end.

(** The [try] and [catch] of [handleRequest] around a piece of it. *)
Definition caught (m : M Pc) (w : World) : Pc * World :=
  match m w with
  | (Ok pc, w') => (pc, w')
  | (Raise err, w') =>
      (Responded (if Js.is_timeout err
                  then error_response 504 "Gateway timeout"
                  else error_response 500 "Internal server error"),
       with_event (EvLog Error "Request handling error") w')
  end.

(** A thread resumed with an answer runs to its next [await]; an answer it
    is not waiting for changes nothing. *)
Definition resume (a : Answer) (t : Thread) : World -> Pc * World :=
  let request := t_request t in
  let serviceName := default "" (svc_name t) in
  match t_pc t, a with
  | Arrived, Tick => caught (enter request)
  | AwaitRegister, Tick => caught (after_register serviceName)
  | AwaitStart, Tick => caught after_start
  | AwaitPm2 service, Pm2Answer result =>
      caught (after_pm2 serviceName service result)
  | AwaitSettle, Tick => caught (after_settle serviceName)
  | Ensured service, Tick => caught (after_ensured request service)
  | Forwarding service, FetchAnswer outcome =>
      caught (after_fetch service outcome)
  | pc, _ => fun w => (pc, w)
  end.

(** What the supervisor reports when a thread is resumed. *)
Definition report (a : Answer) (t : Thread) : list (string * option Exn) :=
  match t_pc t, a with
  | AwaitPm2 _, Pm2Answer result => [(default "" (svc_name t), result)]
  | _, _ => []
  end.

(** The scheduler resumes thread [i] with answer [a]. *)
Definition step (σ : State) (ia : nat * Answer) : State :=
  let (i, a) := ia in
  match threads σ !! i with
  | None => σ
  | Some t =>
      let (pc, w) := resume a t (world σ) in
      {| world := w;
         threads := <[i := mkThread (t_request t) pc]> (threads σ);
         reports := report a t ++ reports σ |}
  end.

(** A schedule is run from left to right. *)
Definition run (schedule : list (nat * Answer)) (σ : State) : State :=
  List.fold_left step schedule σ.

End WithEnv.

(** The answer the environment gives to a request that runs alone: that of
    the supervisor or of the network to the call the thread made last. *)
Definition answer_alone (env : Env) (t : Thread) (w : World) : Answer :=
  match t_pc t, trace w with
  | AwaitPm2 _, EvPm2Start c :: h => Pm2Answer (env_pm2_start env h c)
  | Forwarding _, EvFetch r :: h => FetchAnswer (env_fetch env h r)
  | _, _ => Tick
  end.

(** A request that runs alone, resumed [fuel] times. *)
Fixpoint alone (env : Env) (fuel : nat) (t : Thread) (w : World)
  : Pc * World :=
  match fuel with
  | O => (t_pc t, w)
  | S fuel =>
      let (pc, w') := resume env (answer_alone env t w) t w in
      alone env fuel (mkThread (t_request t) pc) w'
  end.

(** All requests have just arrived. *)
Definition init (w : World) (requests : list Request) : State :=
  {| world := w;
     threads := List.map (fun q => mkThread q Arrived) requests;
     reports := [] |}.

(** The thread asks for service [n]. *)
Definition requests_name (n : string) (t : Thread) : bool :=
  match svc_name t with
  | Some m => String.eqb m n
  | None => false
  end.

(** The thread has a start command for [n] in flight at the supervisor. *)
Definition awaits_pm2 (n : string) (t : Thread) : bool :=
  requests_name n t
  && match t_pc t with AwaitPm2 _ => true | _ => false end.

(** The thread has not yet made its call of [startService]. *)
Definition before_start (t : Thread) : bool :=
  match t_pc t with
  | Arrived | AwaitRegister => true
  | _ => false
  end.

(** The start commands for [n] that are in flight. *)
Definition in_flight (n : string) (σ : State) : nat :=
  List.length (List.filter (awaits_pm2 n) (threads σ)).

(** The start commands for [n] given to the supervisor so far. *)
Definition invoked (n : string) (w : World) : nat :=
  List.length
    (List.filter (fun c => String.eqb (pm_name c) n) (start_calls (trace w))).

(** The failures among the reports about [n]. *)
Definition failures (n : string) (rs : list (string * option Exn)) : nat :=
  List.length
    (List.filter
       (fun r => String.eqb (fst r) n
                 && match snd r with Some _ => true | None => false end)
       rs).

(** The start commands for [n] the supervisor has reported as failed. *)
Definition failed (n : string) (σ : State) : nat :=
  failures n (reports σ).

(** The status of the record of [n], if there is one. *)
Definition status_of (n : string) (w : World) : option ServiceStatus :=
  status <$> Map_get n (services w).

(** One when the record of [n] is [starting] or [running]. *)
Definition active (n : string) (w : World) : nat :=
  match status_of n w with
  | Some starting | Some running => 1
  | _ => 0
  end.

(** Every request for [n] has made its call of [startService]. *)
Definition all_called (n : string) (σ : State) : bool :=
  List.forallb (fun t => implb (requests_name n t) (negb (before_start t)))
    (threads σ).

(** There is a request for [n]. *)
Definition some_request (n : string) (σ : State) : bool :=
  List.existsb (requests_name n) (threads σ).

(** Every request has been answered. *)
Definition all_responded (σ : State) : bool :=
  List.forallb
    (fun t => match t_pc t with Responded _ => true | _ => false end)
    (threads σ).

(** Once a request for [n] has made its call of [startService], more than
    [base] start commands for [n] have been given. *)
Definition Called (n : string) (base : nat) (σ : State) : Prop :=
  forall t, In t (threads σ) -> requests_name n t = true ->
            before_start t = false -> (base < invoked n (world σ))%nat.

(** What resuming thread [t] with answer [a] in world [w], which leaves it
    at [pc'] in world [w'], does to service [n]: nothing that counts
    ([T_quiet]), the registration of its record ([T_register]), a start
    command ([T_launch]), or the end of one ([T_done]). *)
Inductive Trans (n : string) (t : Thread) (a : Answer) (w : World)
  (pc' : Pc) (w' : World) : Prop :=
| T_quiet :
    status_of n w' = status_of n w ->
    invoked n w' = invoked n w ->
    awaits_pm2 n (mkThread (t_request t) pc') = awaits_pm2 n t ->
    failures n (report a t) = 0%nat ->
    (before_start t = false ->
     before_start (mkThread (t_request t) pc') = false) ->
    (requests_name n t = true -> before_start t = true ->
     before_start (mkThread (t_request t) pc') = false ->
     active n w = 1%nat \/ ignored n = true
     \/ (status_of n w = None
         /\ (t_pc t = AwaitRegister
             \/ Config.services (conf w) !! n = None))) ->
    (requests_name n t = true -> pc' = AwaitRegister ->
     t_pc t = AwaitRegister) ->
    Trans n t a w pc' w'
| T_register :
    requests_name n t = true ->
    t_pc t = Arrived -> pc' = AwaitRegister ->
    status_of n w = None -> status_of n w' = Some stopped ->
    invoked n w' = invoked n w ->
    Trans n t a w pc' w'
| T_launch (s : ServiceInstance) :
    requests_name n t = true ->
    before_start t = true -> pc' = AwaitPm2 s ->
    status_of n w <> None -> active n w = 0%nat ->
    status_of n w' = Some starting ->
    invoked n w' = S (invoked n w) ->
    Trans n t a w pc' w'
| T_done (s : ServiceInstance) (result : option Exn) :
    requests_name n t = true ->
    t_pc t = AwaitPm2 s -> a = Pm2Answer result ->
    before_start (mkThread (t_request t) pc') = false ->
    awaits_pm2 n (mkThread (t_request t) pc') = false ->
    status_of n w'
    = (fun _ => match result with None => running | Some _ => error end)
        <$> status_of n w ->
    invoked n w' = invoked n w ->
    Trans n t a w pc' w'.

(** What holds of service [n] in every state that [base] start commands
    and any schedule lead to. *)
Record Inv (n : string) (base : nat) (σ : State) : Prop := mkInv {
  inv_in_flight :
    in_flight n σ
    = match status_of n (world σ) with Some starting => 1%nat | _ => 0%nat end;
  inv_invoked :
    invoked n (world σ) = (base + failed n σ + active n (world σ))%nat;
  inv_registering :
    forall t, In t (threads σ) -> requests_name n t = true ->
              t_pc t = AwaitRegister -> status_of n (world σ) <> None
}.

End Concurrent.

(** ** Reading strings and registries *)

(** [s.includes(c)] for a character. *)
Fixpoint has_char (c : ascii) (s : string) : bool :=
  match s with
  | EmptyString => false
  | String a rest => Ascii.eqb a c || has_char c rest
  end.

(** The sum of a field over the registry. *)
Definition total (f : ServiceInstance -> Z) (l : list ServiceInstance) : Z :=
  List.fold_right (fun s sum => f s + sum) 0 l.

(** The timeout the cleanup loop applies to a record:
    [service.config.timeout || config.global.defaultTimeout]. *)
Definition cleanup_timeout_of (cfg : Config.t) (s : ServiceInstance) : Z :=
  if ServiceConfig.timeout (config s) =? 0
  then Config.defaultTimeout (Config.global cfg)
  else ServiceConfig.timeout (config s).

(** A path of [k] slashes and nothing else. *)
Fixpoint slashes (k : nat) : string :=
  match k with
  | O => EmptyString
  | S k => String "/" (slashes k)
  end.


(** The path made of the segments, each after a slash. *)
Definition path_of (segments : list string) : string :=
  "/" +:+ Js.join "/" segments.

(** The names the supervisor was asked to stop or to delete, most recent
    first. *)
Definition stop_calls (h : list Event) : list string :=
  List.flat_map
    (fun e => match e with EvPm2Stop n | EvPm2Delete n => [n] | _ => [] end) h.

(** ** Sample worlds and environments *)

(** A registry and an environment in which the supervisor refuses every
    start. *)
Definition demo_config : ServiceConfig.t :=
  ServiceConfig.mk "bun run hello.ts" 3001 300000 "/health" ∅ 1 true 3.

Definition demo_service (st : ServiceStatus) : ServiceInstance :=
  mkService "hello-world" demo_config st None 3001 1000 None 0 0.

Definition demo_world (st : ServiceStatus) : World :=
  mkWorld [demo_service st]
    (Config.mk {[ "hello-world" := demo_config ]}
       (Config.mkGlobal 300000 30000 60000))
    [].

Definition failing_env : Env :=
  mkEnv (fun _ _ => Some (JsError "spawn failed"))
        (fun _ _ => Some (JsError "stop failed"))
        (fun _ _ => None)
        (fun _ _ => inl (DOMException "TimeoutError" "The operation timed out."))
        (fun h => 5000 + Z.of_nat (List.length h))
        (fun _ => "00000000-0000-4000-8000-000000000000").

(** An environment whose network answers every request with status
    [code], and whose supervisor always succeeds. *)
Definition answering_env (code : N) : Env :=
  mkEnv (fun _ _ => None) (fun _ _ => None) (fun _ _ => None)
        (fun _ _ => inr (mkResponse code "" [] None))
        (fun h => 5000 + Z.of_nat (List.length h))
        (fun _ => "00000000-0000-4000-8000-000000000000").


(** A record with every field but the error counter: what a health check
    must leave alone. *)
Definition forget_errors (s : ServiceInstance) : ServiceInstance :=
  set_errorCount 0 s.

(** A request for [path] with query [query] and two headers. *)
Definition demo_request (path query : string) : Request :=
  mkRequest (mkURL "http:" path query) "POST"
    [("content-type", "application/json"); ("x-forwarded-for", "10.0.0.7")]
    (Some "{}").

(** A world with no record, in which [favicon.ico] names a configured
    service. *)
Definition favicon_world : World :=
  mkWorld []
    (Config.mk {[ "favicon.ico" := demo_config ]}
       (Config.mkGlobal 300000 30000 60000))
    [].

(** A world with no record and no configured service. *)
Definition empty_world : World :=
  mkWorld [] (Config.mk ∅ (Config.mkGlobal 300000 30000 60000)) [].

(** A world with no record, in which [hello-world] is configured. *)
Definition cold_world : World :=
  mkWorld []
    (Config.mk {[ "hello-world" := demo_config ]}
       (Config.mkGlobal 300000 30000 60000))
    [].

(** Three requests for [hello-world] arrive; each gets as far as its call
    of [startService] before the supervisor answers. *)
Definition three_requests : list Request :=
  [demo_request "/hello-world/hello" "?name=Ada";
   demo_request "/hello-world/" "";
   demo_request "/hello-world/info" ""].

Definition all_arrive : list (nat * Concurrent.Answer) :=
  [(0%nat, Concurrent.Tick); (1%nat, Concurrent.Tick);
   (2%nat, Concurrent.Tick); (0%nat, Concurrent.Tick)].

(** The supervisor then reports a failure, and the requests run on. *)
Definition start_fails : list (nat * Concurrent.Answer) :=
  [(1%nat, Concurrent.Pm2Answer (Some (JsError "spawn failed")));
   (2%nat, Concurrent.Tick); (0%nat, Concurrent.Tick);
   (1%nat, Concurrent.Tick); (2%nat, Concurrent.Tick);
   (0%nat, Concurrent.Tick)].

(** Two requests for [hello-world] arrive; the first runs to its answer,
    the supervisor refusing the start it asks for, before the second takes
    its first step and is refused in turn. *)
Definition two_requests : list Request :=
  [demo_request "/hello-world/hello" ""; demo_request "/hello-world/info" ""].

Definition one_after_the_other : list (nat * Concurrent.Answer) :=
  [(0%nat, Concurrent.Tick); (0%nat, Concurrent.Tick);
   (0%nat, Concurrent.Pm2Answer (Some (JsError "spawn failed")));
   (0%nat, Concurrent.Tick);
   (1%nat, Concurrent.Tick);
   (1%nat, Concurrent.Pm2Answer (Some (JsError "spawn failed")));
   (1%nat, Concurrent.Tick)].

(** The thread has come back from [ensureServiceRunning] with a record in
    status [st]. *)
Definition ensured_in (st : ServiceStatus) (t : Concurrent.Thread) : bool :=
  match Concurrent.t_pc t with
  | Concurrent.Ensured (Some s) => bool_decide (status s = st)
  | _ => false
  end.

(** An environment in which the supervisor and the backends always succeed,
    the backend answering 200 with a body. *)
Definition obliging_env : Env :=
  mkEnv (fun _ _ => None) (fun _ _ => None) (fun _ _ => None)
        (fun _ _ => inr (mkResponse 200 "OK" [("content-type", "text/plain")]
                           (Some "hello")))
        (fun h => 400000 + Z.of_nat (List.length h))
        (fun _ => "00000000-0000-4000-8000-000000000000").

(** An environment like [obliging_env] in which every reading of the clock
    gives the same time. *)
Definition steady_env : Env :=
  mkEnv (fun _ _ => None) (fun _ _ => None) (fun _ _ => None)
        (fun _ _ => inr (mkResponse 200 "OK" [("content-type", "text/plain")]
                           (Some "hello")))
        (fun _ => 400000)
        (fun _ => "00000000-0000-4000-8000-000000000000").

(** An environment in which stopping succeeds and deleting fails. *)
Definition delete_fails_env : Env :=
  mkEnv (fun _ _ => None) (fun _ _ => None)
        (fun _ _ => Some (JsError "process not found"))
        (fun _ _ => inl (JsError "ECONNREFUSED"))
        (fun h => 400000 + Z.of_nat (List.length h))
        (fun _ => "00000000-0000-4000-8000-000000000000").

(** The names of the registry, in order. *)
Definition names (w : World) : list string := List.map name (services w).

(** * Properties *)

Import ProcessManager.

(** ** The registry as a map *)

Lemma keeps_name_set_status v : keeps_name (set_status v).
Proof. intros s. reflexivity. Qed.
Lemma keeps_name_set_pid v : keeps_name (set_pid v).
Proof. intros s. reflexivity. Qed.
Lemma keeps_name_set_lastActivity v : keeps_name (set_lastActivity v).
Proof. intros s. reflexivity. Qed.
Lemma keeps_name_set_startTime v : keeps_name (set_startTime v).
Proof. intros s. reflexivity. Qed.
Lemma keeps_name_incr_requestCount : keeps_name incr_requestCount.
Proof. intros s. reflexivity. Qed.
Lemma keeps_name_incr_errorCount : keeps_name incr_errorCount.
Proof. intros s. reflexivity. Qed.

Create HintDb registry.
#[export] Hint Resolve keeps_name_set_status keeps_name_set_pid
  keeps_name_set_lastActivity keeps_name_set_startTime
  keeps_name_incr_requestCount keeps_name_incr_errorCount : registry.

Lemma is_named_true n s : is_named n s = true <-> name s = n.
Proof. unfold is_named. apply String.eqb_eq. Qed.

Lemma is_named_false n s : is_named n s = false <-> name s <> n.
Proof. unfold is_named. apply String.eqb_neq. Qed.

Lemma Map_get_name n l s : Map_get n l = Some s -> name s = n.
Proof.
  unfold Map_get. intros H. apply List.find_some in H as [_ H].
  now apply is_named_true.
Qed.

Lemma Map_get_In n l s : Map_get n l = Some s -> In s l.
Proof. unfold Map_get. intros H. now apply List.find_some in H. Qed.

(** Reading a record after an assignment through its own key. *)
Lemma Map_get_assign n f l :
  keeps_name f -> Map_get n (Map_assign n f l) = f <$> Map_get n l.
Proof.
  intros Hf. unfold Map_get, Map_assign.
  induction l as [|s l IH]; simpl; [reflexivity|].
  destruct (is_named n s) eqn:E.
  - assert (E' : is_named n (f s) = true).
    { apply is_named_true. rewrite Hf. now apply is_named_true. }
    now rewrite E'.
  - now rewrite E.
Qed.

(** Reading a record after an assignment through another key. *)
Lemma Map_get_assign_ne n n' f l :
  keeps_name f -> n <> n' -> Map_get n (Map_assign n' f l) = Map_get n l.
Proof.
  intros Hf Hne. unfold Map_get, Map_assign.
  induction l as [|s l IH]; simpl; [reflexivity|].
  destruct (is_named n' s) eqn:E'.
  - assert (E : is_named n s = false).
    { apply is_named_false. apply is_named_true in E'. congruence. }
    assert (Ef : is_named n (f s) = false).
    { apply is_named_false. rewrite Hf. now apply is_named_false. }
    now rewrite E, Ef.
  - destruct (is_named n s); [reflexivity | exact IH].
Qed.

Lemma Map_get_app n l1 l2 :
  Map_get n (l1 ++ l2)
  = match Map_get n l1 with Some s => Some s | None => Map_get n l2 end.
Proof.
  unfold Map_get. induction l1 as [|s l1 IH]; simpl; [reflexivity|].
  destruct (is_named n s); [reflexivity | exact IH].
Qed.

Lemma Map_has_get n l :
  Map_has n l = match Map_get n l with Some _ => true | None => false end.
Proof.
  unfold Map_has, Map_get. induction l as [|s l IH]; simpl; [reflexivity|].
  destruct (is_named n s); simpl; [reflexivity | exact IH].
Qed.

(** ** [startService] and [stopService] at their guards *)

(** C5. [startService] on a registered service whose status is [running]
    or [starting] returns the record it found and leaves the world as it
    was: no field of any record changes and no effect happens, so the
    supervisor is not called. *)
Theorem startService_running_or_starting_is_noop
  (env : Env) (n : string) (w : World) (s : ServiceInstance) :
  Map_get n (services w) = Some s ->
  status s = running \/ status s = starting ->
  startService env n w = (Ok s, w).
Proof.
  intros Hget Hst.
  unfold startService, startService_sync, getService, bind, ret.
  rewrite Hget.
  destruct Hst as [-> | ->]; reflexivity.
Qed.

(** C6. [stopService] on a registered service whose status is [stopped]
    or [stopping] returns at once and leaves the world as it was: the
    record is unchanged and the supervisor is not called; doing it again
    gives the same. *)
Theorem stopService_stopped_or_stopping_is_noop
  (env : Env) (n : string) (w : World) (s : ServiceInstance) :
  Map_get n (services w) = Some s ->
  status s = stopped \/ status s = stopping ->
  stopService env n w = (Ok tt, w)
  /\ stopService env n (snd (stopService env n w)) = (Ok tt, w).
Proof.
  intros Hget Hst.
  assert (H : stopService env n w = (Ok tt, w)).
  { unfold stopService, getService, bind, ret.
    rewrite Hget. destruct Hst as [-> | ->]; reflexivity. }
  split; [exact H|]. rewrite H. exact H.
Qed.

(** [startService] up to the supervisor call, for a record that is neither
    [running] nor [starting]. *)
Lemma startService_sync_launches (n : string) (w : World) (s : ServiceInstance) :
  Map_get n (services w) = Some s ->
  status s <> running -> status s <> starting ->
  startService_sync n w =
    (Ok (Launching s (pm2Config_of n s)),
     with_event (EvLog Info ("Starting service " +:+ n))
       (with_services (Map_assign n (set_status starting) (services w)) w)).
Proof.
  intros Hget Hr Hs.
  unfold startService_sync, getService, bind. rewrite Hget.
  rewrite (bool_decide_eq_false_2 _ Hr), (bool_decide_eq_false_2 _ Hs).
  reflexivity.
Qed.

(** C7. For a registered service in status [stopped] or [error], when the
    supervisor's start fails with [err], [startService] raises [err] to its
    caller and leaves the record with status [error] and an error counter
    one higher, its other fields and the other records as they were. *)
Theorem startService_failure_sets_error
  (env : Env) (n : string) (w : World) (s : ServiceInstance) (err : Exn) :
  Map_get n (services w) = Some s ->
  status s = stopped \/ status s = error ->
  env_pm2_start env (trace (snd (startService_sync n w))) (pm2Config_of n s)
    = Some err ->
  exists w' s',
    startService env n w = (Raise err, w')
    /\ Map_get n (services w') = Some s'
    /\ s' = set_errorCount (errorCount s + 1) (set_status error s)
    /\ status s' = error
    /\ errorCount s' = errorCount s + 1
    /\ (forall n', n' <> n ->
          Map_get n' (services w') = Map_get n' (services w))
    /\ In (EvPm2Start (pm2Config_of n s)) (trace w').
Proof.
  intros Hget Hst Hfail.
  assert (Hr : status s <> running) by (destruct Hst as [-> | ->]; discriminate).
  assert (Hs : status s <> starting) by (destruct Hst as [-> | ->]; discriminate).
  rewrite (startService_sync_launches n w s Hget Hr Hs) in Hfail.
  simpl in Hfail.
  unfold startService, bind.
  rewrite (startService_sync_launches n w s Hget Hr Hs).
  unfold pm2_start. simpl. rewrite Hfail.
  unfold startService_resume, bind, assign, log, emit, throw. simpl.
  eexists _, _. split; [reflexivity|]. simpl.
  repeat split.
  - rewrite !Map_get_assign by auto with registry. rewrite Hget. reflexivity.
  - intros n' Hne. rewrite !Map_get_assign_ne by auto with registry.
    reflexivity.
  - simpl. auto.
Qed.

Lemma startService_running_or_starting_is_noop_witness :
  startService failing_env "hello-world" (demo_world starting)
  = (Ok (demo_service starting), demo_world starting).
Proof.
  apply (startService_running_or_starting_is_noop failing_env "hello-world"
           (demo_world starting) (demo_service starting)).
  - reflexivity.
  - right. reflexivity.
Defined.

Lemma stopService_stopped_or_stopping_is_noop_witness :
  stopService failing_env "hello-world" (demo_world stopped)
    = (Ok tt, demo_world stopped)
  /\ stopService failing_env "hello-world"
       (snd (stopService failing_env "hello-world" (demo_world stopped)))
     = (Ok tt, demo_world stopped).
Proof.
  apply (stopService_stopped_or_stopping_is_noop failing_env "hello-world"
           (demo_world stopped) (demo_service stopped)).
  - reflexivity.
  - left. reflexivity.
Defined.

Lemma startService_failure_sets_error_witness :
  exists w' s',
    startService failing_env "hello-world" (demo_world stopped)
      = (Raise (JsError "spawn failed"), w')
    /\ Map_get "hello-world" (services w') = Some s'
    /\ s' = set_errorCount (errorCount (demo_service stopped) + 1)
              (set_status error (demo_service stopped))
    /\ status s' = error
    /\ errorCount s' = errorCount (demo_service stopped) + 1
    /\ (forall n', n' <> "hello-world" ->
          Map_get n' (services w') = Map_get n' (services (demo_world stopped)))
    /\ In (EvPm2Start (pm2Config_of "hello-world" (demo_service stopped)))
          (trace w').
Proof.
  apply (startService_failure_sets_error failing_env "hello-world"
           (demo_world stopped) (demo_service stopped) (JsError "spawn failed")).
  - reflexivity.
  - left. reflexivity.
  - reflexivity.
Defined.

(** ** [getInactiveServices] *)




(** ** [healthCheck] *)

(** The probe of a running service: the request is made once and the
    registry is not touched. *)
Lemma healthCheck_running (env : Env) (n : string) (w : World)
  (s : ServiceInstance) :
  Map_get n (services w) = Some s -> status s = running ->
  exists r,
    healthCheck env n w = (Ok r, with_event (EvFetch (health_request s)) w)
    /\ match env_fetch env (trace w) (health_request s) with
       | inr response =>
           if r_ok response then h_status r = healthy /\ h_error r = None
           else h_status r = unhealthy
                /\ h_error r = Some ("HTTP " +:+ Js.toString (r_status response))
       | inl err =>
           h_status r = (if Js.is_timeout err then timeout else unhealthy)
           /\ h_error r = Some (Js.error_message err)
       end.
Proof.
  intros Hget Hrun.
  unfold healthCheck, getService, bind. rewrite Hget.
  rewrite (bool_decide_eq_true_2 _ Hrun).
  unfold Date_now, fetch, ret. simpl.
  destruct (env_fetch env (trace w) (health_request s)) as [err|response].
  - eexists. split; [reflexivity|]. simpl. auto.
  - destruct (r_ok response) eqn:E; eexists; (split; [reflexivity|]); simpl; auto.
Qed.

(** [healthCheck] never assigns to a record. *)
Lemma healthCheck_services (env : Env) (n : string) (w : World) :
  services (snd (healthCheck env n w)) = services w.
Proof.
  unfold healthCheck, getService, bind, Date_now, fetch, ret. simpl.
  destruct (Map_get n (services w)) as [s|]; [|reflexivity].
  destruct (bool_decide (status s = running)); [|reflexivity]. simpl.
  destruct (env_fetch env (trace w) (health_request s)) as [err|response]; simpl.
  - reflexivity.
  - destruct (r_ok response); reflexivity.
Qed.

(** [healthCheck] never raises. *)
Lemma healthCheck_returns (env : Env) (n : string) (w : World) :
  exists r, fst (healthCheck env n w) = Ok r.
Proof.
  unfold healthCheck, getService, bind, Date_now, fetch, ret. simpl.
  destruct (Map_get n (services w)) as [s|]; [|eauto].
  destruct (bool_decide (status s = running)); [|eauto]. simpl.
  destruct (env_fetch env (trace w) (health_request s)) as [err|response]; simpl.
  - eauto.
  - destruct (r_ok response); eauto.
Qed.

(** C2, as the code has it. For every probe of a running service: a
    completed response with a status from 200 to 299 gives [healthy]; a
    completed response with any other status, those from 300 to 399
    included, gives [unhealthy] with [HTTP <status>] as the error detail; a
    probe that exceeds the timeout (the fetch rejects with the
    [DOMException] named [TimeoutError]) gives [timeout]; any other
    rejection, such as a refused or reset connection, gives [unhealthy]. *)
Theorem healthCheck_classifies
  (env : Env) (n : string) (w : World) (s : ServiceInstance) :
  Map_get n (services w) = Some s ->
  status s = running ->
  exists r,
    fst (healthCheck env n w) = Ok r
    /\ (forall response,
          env_fetch env (trace w) (health_request s) = inr response ->
          (200 <= r_status response <= 299)%N ->
          h_status r = healthy)
    /\ (forall response,
          env_fetch env (trace w) (health_request s) = inr response ->
          ~ (200 <= r_status response <= 299)%N ->
          h_status r = unhealthy
          /\ h_error r = Some ("HTTP " +:+ Js.toString (r_status response)))
    /\ (forall msg,
          env_fetch env (trace w) (health_request s)
            = inl (DOMException "TimeoutError" msg) ->
          h_status r = timeout)
    /\ (forall err,
          env_fetch env (trace w) (health_request s) = inl err ->
          Js.is_timeout err = false ->
          h_status r = unhealthy).
Proof.
  intros Hget Hrun.
  destruct (healthCheck_running env n w s Hget Hrun) as (r & Heq & Hcls).
  exists r. rewrite Heq. split; [reflexivity|].
  repeat split.
  - intros response E Hrange. rewrite E in Hcls.
    assert (Hok : r_ok response = true).
    { unfold r_ok. apply andb_true_iff. split; apply N.leb_le; lia. }
    rewrite Hok in Hcls. tauto.
  - rewrite H in Hcls.
    assert (Hok : r_ok response = false).
    { unfold r_ok. apply andb_false_iff.
      destruct (N.leb_spec 200 (r_status response));
      destruct (N.leb_spec (r_status response) 299); auto. lia. }
    rewrite Hok in Hcls. tauto.
  - rewrite H in Hcls.
    assert (Hok : r_ok response = false).
    { unfold r_ok. apply andb_false_iff.
      destruct (N.leb_spec 200 (r_status response));
      destruct (N.leb_spec (r_status response) 299); auto. lia. }
    rewrite Hok in Hcls. tauto.
  - intros msg E. rewrite E in Hcls. simpl in Hcls. tauto.
  - intros err E Hto. rewrite E, Hto in Hcls. tauto.
Qed.

Lemma healthCheck_classifies_witness :
  exists r,
    fst (healthCheck failing_env "hello-world" (demo_world running)) = Ok r
    /\ h_status r = timeout.
Proof.
  destruct (healthCheck_classifies failing_env "hello-world"
              (demo_world running) (demo_service running))
    as (r & Hr & _ & _ & Hto & _).
  - reflexivity.
  - reflexivity.
  - exists r. split; [exact Hr|].
    apply (Hto "The operation timed out."). reflexivity.
Defined.

(** C2 as stated fails at a completed response with status 304: the probe
    is classified [unhealthy], with the detail [HTTP 304]. *)
Lemma healthCheck_3xx_is_unhealthy :
  exists r,
    fst (healthCheck (answering_env 304) "hello-world" (demo_world running))
      = Ok r
    /\ (300 <= 304 <= 399)%N
    /\ h_status r <> healthy
    /\ h_status r = unhealthy
    /\ h_error r = Some "HTTP 304".
Proof.
  eexists. split; [reflexivity|]. simpl.
  repeat split; try lia; discriminate.
Qed.

(** ** The health loop of the activity monitor *)

Lemma forget_errors_assign_incr n l :
  List.map forget_errors (Map_assign n incr_errorCount l)
  = List.map forget_errors l.
Proof.
  unfold Map_assign. rewrite List.map_map. apply List.map_ext.
  intros s. destruct (is_named n s); reflexivity.
Qed.

(** What every task of a [Promise.all] preserves, the whole preserves. *)
Lemma Promise_all_preserves {X} (proj : World -> X) (tasks : list (M unit)) :
  (forall t, In t tasks -> forall w, proj (snd (t w)) = proj w) ->
  forall w, proj (snd (Promise_all tasks w)) = proj w.
Proof.
  induction tasks as [|t tasks IH]; intros Hall w; simpl; [reflexivity|].
  assert (Ht := Hall t (or_introl eq_refl) w).
  assert (IH' := IH (fun t' Hin => Hall t' (or_intror Hin))).
  destruct (t w) as [[[]|e] w1]; simpl in *.
  - rewrite IH'. exact Ht.
  - rewrite IH'. exact Ht.
Qed.

(** One task of the health loop assigns to error counters only. *)
Lemma health_task_frame (env : Env) (s : ServiceInstance) (w : World) :
  List.map forget_errors (services (snd (ActivityMonitor.health_task env s w)))
  = List.map forget_errors (services w).
Proof.
  unfold ActivityMonitor.health_task, try_catch, bind.
  pose proof (healthCheck_services env (name s) w) as Hsv.
  destruct (healthCheck env (name s) w) as [[r|e] w1]; simpl in Hsv.
  - destruct (bool_decide (h_status r = healthy)); simpl.
    + now rewrite Hsv.
    + rewrite forget_errors_assign_incr. now rewrite Hsv.
  - simpl. rewrite forget_errors_assign_incr. now rewrite Hsv.
Qed.

(** One task of the health loop, for a running service: the record keeps
    all its fields when the probe is healthy, and all but the error
    counter, which goes up by one, when it is not. *)
Lemma health_task_running (env : Env) (s : ServiceInstance) (w : World) :
  Map_get (name s) (services w) = Some s -> status s = running ->
  exists r,
    fst (healthCheck env (name s) w) = Ok r
    /\ Map_get (name s) (services (snd (ActivityMonitor.health_task env s w)))
       = Some (if bool_decide (h_status r = healthy) then s
               else set_errorCount (errorCount s + 1) s).
Proof.
  intros Hget Hrun.
  destruct (healthCheck_running env (name s) w s Hget Hrun) as (r & Heq & _).
  exists r. rewrite Heq. split; [reflexivity|].
  unfold ActivityMonitor.health_task, try_catch, bind. rewrite Heq.
  destruct (bool_decide (h_status r = healthy)); simpl.
  - exact Hget.
  - rewrite Map_get_assign by auto with registry. now rewrite Hget.
Qed.

(** C9. A health probe assigns to no record; the task the health loop runs
    for a running service leaves its status [running] and, when the probe
    is not [healthy], raises its error counter by one and changes nothing
    else; and the whole loop leaves every record with the status and the
    other fields it had, the error counter apart. *)
Theorem health_checks_never_change_status (env : Env) :
  (forall n w, services (snd (healthCheck env n w)) = services w)
  /\ (forall s w,
        Map_get (name s) (services w) = Some s ->
        status s = running ->
        exists r s',
          fst (healthCheck env (name s) w) = Ok r
          /\ Map_get (name s)
               (services (snd (ActivityMonitor.health_task env s w))) = Some s'
          /\ status s' = running
          /\ (h_status r <> healthy ->
              s' = set_errorCount (errorCount s + 1) s)
          /\ (h_status r = healthy -> s' = s))
  /\ (forall w,
        let w' := snd (ActivityMonitor.performHealthChecks env w) in
        List.map status (services w') = List.map status (services w)
        /\ List.map forget_errors (services w')
           = List.map forget_errors (services w)).
Proof.
  split; [apply healthCheck_services|]. split.
  - intros s w Hget Hrun.
    destruct (health_task_running env s w Hget Hrun) as (r & Hr & Hs').
    exists r. eexists. split; [exact Hr|]. split; [exact Hs'|].
    destruct (bool_decide_reflect (h_status r = healthy)) as [Hh|Hh].
    + repeat split; [exact Hrun | intros; contradiction].
    + repeat split; [exact Hrun | intros; contradiction].
  - intros w w'.
    assert (Hf : List.map forget_errors (services w')
                 = List.map forget_errors (services w)).
    { subst w'. unfold ActivityMonitor.performHealthChecks, bind, getAllServices.
      apply (Promise_all_preserves
               (fun w0 => List.map forget_errors (services w0))).
      intros t Hin w0. apply List.in_map_iff in Hin as (s & <- & _).
      apply health_task_frame. }
    split; [|exact Hf].
    apply (f_equal (List.map status)) in Hf.
    rewrite !List.map_map in Hf. exact Hf.
Qed.

Lemma health_checks_never_change_status_witness :
  exists r s',
    fst (healthCheck failing_env "hello-world" (demo_world running)) = Ok r
    /\ Map_get "hello-world"
         (services (snd (ActivityMonitor.health_task failing_env
                           (demo_service running) (demo_world running))))
       = Some s'
    /\ status s' = running
    /\ errorCount s' = 1.
Proof.
  destruct (health_checks_never_change_status failing_env) as (_ & Htask & _).
  destruct (Htask (demo_service running) (demo_world running))
    as (r & s' & Hr & Hs' & Hst & Hbad & _).
  - reflexivity.
  - reflexivity.
  - exists r, s'. repeat split; try assumption.
    rewrite Hbad; [reflexivity|].
    simpl in Hr. injection Hr as <-. discriminate.
Defined.

(** ** The router: names it does not serve *)

Import Router.

(** C10. A request whose first path segment is [.well-known] or
    [favicon.ico] is answered 503 [Service unavailable] and the world stays
    as it was: the configuration is not read, no record is registered and
    the supervisor is not called, whatever the configuration holds. *)
Theorem ignored_names_get_503
  (env : Env) (request : Request) (w : World) (serviceName : string)
  (rest : list string) :
  segments_of (q_url request) = serviceName :: rest ->
  serviceName = ".well-known" \/ serviceName = "favicon.ico" ->
  handleRequest env request w
  = (Ok (error_response 503 "Service unavailable"), w)
  /\ r_status (error_response 503 "Service unavailable") = 503%N.
Proof.
  intros Hseg Hname. split; [|reflexivity].
  unfold handleRequest, try_catch, bind. rewrite Hseg.
  unfold ensureServiceRunning.
  destruct Hname as [-> | ->]; reflexivity.
Qed.

Lemma ignored_names_get_503_witness :
  Config.services (conf favicon_world) !! "favicon.ico" = Some demo_config
  /\ handleRequest failing_env (demo_request "/favicon.ico" "") favicon_world
     = (Ok (error_response 503 "Service unavailable"), favicon_world).
Proof.
  split; [reflexivity|].
  apply (ignored_names_get_503 failing_env (demo_request "/favicon.ico" "")
           favicon_world "favicon.ico" []).
  - reflexivity.
  - right. reflexivity.
Defined.

(** C1, as the code has it. A request whose first non-empty path segment
    names a service with no record and no entry in the configuration is
    answered with status 503 [Service unavailable]. *)
Theorem unconfigured_service_gets_503
  (env : Env) (request : Request) (w : World) (serviceName : string)
  (rest : list string) :
  segments_of (q_url request) = serviceName :: rest ->
  Map_get serviceName (services w) = None ->
  Config.services (conf w) !! serviceName = None ->
  fst (handleRequest env request w)
  = Ok (error_response 503 "Service unavailable")
  /\ r_status (error_response 503 "Service unavailable") = 503%N.
Proof.
  intros Hseg Hget Hcfg.
  unfold handleRequest, try_catch, bind. rewrite Hseg.
  unfold ensureServiceRunning.
  destruct (ignored serviceName).
  - split; reflexivity.
  - unfold bind, getService. rewrite Hget.
    unfold getConfig. simpl. rewrite Hcfg. simpl.
    split; reflexivity.
Qed.

Lemma unconfigured_service_gets_503_witness :
  fst (handleRequest failing_env (demo_request "/nope/x" "") empty_world)
  = Ok (error_response 503 "Service unavailable").
Proof.
  destruct (unconfigured_service_gets_503 failing_env
              (demo_request "/nope/x" "") empty_world "nope" ["x"])
    as [H _].
  - reflexivity.
  - reflexivity.
  - reflexivity.
  - exact H.
Defined.

(** C1 as stated fails for the request [/nope] when nothing is registered
    or configured: the status of the answer is 503, not 404. *)
Lemma unconfigured_service_is_not_404 :
  segments_of (q_url (demo_request "/nope" "")) = ["nope"]
  /\ Map_get "nope" (services empty_world) = None
  /\ Config.services (conf empty_world) !! "nope" = None
  /\ exists response,
       fst (handleRequest failing_env (demo_request "/nope" "") empty_world)
       = Ok response
       /\ r_status response = 503%N
       /\ r_status response <> 404%N.
Proof.
  repeat split. eexists. split; [reflexivity|]. split; [reflexivity|].
  discriminate.
Qed.

(** ** The [Headers] class *)

Lemma Headers_filter_replace1_ne (m n v : string) (h : Headers.t) :
  m <> n ->
  List.filter (Headers.has_name m) (Headers.replace1 n v h)
  = List.filter (Headers.has_name m) h.
Proof.
  intros Hne. induction h as [|kv h IH]; simpl; [reflexivity|].
  destruct (Headers.has_name n kv) eqn:En.
  - assert (Em : Headers.has_name m kv = false).
    { unfold Headers.has_name in *. apply String.eqb_eq in En.
      apply String.eqb_neq. congruence. }
    assert (Em' : Headers.has_name m (n, v) = false).
    { unfold Headers.has_name. simpl. apply String.eqb_neq. congruence. }
    rewrite Em. simpl. rewrite Em'.
    clear IH. induction h as [|kv' h IH]; simpl; [reflexivity|].
    destruct (Headers.has_name n kv') eqn:En'; simpl.
    + assert (Headers.has_name m kv' = false) as ->; [|exact IH].
      unfold Headers.has_name in *. apply String.eqb_eq in En'.
      apply String.eqb_neq. congruence.
    + destruct (Headers.has_name m kv'); [f_equal|]; exact IH.
  - simpl. destruct (Headers.has_name m kv); [f_equal|]; exact IH.
Qed.

(** [set] leaves the headers of every other name as they were. *)
Lemma Headers_get_set_ne (name' name value : string) (h : Headers.t) :
  Js.toLowerCase name' <> Js.toLowerCase name ->
  Headers.get name' (Headers.set name value h) = Headers.get name' h.
Proof.
  intros Hne. unfold Headers.get, Headers.set.
  destruct (List.existsb _ h).
  - now rewrite Headers_filter_replace1_ne.
  - rewrite List.filter_app. simpl.
    assert (Headers.has_name (Js.toLowerCase name') (Js.toLowerCase name, value)
            = false) as ->.
    { unfold Headers.has_name. simpl. apply String.eqb_neq. congruence. }
    now rewrite List.app_nil_r.
Qed.

Lemma Headers_filter_replace1_eq (n v : string) (h : Headers.t) :
  List.existsb (Headers.has_name n) h = true ->
  List.filter (Headers.has_name n) (Headers.replace1 n v h) = [(n, v)].
Proof.
  induction h as [|kv h IH]; simpl; [discriminate|].
  destruct (Headers.has_name n kv) eqn:En; simpl.
  - intros _. unfold Headers.has_name at 1. simpl. rewrite String.eqb_refl.
    f_equal. clear. induction h as [|kv' h IH]; simpl; [reflexivity|].
    destruct (Headers.has_name n kv') eqn:E; simpl; [exact IH|].
    rewrite E. exact IH.
  - intros H. rewrite En. now apply IH.
Qed.

Lemma Headers_filter_absent (n : string) (h : Headers.t) :
  List.existsb (Headers.has_name n) h = false ->
  List.filter (Headers.has_name n) h = [].
Proof.
  induction h as [|kv h IH]; simpl; [reflexivity|].
  destruct (Headers.has_name n kv); simpl; [discriminate | exact IH].
Qed.

(** After [set], the name holds the value set. *)
Lemma Headers_get_set (name value : string) (h : Headers.t) :
  Headers.get name (Headers.set name value h) = Some value.
Proof.
  unfold Headers.get, Headers.set.
  destruct (List.existsb _ h) eqn:E.
  - now rewrite Headers_filter_replace1_eq.
  - rewrite List.filter_app, (Headers_filter_absent _ _ E). simpl.
    unfold Headers.has_name. simpl. now rewrite String.eqb_refl.
Qed.

(** ** The router: forwarding to a running service *)

Lemma ensureServiceRunning_running
  (env : Env) (n : string) (w : World) (s : ServiceInstance) :
  ignored n = false ->
  Map_get n (services w) = Some s -> status s = running ->
  ensureServiceRunning env n w = (Ok (Some s), w).
Proof.
  intros Hign Hget Hrun.
  unfold ensureServiceRunning. rewrite Hign.
  unfold bind, getService. rewrite Hget. simpl.
  now rewrite (bool_decide_eq_true_2 _ Hrun).
Qed.

Lemma updateActivity_registered
  (env : Env) (n : string) (w : World) (s : ServiceInstance) :
  Map_get n (services w) = Some s ->
  exists w', updateActivity env n w = (Ok tt, w') /\ trace w' = trace w.
Proof.
  intros Hget. unfold updateActivity, bind, getService. rewrite Hget.
  eexists. split; reflexivity.
Qed.

(** A request for a running service is forwarded with exactly one [fetch],
    the one [forward_request] describes. *)
Lemma handleRequest_running
  (env : Env) (request : Request) (w : World) (n : string)
  (rest : list string) (s : ServiceInstance) :
  segments_of (q_url request) = n :: rest ->
  ignored n = false ->
  Map_get n (services w) = Some s -> status s = running ->
  fetch_calls (trace (snd (handleRequest env request w)))
  = forward_request request s (n :: rest) :: fetch_calls (trace w).
Proof.
  intros Hseg Hign Hget Hrun.
  unfold handleRequest, try_catch, bind. rewrite Hseg.
  rewrite (ensureServiceRunning_running env n w s Hign Hget Hrun).
  assert (Hn : name s = n) by (eapply Map_get_name; eauto).
  rewrite Hn.
  destruct (updateActivity_registered env n w s Hget) as (w1 & -> & Htr).
  unfold log, emit, fetch, randomUUID, Response_new, ret, throw. simpl.
  rewrite Htr.
  destruct (env_fetch env _ _) as [err|response]; simpl.
  - destruct (Js.is_timeout err); simpl; now rewrite Htr.
  - repeat match goal with
           | |- context [if ?b then _ else _] => destruct b; simpl
           end; now rewrite Htr.
Qed.

(** C4. A request to [/serviceA/foo] with a query string, for a record of
    [serviceA] that is running on port [P], is forwarded in one [fetch] to
    [http://localhost:P/foo] followed by the query string as it came, with
    the method and the body of the request, the two forwarding headers set,
    and every other header as the request had it. *)
Theorem forwarded_request_round_trip
  (env : Env) (w : World) (s : ServiceInstance) (P : N)
  (proto query method : string) (headers : Headers.t) (body : option string) :
  Map_get "serviceA" (services w) = Some s ->
  status s = running ->
  port s = P ->
  let request :=
    mkRequest (mkURL proto "/serviceA/foo" query) method headers body in
  exists out,
    fetch_calls (trace (snd (handleRequest env request w)))
      = out :: fetch_calls (trace w)
    /\ f_url out = "http://localhost:" +:+ Js.toString P +:+ "/foo" +:+ query
    /\ f_method out = method
    /\ f_body out = body
    /\ Headers.get "X-Forwarded-For" (f_headers out) = Some "gateway"
    /\ Headers.get "X-Forwarded-Proto" (f_headers out)
       = Some (Js.slice_0_m1 proto)
    /\ forall h,
         Js.toLowerCase h <> "x-forwarded-for" ->
         Js.toLowerCase h <> "x-forwarded-proto" ->
         Headers.get h (f_headers out) = Headers.get h headers.
Proof.
  intros Hget Hrun Hport request.
  exists (forward_request request s ["serviceA"; "foo"]).
  split.
  { apply handleRequest_running; auto. }
  unfold forward_request. simpl. rewrite Hport.
  repeat split.
  - rewrite Headers_get_set_ne by (simpl; discriminate).
    apply Headers_get_set.
  - apply Headers_get_set.
  - intros h H1 H2. now rewrite !Headers_get_set_ne by (simpl; assumption).
Qed.

Lemma forwarded_request_round_trip_witness :
  exists out,
    fetch_calls
      (trace (snd (handleRequest (answering_env 200)
                     (mkRequest (mkURL "https:" "/serviceA/foo" "?x=1") "PUT"
                        [("accept", "*/*"); ("x-forwarded-proto", "ftp")]
                        (Some "payload"))
                     (mkWorld
                        [mkService "serviceA" demo_config running None 4000
                           1000 (Some 900) 7 0]
                        (conf empty_world) [])))) = [out]
    /\ f_url out = "http://localhost:4000/foo?x=1"
    /\ f_method out = "PUT"
    /\ f_body out = Some "payload"
    /\ Headers.get "Accept" (f_headers out) = Some "*/*".
Proof.
  destruct (forwarded_request_round_trip (answering_env 200)
              (mkWorld
                 [mkService "serviceA" demo_config running None 4000
                    1000 (Some 900) 7 0]
                 (conf empty_world) [])
              (mkService "serviceA" demo_config running None 4000
                 1000 (Some 900) 7 0)
              4000 "https:" "?x=1" "PUT"
              [("accept", "*/*"); ("x-forwarded-proto", "ftp")]
              (Some "payload"))
    as (out & Hcalls & Hurl & Hm & Hb & _ & _ & Hother).
  - reflexivity.
  - reflexivity.
  - reflexivity.
  - exists out. repeat split; try assumption.
    rewrite Hother; [reflexivity | discriminate | discriminate].
Defined.

(** ** One request alone *)

Import Concurrent.

Ltac unfold_model :=
  cbv beta iota zeta delta
    [alone resume answer_alone caught enter check_running call_startService
     start_failed after_register after_start after_pm2 after_settle
     after_ensured after_fetch handleRequest ensureServiceRunning
     start_if_needed startService startService_sync startService_resume
     registerService updateActivity getService getConfig sleep randomUUID
     fetch pm2_start bind ret throw try_catch emit log assign deref
     services_has services_set Date_now with_event with_services
     t_pc t_request trace services conf fst snd svc_name default from_option
     id List.head hd_error negb orb andb].

Ltac split_match :=
  match goal with
  | |- context [match ?x with _ => _ end] =>
      lazymatch x with
      | context [match _ with _ => _ end] => fail
      | _ => destruct x eqn:?
      end
  end.

(** The threads of [Module Concurrent] and the method [handleRequest] are
    two readings of the same code: a request that runs alone, resumed at
    each of its [await] points with what the environment answers, ends
    after at most six steps with the response and in the world that
    [handleRequest] gives. *)
Lemma alone_agrees_with_handleRequest (env : Env) (request : Request)
  (w : World) :
  exists response,
    alone env 6 (mkThread request Arrived) w
    = (Responded response, snd (handleRequest env request w))
    /\ fst (handleRequest env request w) = Ok response.
Proof.
  unfold_model.
  destruct (segments_of (q_url request)) as [|m rest] eqn:Hseg.
  { unfold_model. eexists. split; reflexivity. }
  repeat (first [ progress unfold_model | rewrite Hseg | split_match ]).
  all: eexists; split; reflexivity.
Qed.

(** ** Several requests at once: what one step does to one service *)

(** A record read after an assignment through any key. *)
Lemma Map_get_assign_any n k f l :
  keeps_name f ->
  Map_get n (Map_assign k f l)
  = (fun s => if String.eqb n k then f s else s) <$> Map_get n l.
Proof.
  intros Hf. destruct (String.eqb_spec n k) as [->|Hne].
  - now apply Map_get_assign.
  - rewrite Map_get_assign_ne by assumption.
    now destruct (Map_get n l).
Qed.

Lemma status_of_assign n k f w :
  keeps_name f ->
  status_of n (with_services (Map_assign k f (services w)) w)
  = (fun s => if String.eqb n k then status (f s) else status s)
      <$> Map_get n (services w).
Proof.
  intros Hf. unfold status_of. simpl. rewrite Map_get_assign_any by assumption.
  destruct (Map_get n (services w)); simpl; [|reflexivity].
  now destruct (String.eqb n k).
Qed.

Lemma keeps_status_set_pid v : keeps_status (set_pid v).
Proof. intros s. reflexivity. Qed.
Lemma keeps_status_set_lastActivity v : keeps_status (set_lastActivity v).
Proof. intros s. reflexivity. Qed.
Lemma keeps_status_set_startTime v : keeps_status (set_startTime v).
Proof. intros s. reflexivity. Qed.
Lemma keeps_status_incr_requestCount : keeps_status incr_requestCount.
Proof. intros s. reflexivity. Qed.
Lemma keeps_status_incr_errorCount : keeps_status incr_errorCount.
Proof. intros s. reflexivity. Qed.

#[export] Hint Resolve keeps_status_set_pid keeps_status_set_lastActivity
  keeps_status_set_startTime keeps_status_incr_requestCount
  keeps_status_incr_errorCount : registry.

(** An assignment that keeps name and status keeps every status. *)
Lemma status_of_assign_keeps n k f w :
  keeps_name f -> keeps_status f ->
  status_of n (with_services (Map_assign k f (services w)) w) = status_of n w.
Proof.
  intros Hf Hst. rewrite status_of_assign by assumption. unfold status_of.
  destruct (Map_get n (services w)); simpl; [|reflexivity].
  destruct (String.eqb n k); now rewrite ?Hst.
Qed.

(** Assigning a status through key [k]. *)
Lemma status_of_assign_status n k v w :
  status_of n (with_services (Map_assign k (set_status v) (services w)) w)
  = if String.eqb n k then (fun _ => v) <$> status_of n w else status_of n w.
Proof.
  rewrite status_of_assign by auto with registry. unfold status_of.
  destruct (Map_get n (services w)); simpl;
    destruct (String.eqb n k); reflexivity.
Qed.

Lemma status_of_with_event n e w : status_of n (with_event e w) = status_of n w.
Proof. reflexivity. Qed.

Lemma invoked_with_services n l w : invoked n (with_services l w) = invoked n w.
Proof. reflexivity. Qed.

Lemma invoked_with_event n e w :
  invoked n (with_event e w)
  = match e with
    | EvPm2Start c => if String.eqb (pm_name c) n then S (invoked n w)
                      else invoked n w
    | _ => invoked n w
    end.
Proof.
  unfold invoked. simpl.
  destruct e; simpl; try reflexivity.
  destruct (String.eqb (pm_name c) n); reflexivity.
Qed.

(** [registerService] for one service and the status of another or the
    same. *)
Lemma registerService_effect (env : Env) (n k : string) (c : ServiceConfig.t)
  (w : World) :
  exists w',
    registerService env k c w = (Ok tt, w')
    /\ conf w' = conf w
    /\ invoked n w' = invoked n w
    /\ status_of n w'
       = match status_of n w with
         | Some st => Some st
         | None => if String.eqb n k then Some stopped else None
         end.
Proof.
  unfold registerService, bind, services_has. rewrite Map_has_get.
  destruct (Map_get k (services w)) as [s|] eqn:Hk.
  - eexists. split; [reflexivity|]. repeat split.
    rewrite status_of_with_event.
    destruct (status_of n w) eqn:Hn; [reflexivity|].
    destruct (String.eqb_spec n k) as [->|Hne]; [|reflexivity].
    unfold status_of in Hn. rewrite Hk in Hn. discriminate.
  - unfold Date_now, services_set, log, emit. simpl.
    eexists. split; [reflexivity|]. repeat split.
    unfold status_of, Map_set_new. simpl.
    rewrite Map_get_app.
    destruct (Map_get n (services w)) as [s|]; simpl; [reflexivity|].
    unfold is_named. simpl. rewrite String.eqb_sym.
    now destruct (String.eqb n k).
Qed.

(** [updateActivity] assigns to the last activity and the request count
    only. *)
Lemma updateActivity_effect (env : Env) (n k : string) (w : World) :
  exists w',
    updateActivity env k w = (Ok tt, w')
    /\ conf w' = conf w
    /\ trace w' = trace w
    /\ status_of n w' = status_of n w.
Proof.
  unfold updateActivity, bind, getService.
  destruct (Map_get k (services w)); simpl.
  - eexists. split; [reflexivity|]. repeat split.
    unfold assign. simpl.
    change (status_of n
              (with_services
                 (Map_assign k incr_requestCount
                    (services
                       (with_services
                          (Map_assign k (set_lastActivity (env_now env (trace w)))
                             (services w)) w)))
                 (with_services
                    (Map_assign k (set_lastActivity (env_now env (trace w)))
                       (services w)) w)) = status_of n w).
    rewrite !status_of_assign_keeps by (auto with registry). reflexivity.
  - eexists. split; [reflexivity|]. repeat split.
Qed.

Lemma active_running n w : status_of n w = Some running -> active n w = 1%nat.
Proof. unfold active. now intros ->. Qed.

Lemma active_starting n w : status_of n w = Some starting -> active n w = 1%nat.
Proof. unfold active. now intros ->. Qed.

Lemma active_idle n w st :
  status_of n w = Some st -> st <> running -> st <> starting ->
  active n w = 0%nat.
Proof. unfold active. intros -> Hr Hs. destruct st; congruence. Qed.

Lemma status_of_get n w s :
  Map_get n (services w) = Some s -> status_of n w = Some (status s).
Proof. unfold status_of. now intros ->. Qed.

(** A thread asks for [n] exactly when [n] is the name it works on. *)
Lemma requests_name_true n t :
  requests_name n t = true -> default "" (svc_name t) = n.
Proof.
  unfold requests_name. destruct (svc_name t) as [m|]; [|discriminate].
  simpl. apply String.eqb_eq.
Qed.

Lemma requests_name_false n t :
  n <> "" -> requests_name n t = false -> default "" (svc_name t) <> n.
Proof.
  unfold requests_name. intros Hn.
  destruct (svc_name t) as [m|]; simpl; [|congruence].
  apply String.eqb_neq.
Qed.

(** A step that changes nothing. *)
Lemma Trans_stutter n t a w : report a t = [] -> Trans n t a w (t_pc t) w.
Proof.
  intros Hrep. destruct t as [q pc]. simpl.
  apply T_quiet; simpl; auto.
  - now rewrite Hrep.
  - intros _ Hb Hb'. congruence.
Qed.

Lemma startService_sync_unregistered (n : string) (w : World) :
  Map_get n (services w) = None ->
  startService_sync n w
  = (Raise (JsError ("Service " +:+ n +:+ " not registered")), w).
Proof.
  intros Hget. unfold startService_sync, getService, bind. now rewrite Hget.
Qed.

Lemma startService_sync_returns (n : string) (w : World) (s : ServiceInstance) :
  Map_get n (services w) = Some s ->
  status s = running \/ status s = starting ->
  startService_sync n w = (Ok (Returned s), w).
Proof.
  intros Hget Hst. unfold startService_sync, getService, bind. rewrite Hget.
  destruct Hst as [-> | ->]; reflexivity.
Qed.

(** A thread that has not called [startService] has no start command in
    flight, nor has one that went on to anything but the supervisor. *)
Lemma awaits_pm2_before n t :
  before_start t = true -> awaits_pm2 n t = false.
Proof.
  destruct t as [q pc]. unfold awaits_pm2, before_start. simpl.
  destruct pc; try discriminate; intros _; apply andb_false_r.
Qed.

Lemma awaits_pm2_leave n t pc' :
  before_start t = true ->
  match pc' with AwaitPm2 _ => False | _ => True end ->
  awaits_pm2 n (mkThread (t_request t) pc') = awaits_pm2 n t.
Proof.
  intros Hb Hpc. rewrite (awaits_pm2_before n t Hb).
  unfold awaits_pm2. simpl. destruct pc'; try apply andb_false_r.
  contradiction.
Qed.

(** A thread that leaves the part before its call of [startService]
    without calling the supervisor and without touching service [n]. *)
Lemma Trans_leave n t a w pc' w' :
  before_start t = true -> report a t = [] ->
  match pc' with
  | Arrived | AwaitRegister | AwaitPm2 _ => False
  | _ => True
  end ->
  status_of n w' = status_of n w ->
  invoked n w' = invoked n w ->
  (requests_name n t = true ->
   active n w = 1%nat \/ ignored n = true
   \/ (status_of n w = None
       /\ (t_pc t = AwaitRegister \/ Config.services (conf w) !! n = None))) ->
  Trans n t a w pc' w'.
Proof.
  intros Hb Hrep Hpc Hst Hinv Hwhy.
  apply T_quiet; auto.
  - apply awaits_pm2_leave; [assumption|]. now destruct pc'.
  - now rewrite Hrep.
  - congruence.
  - intros _ ->. contradiction.
Qed.

(** The call of [startService] by a thread that has not called it yet. *)
Lemma call_startService_trans (n : string) (t : Thread) (a : Answer)
  (w : World) :
  n <> "" ->
  before_start t = true -> report a t = [] ->
  status_of (default "" (svc_name t)) w <> Some running ->
  (status_of (default "" (svc_name t)) w = None -> t_pc t = AwaitRegister) ->
  let r := caught (call_startService (default "" (svc_name t))) w in
  conf (snd r) = conf w /\ Trans n t a w (fst r) (snd r).
Proof.
  intros Hn Hbefore Hrep Hnotrun Hnone r. subst r.
  set (k := default "" (svc_name t)) in *.
  unfold caught, call_startService, try_catch, bind.
  unfold status_of in Hnotrun, Hnone.
  destruct (Map_get k (services w)) as [s|] eqn:Hk; simpl in Hnotrun, Hnone.
  2:{ (* not registered: the call throws and the router gives up *)
    rewrite (startService_sync_unregistered _ _ Hk). simpl.
    split; [reflexivity|]. apply Trans_leave; simpl; auto.
    intros Hreq. right. right.
    apply requests_name_true in Hreq. fold k in Hreq.
    unfold status_of. rewrite <- Hreq, Hk. auto. }
  destruct (decide (status s = starting)) as [Hs|Hs].
  - (* already starting: [startService] returns at once *)
    rewrite (startService_sync_returns _ _ _ Hk (or_intror Hs)). simpl.
    split; [reflexivity|]. apply Trans_leave; simpl; auto.
    intros Hreq. left.
    apply requests_name_true in Hreq. fold k in Hreq. subst n.
    apply active_starting. rewrite (status_of_get _ _ _ Hk). congruence.
  - (* the supervisor is called *)
    assert (Hr : status s <> running) by congruence.
    rewrite (startService_sync_launches _ _ _ Hk Hr Hs). simpl.
    split; [reflexivity|].
    destruct (requests_name n t) eqn:Hreq.
    + pose proof (requests_name_true _ _ Hreq) as Hkn. fold k in Hkn.
      apply (T_launch _ _ _ _ _ _ s); auto.
      * rewrite <- Hkn. unfold status_of. rewrite Hk. discriminate.
      * rewrite <- Hkn. eapply active_idle; eauto using status_of_get.
      * rewrite !status_of_with_event, status_of_assign_status.
        rewrite Hkn, String.eqb_refl. rewrite <- Hkn.
        now rewrite (status_of_get _ _ _ Hk).
      * rewrite invoked_with_event. simpl. rewrite Hkn, String.eqb_refl.
        reflexivity.
    + pose proof (requests_name_false _ _ Hn Hreq) as Hkn. fold k in Hkn.
      apply T_quiet; simpl.
      * rewrite !status_of_with_event, status_of_assign_status.
        apply String.eqb_neq in Hkn. rewrite String.eqb_sym in Hkn.
        now rewrite Hkn.
      * rewrite invoked_with_event. simpl.
        apply String.eqb_neq in Hkn. now rewrite Hkn.
      * rewrite (awaits_pm2_before n t Hbefore).
        unfold awaits_pm2. simpl.
        change (requests_name n {| t_request := t_request t; t_pc := AwaitPm2 s |})
          with (requests_name n t).
        now rewrite Hreq.
      * now rewrite Hrep.
      * congruence.
      * congruence.
      * discriminate.
Qed.

(** A thread past its call of [startService], not waiting for the
    supervisor, that goes on without touching service [n]. *)
Lemma Trans_past n t a w pc' w' :
  before_start t = false ->
  match t_pc t with AwaitPm2 _ => False | _ => True end ->
  match pc' with
  | Arrived | AwaitRegister | AwaitPm2 _ => False
  | _ => True
  end ->
  status_of n w' = status_of n w ->
  invoked n w' = invoked n w ->
  Trans n t a w pc' w'.
Proof.
  intros Hb Hpc Hpc' Hst Hinv.
  assert (Hrep : report a t = []).
  { unfold report. destruct (t_pc t); try reflexivity. contradiction. }
  apply T_quiet; auto.
  - unfold awaits_pm2. simpl.
    destruct (t_pc t), pc'; try contradiction; now rewrite !andb_false_r.
  - now rewrite Hrep.
  - intros _. now destruct pc'.
  - congruence.
  - intros _ ->. contradiction.
Qed.

(** The [if] of [ensureServiceRunning] on the record read just before. *)
Lemma check_running_trans (n : string) (t : Thread) (a : Answer) (w : World) :
  n <> "" ->
  before_start t = true -> report a t = [] ->
  (Map_get (default "" (svc_name t)) (services w) = None ->
   t_pc t = AwaitRegister) ->
  let k := default "" (svc_name t) in
  let r := caught (check_running k (Map_get k (services w))) w in
  conf (snd r) = conf w /\ Trans n t a w (fst r) (snd r).
Proof.
  intros Hn Hbefore Hrep Hnone k r. subst r. fold k in Hnone.
  unfold check_running.
  destruct (Map_get k (services w)) as [s|] eqn:Hk.
  - destruct (bool_decide_reflect (status s = running)) as [Hr|Hr]; simpl.
    + split; [reflexivity|]. apply Trans_leave; simpl; auto.
      intros Hreq. left. apply requests_name_true in Hreq. fold k in Hreq.
      subst n. apply active_running.
      rewrite (status_of_get _ _ _ Hk). congruence.
    + apply call_startService_trans; auto; fold k.
      * rewrite (status_of_get _ _ _ Hk). congruence.
      * rewrite (status_of_get _ _ _ Hk). discriminate.
  - split; [reflexivity|]. apply Trans_leave; simpl; auto.
    intros Hreq. right. right. apply requests_name_true in Hreq.
    fold k in Hreq. subst n. unfold status_of. rewrite Hk. auto.
Qed.

(** The rest of [startService] once the supervisor has answered. *)
Lemma startService_resume_effect (env : Env) (n k : string)
  (s : ServiceInstance) (result : option Exn) (w : World) :
  exists o w',
    startService_resume env k s result w = (o, w')
    /\ conf w' = conf w
    /\ invoked n w' = invoked n w
    /\ status_of n w'
       = (if String.eqb n k
          then (fun _ => match result with None => running | Some _ => error end)
                 <$> status_of n w
          else status_of n w)
    /\ match result with
       | None => exists s', o = Ok s'
       | Some err => o = Raise err
       end.
Proof.
  unfold startService_resume.
  destruct result as [err|];
    unfold bind, assign, log, emit, Date_now, deref, throw; simpl;
    eexists _, _; (split; [reflexivity|]); simpl;
    (split; [reflexivity|]); (split; [reflexivity|]); (split; [|eauto]);
    unfold status_of; simpl;
    rewrite !Map_get_assign_any by auto with registry;
    destruct (Map_get n (services w)); simpl;
    destruct (String.eqb n k); reflexivity.
Qed.

(** A request from its arrival to its first [await]. *)
Lemma enter_trans (env : Env) (n : string) (t : Thread) (a : Answer)
  (w : World) :
  n <> "" -> t_pc t = Arrived ->
  let r := caught (enter env (t_request t)) w in
  conf (snd r) = conf w /\ Trans n t a w (fst r) (snd r).
Proof.
  intros Hn Hpc r. subst r.
  assert (Hbefore : before_start t = true)
    by (unfold before_start; now rewrite Hpc).
  assert (Hrep : report a t = []) by (unfold report; now rewrite Hpc).
  unfold enter.
  destruct (segments_of (q_url (t_request t))) as [|m rest] eqn:Hseg.
  { simpl. split; [reflexivity|]. apply Trans_leave; simpl; auto.
    intros Hreq. unfold requests_name, svc_name in Hreq.
    rewrite Hseg in Hreq. discriminate. }
  assert (Hk : default "" (svc_name t) = m)
    by (unfold svc_name; now rewrite Hseg).
  destruct (ignored m) eqn:Hign.
  { simpl. split; [reflexivity|]. apply Trans_leave; simpl; auto.
    intros Hreq. right. left. apply requests_name_true in Hreq. congruence. }
  pose proof (check_running_trans n t a w Hn Hbefore Hrep) as Hcheck.
  rewrite Hk in Hcheck. simpl in Hcheck.
  unfold caught, bind, getService in *.
  destruct (Map_get m (services w)) as [s|] eqn:Hget.
  { apply Hcheck. discriminate. }
  clear Hcheck. unfold getConfig. simpl.
  destruct (Config.services (conf w) !! m) as [c|] eqn:Hcfg.
  - destruct (registerService_effect env n m c (with_event EvGetConfig w))
      as (w' & -> & Hconf & Hinv & Hst).
    simpl. split; [exact Hconf|].
    rewrite status_of_with_event in Hst.
    destruct (requests_name n t) eqn:Hreq.
    + pose proof (requests_name_true _ _ Hreq) as Hkn. rewrite Hk in Hkn.
      clear Hk. subst m.
      assert (Hnone : status_of n w = None)
        by (unfold status_of; now rewrite Hget).
      rewrite Hnone, String.eqb_refl in Hst.
      apply T_register; auto.
    + pose proof (requests_name_false _ _ Hn Hreq) as Hkn. rewrite Hk in Hkn.
      apply String.eqb_neq in Hkn. rewrite String.eqb_sym in Hkn.
      rewrite Hkn in Hst.
      apply T_quiet; simpl; auto.
      * rewrite Hst. now destruct (status_of n w).
      * rewrite (awaits_pm2_before n t Hbefore).
        unfold awaits_pm2. simpl. apply andb_false_r.
      * now rewrite Hrep.
      * congruence.
      * congruence.
      * congruence.
  - simpl. split; [reflexivity|]. apply Trans_leave; simpl; auto.
    intros Hreq. right. right. apply requests_name_true in Hreq.
    rewrite Hk in Hreq. clear Hk. subst m.
    unfold status_of. rewrite Hget. auto.
Qed.

(** The supervisor's answer to a thread that awaits it. *)
Lemma Trans_answer n t service result w pc' w' :
  n <> "" ->
  t_pc t = AwaitPm2 service ->
  match pc' with
  | Arrived | AwaitRegister | AwaitPm2 _ => False
  | _ => True
  end ->
  status_of n w'
  = (if String.eqb n (default "" (svc_name t))
     then (fun _ => match result with None => running | Some _ => error end)
            <$> status_of n w
     else status_of n w) ->
  invoked n w' = invoked n w ->
  Trans n t (Pm2Answer result) w pc' w'.
Proof.
  intros Hn Hpc Hpc' Hst Hinv.
  set (k := default "" (svc_name t)) in *.
  destruct (requests_name n t) eqn:Hreq.
  - pose proof (requests_name_true _ _ Hreq) as Hkn. fold k in Hkn.
    rewrite Hkn, String.eqb_refl in Hst.
    apply (T_done _ _ _ _ _ _ service result); auto.
    + now destruct pc'.
    + unfold awaits_pm2. simpl. destruct pc'; try apply andb_false_r.
      contradiction.
  - pose proof (requests_name_false _ _ Hn Hreq) as Hkn. fold k in Hkn.
    apply String.eqb_neq in Hkn.
    assert (Hkn' : String.eqb n k = false) by (now rewrite String.eqb_sym).
    rewrite Hkn' in Hst.
    apply T_quiet; auto.
    + unfold awaits_pm2.
      change (requests_name n {| t_request := t_request t; t_pc := pc' |})
        with (requests_name n t).
      now rewrite Hreq.
    + unfold report. rewrite Hpc. fold k. unfold failures. simpl.
      now rewrite Hkn.
    + intros _. now destruct pc'.
    + congruence.
    + congruence.
Qed.

(** Every step of every thread is one of the four transitions, and leaves
    the configuration alone. *)
Lemma resume_trans (env : Env) (n : string) (a : Answer) (t : Thread)
  (w : World) :
  n <> "" ->
  let r := resume env a t w in
  conf (snd r) = conf w /\ Trans n t a w (fst r) (snd r).
Proof.
  intros Hn r. subst r. unfold resume.
  destruct (t_pc t) eqn:Hpc; destruct a;
    try (split; [reflexivity|];
         rewrite <- Hpc; apply Trans_stutter; unfold report; now rewrite Hpc).
  - (* the request arrives *)
    now apply enter_trans.
  - (* after [registerService] *)
    unfold after_register, bind, getService.
    apply check_running_trans; auto.
    + unfold before_start. now rewrite Hpc.
    + unfold report. now rewrite Hpc.
  - (* after a [startService] that returned at once *)
    split; [reflexivity|].
    apply Trans_past; simpl; auto; unfold before_start; now rewrite Hpc.
  - (* the supervisor answers *)
    unfold caught, after_pm2, try_catch, bind.
    destruct (startService_resume_effect env n (default "" (svc_name t))
                service result w)
      as (o & w' & -> & Hconf & Hinv & Hst & Ho).
    destruct result as [err|].
    + subst o. simpl. split; [exact Hconf|].
      eapply Trans_answer; eauto; simpl; auto.
    + destruct Ho as [s' ->]. simpl. split; [exact Hconf|].
      eapply Trans_answer; eauto; simpl; auto.
  - (* the settle delay is over *)
    split; [reflexivity|].
    apply Trans_past; simpl; auto; unfold before_start; now rewrite Hpc.
  - (* [ensureServiceRunning] has returned *)
    unfold caught, after_ensured.
    destruct service as [s|].
    + unfold bind.
      destruct (updateActivity_effect env n (name s) w)
        as (w' & -> & Hconf & Htr & Hst).
      simpl. split; [exact Hconf|].
      apply Trans_past; simpl; auto; try (unfold before_start; now rewrite Hpc).
      unfold invoked. simpl. now rewrite Htr.
    + split; [reflexivity|].
      apply Trans_past; simpl; auto; unfold before_start; now rewrite Hpc.
  - (* the backend answers *)
    unfold caught, after_fetch.
    destruct outcome as [err|response]; simpl.
    + split; [reflexivity|].
      apply Trans_past; simpl; auto; unfold before_start; now rewrite Hpc.
    + unfold bind, randomUUID, Response_new, throw, ret. simpl.
      repeat match goal with
             | |- context [if ?b then _ else _] => destruct b; simpl
             end;
        (split; [reflexivity|]);
        apply Trans_past; simpl; auto; unfold before_start; now rewrite Hpc.
Qed.

(** ** Several requests at once: the invariant *)

Lemma In_insert {A} (l : list A) (i : nat) (x y : A) :
  In y (<[i:=x]> l) -> y = x \/ In y l.
Proof.
  revert i. induction l as [|z l IH]; intros [|i]; simpl; try tauto.
  - intros [<-|H]; auto.
  - intros [<-|H]; auto. destruct (IH i H); auto.
Qed.

Lemma lookup_In {A} (l : list A) (i : nat) (x : A) : l !! i = Some x -> In x l.
Proof.
  revert i. induction l as [|z l IH]; intros [|i]; simpl; try discriminate.
  - intros [= ->]. now left.
  - intros H. right. eapply IH, H.
Qed.

(** Replacing one element changes a count by what the element counted. *)
Lemma count_insert {A} (p : A -> bool) (l : list A) (i : nat) (x y : A) :
  l !! i = Some x ->
  (List.length (List.filter p (<[i:=y]> l)) + (if p x then 1 else 0)
   = List.length (List.filter p l) + (if p y then 1 else 0))%nat.
Proof.
  revert i. induction l as [|z l IH]; intros [|i]; simpl; try discriminate.
  - intros [= ->]. destruct (p x), (p y); simpl; lia.
  - intros H. specialize (IH i H). destruct (p z); simpl; lia.
Qed.

Lemma failures_app n r1 r2 :
  failures n (r1 ++ r2) = (failures n r1 + failures n r2)%nat.
Proof. unfold failures. now rewrite List.filter_app, List.length_app. Qed.

Lemma active_le_1 n w : (active n w <= 1)%nat.
Proof. unfold active. destruct (status_of n w) as [[]|]; lia. Qed.

Lemma active_status n w w' :
  status_of n w' = status_of n w -> active n w' = active n w.
Proof. unfold active. now intros ->. Qed.

(** The invariant holds when the requests arrive, if the record is absent
    or stopped. *)
Lemma init_Inv (n : string) (w : World) (requests : list Request) :
  status_of n w = None \/ status_of n w = Some stopped ->
  Inv n (invoked n w) (init w requests).
Proof.
  intros Hst. constructor; simpl.
  - assert (Hzero : in_flight n (init w requests) = 0%nat).
    { unfold in_flight, init. simpl.
      induction requests as [|q qs IH]; simpl; [reflexivity|].
      unfold awaits_pm2 at 1. simpl. now rewrite andb_false_r. }
    rewrite Hzero. destruct Hst as [-> | ->]; reflexivity.
  - unfold failed, active. simpl.
    destruct Hst as [-> | ->]; unfold failures; simpl; lia.
  - intros t Hin _ Hpc. apply List.in_map_iff in Hin as (q & <- & _).
    discriminate.
Qed.

(** Every step keeps the invariant. *)
Lemma step_Inv (env : Env) (n : string) (base : nat) (σ : State)
  (ia : nat * Answer) :
  n <> "" -> Inv n base σ -> Inv n base (step env σ ia).
Proof.
  intros Hn [Hfl Hinv Hreg]. destruct ia as [i a]. unfold step.
  destruct (threads σ !! i) as [t|] eqn:Hi; [|now constructor].
  destruct (resume_trans env n a t (world σ) Hn) as [_ Htr].
  destruct (resume env a t (world σ)) as [pc' w']. simpl in Htr.
  pose proof (count_insert (awaits_pm2 n) (threads σ) i t
                (mkThread (t_request t) pc') Hi) as Hcount.
  fold (in_flight n σ) in Hcount.
  assert (Hregs : forall st,
    status_of n w' = Some st ->
    (forall t0, In t0 (threads σ) -> requests_name n t0 = true ->
                t_pc t0 = AwaitRegister -> status_of n (world σ) <> None) ->
    forall t0, In t0 (<[i:=mkThread (t_request t) pc']> (threads σ)) ->
               requests_name n t0 = true -> t_pc t0 = AwaitRegister ->
               status_of n w' <> None).
  { intros st -> _ t0 _ _ _. discriminate. }
  destruct Htr as
    [Hst Hinvk Haw Hfail Hpast Hwhy Hsame
    |Hreq Hpc -> Hnone Hst Hinvk
    |s Hreq Hb -> Hsome Hact Hst Hinvk
    |s result Hreq Hpc -> Hb Haw Hst Hinvk].
  - (* nothing that counts *)
    constructor; unfold in_flight, failed in *; simpl.
    + rewrite Hst, <- Hfl. rewrite Haw in Hcount.
      destruct (awaits_pm2 n t); lia.
    + rewrite failures_app, Hfail, Hinvk, (active_status _ _ _ Hst). exact Hinv.
    + intros t0 Hin Hreq0 Hpc0. rewrite Hst.
      apply In_insert in Hin as [-> | Hin].
      * simpl in Hpc0. apply (Hreg t); eauto using lookup_In.
      * now apply (Hreg t0).
  - (* the record is registered *)
    assert (Hrep : report a t = []) by (unfold report; now rewrite Hpc).
    assert (Haw : awaits_pm2 n t = false)
      by (apply awaits_pm2_before; unfold before_start; now rewrite Hpc).
    constructor; unfold in_flight, failed in *; simpl.
    + rewrite Hst. rewrite Hnone in Hfl.
      assert (Haw' : awaits_pm2 n (mkThread (t_request t) AwaitRegister) = false)
        by (unfold awaits_pm2; simpl; apply andb_false_r).
      rewrite Haw, Haw' in Hcount. lia.
    + rewrite Hrep, Hinvk. simpl. rewrite Hinv.
      unfold active. now rewrite Hst, Hnone.
    + eapply Hregs; eauto.
  - (* a start command *)
    assert (Hrep : report a t = []).
    { unfold report. unfold before_start in Hb.
      destruct (t_pc t); try discriminate; reflexivity. }
    assert (Haw : awaits_pm2 n t = false) by (now apply awaits_pm2_before).
    assert (Hidle : in_flight n σ = 0%nat).
    { rewrite Hfl. unfold active in Hact.
      destruct (status_of n (world σ)) as [[]|]; try reflexivity.
      discriminate. }
    constructor; unfold in_flight, failed in *; simpl.
    + rewrite Hst.
      assert (Haw' : awaits_pm2 n (mkThread (t_request t) (AwaitPm2 s)) = true).
      { unfold awaits_pm2. simpl.
        change (requests_name n {| t_request := t_request t; t_pc := AwaitPm2 s |})
          with (requests_name n t).
        now rewrite Hreq. }
      rewrite Haw, Haw', Hidle in Hcount. lia.
    + rewrite Hrep, Hinvk. simpl. rewrite Hinv, Hact.
      unfold active. rewrite Hst. lia.
    + eapply Hregs; eauto.
  - (* the supervisor answers *)
    assert (Haw0 : awaits_pm2 n t = true).
    { unfold awaits_pm2. now rewrite Hreq, Hpc. }
    rewrite Haw0, Haw in Hcount.
    assert (Hstarting : status_of n (world σ) = Some starting).
    { destruct (status_of n (world σ)) as [[]|]; try reflexivity; lia. }
    rewrite Hstarting in Hst. simpl in Hst.
    constructor; unfold in_flight, failed in *; simpl.
    + rewrite Hst. rewrite Hstarting in Hfl.
      destruct result; lia.
    + rewrite failures_app, Hinvk, Hinv.
      unfold report. rewrite Hpc.
      rewrite (requests_name_true _ _ Hreq).
      unfold active. rewrite Hst, Hstarting.
      unfold failures. simpl. rewrite String.eqb_refl.
      destruct result; simpl; lia.
    + eapply Hregs; eauto.
Qed.

(** Every schedule keeps the invariant. *)
Lemma run_Inv (env : Env) (n : string) (base : nat)
  (schedule : list (nat * Answer)) (σ : State) :
  n <> "" -> Inv n base σ -> Inv n base (run env schedule σ).
Proof.
  intros Hn. revert σ. unfold run.
  induction schedule as [|ia schedule IH]; intros σ HI; simpl; [exact HI|].
  apply IH. now apply step_Inv.
Qed.

(** No step takes a start command back. *)
Lemma Trans_invoked_mono n t a w pc' w' :
  Trans n t a w pc' w' -> (invoked n w <= invoked n w')%nat.
Proof. intros [ | | | ]; lia. Qed.

(** Every step keeps the configuration and what [Called] says, for a
    service that is configured and not ignored. *)
Lemma step_Called (env : Env) (n : string) (base : nat) (σ : State)
  (ia : nat * Answer) :
  n <> "" -> ignored n = false ->
  is_Some (Config.services (conf (world σ)) !! n) ->
  Inv n base σ -> Called n base σ ->
  conf (world (step env σ ia)) = conf (world σ)
  /\ Called n base (step env σ ia).
Proof.
  intros Hn Hign Hcfg [Hfl Hinv Hreg] Hcalled. destruct ia as [i a].
  unfold step.
  destruct (threads σ !! i) as [t|] eqn:Hi; [|split; [reflexivity|exact Hcalled]].
  destruct (resume_trans env n a t (world σ) Hn) as [Hconf Htr].
  destruct (resume env a t (world σ)) as [pc' w']. simpl in Hconf, Htr.
  split; [exact Hconf|].
  pose proof (Trans_invoked_mono _ _ _ _ _ _ Htr) as Hmono.
  pose proof (lookup_In _ _ _ Hi) as Hin_t.
  intros t0 Hin Hreq0 Hb0. simpl in *.
  apply In_insert in Hin as [-> | Hin].
  2:{ specialize (Hcalled t0 Hin Hreq0 Hb0). lia. }
  change (requests_name n {| t_request := t_request t; t_pc := pc' |})
    with (requests_name n t) in Hreq0.
  destruct (before_start t) eqn:Hb.
  2:{ specialize (Hcalled t Hin_t Hreq0 Hb). lia. }
  destruct Htr as
    [Hst Hinvk Haw Hfail Hpast Hwhy Hsame
    |Hreq Hpc -> Hnone Hst Hinvk
    |s Hreq _ -> Hsome Hact Hst Hinvk
    |s result Hreq Hpc -> _ Haw Hst Hinvk].
  - destruct (Hwhy Hreq0 Hb Hb0) as [Hact | [Hign' | [Hnone Hwhy']]].
    + rewrite Hinvk, Hinv, Hact. lia.
    + congruence.
    + destruct Hwhy' as [Hpc | Hnocfg].
      * exfalso. now apply (Hreg t Hin_t Hreq0 Hpc).
      * rewrite Hnocfg in Hcfg. now destruct Hcfg.
  - discriminate.
  - rewrite Hinvk, Hinv. lia.
  - unfold before_start in Hb. rewrite Hpc in Hb. discriminate.
Qed.

Lemma run_Called (env : Env) (n : string) (base : nat)
  (schedule : list (nat * Answer)) (σ : State) :
  n <> "" -> ignored n = false ->
  is_Some (Config.services (conf (world σ)) !! n) ->
  Inv n base σ -> Called n base σ ->
  Called n base (run env schedule σ).
Proof.
  intros Hn Hign. revert σ. unfold run.
  induction schedule as [|ia schedule IH]; intros σ Hcfg HI HC; simpl;
    [exact HC|].
  destruct (step_Called env n base σ ia Hn Hign Hcfg HI HC) as [Hconf HC'].
  apply IH; [now rewrite Hconf | now apply step_Inv | exact HC'].
Qed.

(** Once every request for [n] has made its call of [startService], no
    step gives the supervisor another start command for [n]. *)
Lemma step_all_called (env : Env) (n : string) (σ : State)
  (ia : nat * Answer) :
  n <> "" -> all_called n σ = true ->
  all_called n (step env σ ia) = true
  /\ invoked n (world (step env σ ia)) = invoked n (world σ).
Proof.
  intros Hn Hall. destruct ia as [i a]. unfold step.
  destruct (threads σ !! i) as [t|] eqn:Hi; [|split; [exact Hall|reflexivity]].
  destruct (resume_trans env n a t (world σ) Hn) as [_ Htr].
  destruct (resume env a t (world σ)) as [pc' w']. simpl in Htr.
  unfold all_called in *. simpl.
  rewrite List.forallb_forall in Hall.
  pose proof (Hall t (lookup_In _ _ _ Hi)) as Ht.
  assert (Hpast : requests_name n t = true -> before_start t = false).
  { intros Hreq. rewrite Hreq in Ht. simpl in Ht.
    now destruct (before_start t). }
  assert (Hkeep :
    (requests_name n t = true ->
     before_start (mkThread (t_request t) pc') = false)
    /\ invoked n w' = invoked n (world σ)).
  { destruct Htr as
      [Hst Hinvk Haw Hfail Hpast' Hwhy Hsame
      |Hreq Hpc -> Hnone Hst Hinvk
      |s Hreq Hb -> Hsome Hact Hst Hinvk
      |s result Hreq Hpc -> Hb Haw Hst Hinvk].
    - split; [|exact Hinvk]. intros Hreq. apply Hpast', Hpast, Hreq.
    - specialize (Hpast Hreq). unfold before_start in Hpast.
      rewrite Hpc in Hpast. discriminate.
    - specialize (Hpast Hreq). congruence.
    - split; [|exact Hinvk]. intros _. exact Hb. }
  destruct Hkeep as [Hkeep Hinvk]. split; [|exact Hinvk].
  apply List.forallb_forall. intros t0 Hin.
  apply In_insert in Hin as [-> | Hin]; [|now apply Hall].
  change (requests_name n {| t_request := t_request t; t_pc := pc' |})
    with (requests_name n t).
  destruct (requests_name n t); [|reflexivity].
  simpl. now rewrite Hkeep.
Qed.

Lemma run_all_called (env : Env) (n : string)
  (schedule : list (nat * Answer)) (σ : State) :
  n <> "" -> all_called n σ = true ->
  invoked n (world (run env schedule σ)) = invoked n (world σ).
Proof.
  intros Hn. revert σ. unfold run.
  induction schedule as [|ia schedule IH]; intros σ Hall; simpl; [reflexivity|].
  destruct (step_all_called env n σ ia Hn Hall) as [Hall' Hinvk].
  rewrite IH by exact Hall'. exact Hinvk.
Qed.

(** The first path segment of a request is never the empty string. *)
Lemma requests_name_empty (t : Thread) : requests_name "" t = false.
Proof.
  unfold requests_name, svc_name, segments_of.
  destruct (List.filter Js.truthy (Js.split "/" (pathname (q_url (t_request t)))))
    as [|m rest] eqn:E; [reflexivity|]. simpl.
  assert (Hin : In m (List.filter Js.truthy
                        (Js.split "/" (pathname (q_url (t_request t))))))
    by (rewrite E; now left).
  apply List.filter_In in Hin as [_ Htruthy].
  unfold Js.truthy in Htruthy. now destruct (String.eqb m "").
Qed.

Lemma in_flight_empty (σ : State) : in_flight "" σ = 0%nat.
Proof.
  unfold in_flight. induction (threads σ) as [|t l IH]; simpl; [reflexivity|].
  unfold awaits_pm2 at 1. now rewrite requests_name_empty.
Qed.

Lemma init_Called (n : string) (base : nat) (w : World)
  (requests : list Request) :
  Called n base (init w requests).
Proof.
  intros t Hin _ Hb. apply List.in_map_iff in Hin as (q & <- & _).
  discriminate.
Qed.

(** ** Several requests at once: no double start *)

(** C3, as the code has it. Take any number of requests that arrive
    together, a service name [n] whose record is absent or [stopped], and
    any interleaving of the requests at their [await] points, with any
    answers of the supervisor and of the backends.  At no time is more than
    one start command for [n] in flight at the supervisor.  And when [n] is
    configured and is not one of the two names the router ignores, once
    every request for [n] (there is at least one) has made its call of
    [startService] before the supervisor has reported a failure, exactly
    one start command for [n] has been given, and none follows. *)
Theorem concurrent_requests_start_once
  (env : Env) (w : World) (requests : list Request) (n : string) :
  status_of n w = None \/ status_of n w = Some stopped ->
  (forall schedule,
     (in_flight n (run env schedule (init w requests)) <= 1)%nat)
  /\ (forall pre post,
        is_Some (Config.services (conf w) !! n) ->
        ignored n = false ->
        some_request n (run env pre (init w requests)) = true ->
        all_called n (run env pre (init w requests)) = true ->
        failed n (run env pre (init w requests)) = 0%nat ->
        invoked n (world (run env post (run env pre (init w requests))))
        = S (invoked n w)).
Proof.
  intros Hcold. split.
  - intros schedule. destruct (String.eqb_spec n "") as [->|Hn].
    + rewrite in_flight_empty. lia.
    + destruct (run_Inv env n (invoked n w) schedule (init w requests) Hn
                  (init_Inv n w requests Hcold)) as [Hfl _ _].
      rewrite Hfl.
      destruct (status_of n (world (run env schedule (init w requests))))
        as [[]|]; lia.
  - intros pre post Hcfg Hign Hsome Hall Hfailed.
    set (σ1 := run env pre (init w requests)) in *.
    apply List.existsb_exists in Hsome as (t & Hin & Hreq).
    assert (Hn : n <> "").
    { intros ->. rewrite requests_name_empty in Hreq. discriminate. }
    pose proof (run_Inv env n (invoked n w) pre (init w requests) Hn
                  (init_Inv n w requests Hcold)) as HI.
    pose proof (run_Called env n (invoked n w) pre (init w requests) Hn Hign
                  Hcfg (init_Inv n w requests Hcold)
                  (init_Called n (invoked n w) w requests)) as HC.
    fold σ1 in HI, HC.
    rewrite (run_all_called env n post σ1 Hn Hall).
    assert (Hb : before_start t = false).
    { unfold all_called in Hall. rewrite List.forallb_forall in Hall.
      specialize (Hall t Hin). rewrite Hreq in Hall. simpl in Hall.
      now destruct (before_start t). }
    specialize (HC t Hin Hreq Hb).
    destruct HI as [_ Hinv _]. rewrite Hfailed in Hinv.
    pose proof (active_le_1 n (world σ1)). lia.
Qed.

Lemma concurrent_requests_start_once_witness :
  (in_flight "hello-world"
     (run failing_env (all_arrive ++ start_fails)
        (init cold_world three_requests)) <= 1)%nat
  /\ invoked "hello-world"
       (world (run failing_env start_fails
                 (run failing_env all_arrive (init cold_world three_requests))))
     = 1%nat.
Proof.
  destruct (concurrent_requests_start_once failing_env cold_world
              three_requests "hello-world") as [Hflight Honce].
  - left. reflexivity.
  - split.
    + apply Hflight.
    + apply (Honce all_arrive start_fails).
      * eexists. reflexivity.
      * reflexivity.
      * reflexivity.
      * reflexivity.
      * reflexivity.
Defined.

(** C3 as stated fails in two ways.  For a configured service named
    [favicon.ico], one of the two names the router ignores, the record is
    absent, a request for it arrives and is answered, and no start command
    is given.  And for [hello-world], configured and without a record, two
    requests arrive together, and the supervisor reports that the start
    made for the first has failed before the second has made its call of
    [startService]: the second request starts the service again, and two
    start commands have been given when both requests are answered. *)
Lemma concurrent_requests_start_zero_or_twice :
  (let final := run failing_env [(0%nat, Tick); (0%nat, Tick)]
                  (init favicon_world [demo_request "/favicon.ico" ""]) in
   Config.services (conf favicon_world) !! "favicon.ico" = Some demo_config
   /\ status_of "favicon.ico" favicon_world = None
   /\ some_request "favicon.ico" final = true
   /\ all_responded final = true
   /\ invoked "favicon.ico" (world final) = 0%nat)
  /\ (let final := run failing_env one_after_the_other
                     (init cold_world two_requests) in
      Config.services (conf cold_world) !! "hello-world" = Some demo_config
      /\ ignored "hello-world" = false
      /\ status_of "hello-world" cold_world = None
      /\ all_responded final = true
      /\ in_flight "hello-world" final = 0%nat
      /\ invoked "hello-world" (world final) = 2%nat).
Proof.
  repeat split.
Qed.

(** * Further properties of the code *)

(** ** The registry: registering and looking up *)

Lemma names_assign n f l :
  keeps_name f -> List.map name (Map_assign n f l) = List.map name l.
Proof.
  intros Hf. unfold Map_assign. rewrite List.map_map. apply List.map_ext.
  intros s. destruct (is_named n s); [apply Hf | reflexivity].
Qed.

Lemma Map_get_None_names n l : Map_get n l = None <-> ~ In n (List.map name l).
Proof.
  unfold Map_get. induction l as [|s l IH]; simpl; [tauto|].
  destruct (is_named n s) eqn:E.
  - apply is_named_true in E. split; [discriminate | intros H; exfalso; auto].
  - apply is_named_false in E. rewrite IH. tauto.
Qed.

Lemma NoDup_snoc {A} (l : list A) (x : A) :
  List.NoDup l -> ~ In x l -> List.NoDup (l ++ [x]).
Proof.
  induction l as [|y l IH]; simpl; intros Hnd Hnotin.
  - apply List.NoDup_cons; [tauto | apply List.NoDup_nil].
  - apply List.NoDup_cons_iff in Hnd as [Hy Hnd].
    apply List.NoDup_cons.
    + rewrite List.in_app_iff. simpl. intuition congruence.
    + apply IH; tauto.
Qed.

(** With distinct names, a record of the registry is the one found under
    its name. *)
Lemma Map_get_of_In l s :
  List.NoDup (List.map name l) -> In s l -> Map_get (name s) l = Some s.
Proof.
  unfold Map_get. induction l as [|s0 l IH]; simpl; [tauto|].
  intros Hnd [-> | Hin].
  - unfold is_named. now rewrite String.eqb_refl.
  - apply List.NoDup_cons_iff in Hnd as [Hnotin Hnd].
    destruct (is_named (name s) s0) eqn:E; [|now apply IH].
    apply is_named_true in E. exfalso. apply Hnotin. rewrite E.
    now apply List.in_map.
Qed.

(** X1. Registering a name the registry does not hold adds a [stopped] record
    with the port of the configuration and zeroed counters, which is then
    found under that name; every other lookup is as before. *)
Theorem registerService_then_getService
  (env : Env) (n : string) (c : ServiceConfig.t) (w : World) :
  Map_get n (services w) = None ->
  exists w' s,
    registerService env n c w = (Ok tt, w')
    /\ getService n w' = (Ok (Some s), w')
    /\ s = mkService n c stopped None (ServiceConfig.port c)
             (env_now env (trace w)) None 0 0
    /\ services w' = services w ++ [s]
    /\ (forall n', n' <> n ->
          Map_get n' (services w') = Map_get n' (services w))
    /\ start_calls (trace w') = start_calls (trace w).
Proof.
  intros Hnone.
  unfold registerService, bind, services_has. rewrite Map_has_get, Hnone.
  unfold Date_now, services_set, log, emit, getService. simpl.
  eexists _, _. split; [reflexivity|]. simpl.
  unfold Map_set_new. rewrite Map_get_app, Hnone. simpl.
  unfold is_named. simpl. rewrite String.eqb_refl.
  split; [reflexivity|]. split; [reflexivity|]. split; [reflexivity|].
  split; [|reflexivity].
  intros n' Hne. rewrite Map_get_app.
  destruct (Map_get n' (services w)); [reflexivity|]. simpl.
  unfold is_named. simpl.
  apply String.eqb_neq in Hne. rewrite String.eqb_sym in Hne. now rewrite Hne.
Qed.

Lemma registerService_then_getService_witness :
  exists w' s,
    registerService obliging_env "hello-world" demo_config cold_world
    = (Ok tt, w')
    /\ getService "hello-world" w' = (Ok (Some s), w')
    /\ status s = stopped /\ port s = 3001%N.
Proof.
  destruct (registerService_then_getService obliging_env "hello-world"
              demo_config cold_world)
    as (w' & s & Hreg & Hget & -> & _).
  - reflexivity.
  - eexists w', _. split; [exact Hreg|]. split; [exact Hget|].
    split; reflexivity.
Defined.

(** X2. Registering a name again never replaces its record, whatever the
    configuration given the second time: two registrations leave the
    registry as the first one did. *)
Theorem registerService_twice_is_once
  (env : Env) (n : string) (c c' : ServiceConfig.t) (w : World) :
  let w1 := snd (registerService env n c w) in
  let w2 := snd (registerService env n c' w1) in
  fst (registerService env n c' w1) = Ok tt
  /\ services w2 = services w1
  /\ start_calls (trace w2) = start_calls (trace w1).
Proof.
  intros w1 w2.
  assert (Hheld : exists s, Map_get n (services w1) = Some s).
  { subst w1. unfold registerService, bind, services_has.
    rewrite Map_has_get.
    destruct (Map_get n (services w)) as [s|] eqn:Hget; simpl.
    - eauto.
    - unfold Map_set_new. rewrite Map_get_app, Hget. simpl.
      unfold is_named. simpl. rewrite String.eqb_refl. eauto. }
  destruct Hheld as [s Hs]. subst w2.
  unfold registerService at 1 2 3, bind, services_has.
  rewrite Map_has_get, Hs. simpl. auto.
Qed.

(** X3. No method of the process manager removes or renames a record:
    [startService], [stopService], [updateActivity] and [healthCheck] keep
    the list of names, [registerService] appends the name if it is new, and
    so names that are distinct stay distinct. *)
Theorem registry_names_are_kept
  (env : Env) (n : string) (c : ServiceConfig.t) (w : World) :
  names (snd (startService env n w)) = names w
  /\ names (snd (stopService env n w)) = names w
  /\ names (snd (updateActivity env n w)) = names w
  /\ names (snd (healthCheck env n w)) = names w
  /\ names (snd (registerService env n c w))
     = (if Map_has n (services w) then names w else names w ++ [n])
  /\ (List.NoDup (names w) -> List.NoDup (names (snd (registerService env n c w)))).
Proof.
  unfold names.
  assert (Hreg : List.map name (services (snd (registerService env n c w)))
                 = (if Map_has n (services w) then List.map name (services w)
                    else List.map name (services w) ++ [n])).
  { unfold registerService, bind, services_has.
    destruct (Map_has n (services w)); simpl; [reflexivity|].
    unfold Map_set_new. now rewrite List.map_app. }
  repeat split.
  - unfold startService, startService_sync, bind, getService.
    destruct (Map_get n (services w)) as [s|]; [|reflexivity].
    destruct (bool_decide (status s = running) || bool_decide (status s = starting));
      [reflexivity|].
    simpl. destruct (env_pm2_start env _ _); simpl;
      now rewrite !names_assign by auto with registry.
  - unfold stopService, stopService_catch, bind, getService.
    destruct (Map_get n (services w)) as [s|]; [|reflexivity].
    destruct (bool_decide (status s = stopped) || bool_decide (status s = stopping));
      [reflexivity|].
    simpl. destruct (env_pm2_stop env _ _); simpl.
    + now rewrite !names_assign by auto with registry.
    + destruct (env_pm2_delete env _ _); simpl;
        now rewrite !names_assign by auto with registry.
  - unfold updateActivity, bind, getService.
    destruct (Map_get n (services w)); simpl; [|reflexivity].
    now rewrite !names_assign by auto with registry.
  - now rewrite healthCheck_services.
  - exact Hreg.
  - intros Hnd. rewrite Hreg. rewrite Map_has_get.
    destruct (Map_get n (services w)) eqn:Hget; [exact Hnd|].
    apply NoDup_snoc; [exact Hnd|]. now apply Map_get_None_names.
Qed.

Lemma registry_names_are_kept_witness :
  List.NoDup (names (snd (registerService obliging_env "data-processor" demo_config
                       (demo_world running)))).
Proof.
  destruct (registry_names_are_kept obliging_env "data-processor" demo_config
              (demo_world running)) as (_ & _ & _ & _ & _ & Hnd).
  apply Hnd. unfold names. simpl.
  apply List.NoDup_cons; [tauto | apply List.NoDup_nil].
Defined.

(** ** The registry: starting and stopping *)

(** X4. When the supervisor accepts the start of a registered service that is
    neither [running] nor [starting], [startService] returns the record as
    the registry now holds it: [running], with a start time and a fresh
    last activity; the process id, the counters and the other records are
    as before, and exactly one start command was given. *)
Theorem startService_success
  (env : Env) (n : string) (w : World) (s : ServiceInstance) :
  Map_get n (services w) = Some s ->
  status s <> running -> status s <> starting ->
  env_pm2_start env (trace (snd (startService_sync n w))) (pm2Config_of n s)
    = None ->
  exists w' s',
    startService env n w = (Ok s', w')
    /\ Map_get n (services w') = Some s'
    /\ status s' = running
    /\ is_Some (startTime s')
    /\ lastActivity s'
       = env_now env (EvPm2Start (pm2Config_of n s) :: trace (snd (startService_sync n w)))
    /\ pid s' = pid s
    /\ requestCount s' = requestCount s
    /\ errorCount s' = errorCount s
    /\ (forall n', n' <> n ->
          Map_get n' (services w') = Map_get n' (services w))
    /\ start_calls (trace w') = pm2Config_of n s :: start_calls (trace w).
Proof.
  intros Hget Hr Hs Hok.
  rewrite (startService_sync_launches n w s Hget Hr Hs) in Hok.
  simpl in Hok.
  assert (Hname : name s = n) by (eapply Map_get_name; eauto).
  unfold startService, bind.
  rewrite (startService_sync_launches n w s Hget Hr Hs).
  unfold pm2_start. simpl. rewrite Hok.
  unfold startService_resume, bind, assign, log, emit, Date_now, deref. simpl.
  rewrite Hname.
  rewrite !Map_get_assign by auto with registry. rewrite Hget. simpl.
  eexists _, _. split; [reflexivity|]. simpl.
  repeat split; eauto.
  - now rewrite !Map_get_assign by auto with registry; rewrite Hget.
  - intros n' Hne. now rewrite !Map_get_assign_ne by auto with registry.
Qed.

Lemma startService_success_witness :
  exists w' s',
    startService obliging_env "hello-world" (demo_world error) = (Ok s', w')
    /\ status s' = running
    /\ start_calls (trace w')
       = [pm2Config_of "hello-world" (demo_service error)].
Proof.
  destruct (startService_success obliging_env "hello-world" (demo_world error)
              (demo_service error))
    as (w' & s' & H & _ & Hst & _ & _ & _ & _ & _ & _ & Hcalls).
  - reflexivity.
  - discriminate.
  - discriminate.
  - reflexivity.
  - exists w', s'. repeat split; assumption.
Defined.

(** X5. On a name the registry does not hold, [startService] and [stopService]
    raise [Service <name> not registered] and [updateActivity] returns;
    none of them changes the registry or calls the supervisor. *)
Theorem unregistered_name_is_left_alone
  (env : Env) (n : string) (w : World) :
  Map_get n (services w) = None ->
  startService env n w
  = (Raise (JsError ("Service " +:+ n +:+ " not registered")), w)
  /\ stopService env n w
     = (Raise (JsError ("Service " +:+ n +:+ " not registered")), w)
  /\ updateActivity env n w = (Ok tt, w).
Proof.
  intros Hnone.
  unfold startService, startService_sync, stopService, updateActivity, bind,
    getService.
  rewrite Hnone. auto.
Qed.

Lemma unregistered_name_is_left_alone_witness :
  startService obliging_env "unknown-service" (demo_world running)
  = (Raise (JsError "Service unknown-service not registered"),
     demo_world running).
Proof.
  destruct (unregistered_name_is_left_alone obliging_env "unknown-service"
              (demo_world running)) as (H & _ & _).
  - reflexivity.
  - exact H.
Defined.

(** X6. The probe of a service that is not registered or not [running] sends
    no request: it reports [unhealthy] with [Service not running] and a
    response time of zero, and the world is as before. *)
Theorem healthCheck_without_running_service
  (env : Env) (n : string) (w : World) :
  status <$> Map_get n (services w) <> Some running ->
  healthCheck env n w
  = (Ok (mkHealth unhealthy 0 (Some "Service not running")), w).
Proof.
  intros Hst. unfold healthCheck, bind, getService.
  destruct (Map_get n (services w)) as [s|]; [|reflexivity].
  destruct (bool_decide_reflect (status s = running)) as [Hr|Hr];
    [|reflexivity].
  exfalso. apply Hst. simpl. now rewrite Hr.
Qed.

Lemma healthCheck_without_running_service_witness :
  healthCheck failing_env "hello-world" (demo_world starting)
  = (Ok (mkHealth unhealthy 0 (Some "Service not running")),
     demo_world starting).
Proof.
  apply (healthCheck_without_running_service failing_env "hello-world"
           (demo_world starting)).
  discriminate.
Defined.

(** X7. How [startService] and [stopService] end tells the status of the
    record: after a normal return of [startService] the record is [running]
    or [starting], after one of [stopService] it is [stopped] or
    [stopping]; and when either raises, the record is absent or in
    [error]. *)
Theorem outcome_tells_status (env : Env) (n : string) (w : World) :
  (forall s w', startService env n w = (Ok s, w') ->
     Map_get n (services w') = Some s
     /\ (status s = running \/ status s = starting))
  /\ (forall e w', startService env n w = (Raise e, w') ->
        status <$> Map_get n (services w') = None
        \/ status <$> Map_get n (services w') = Some error)
  /\ (forall w', stopService env n w = (Ok tt, w') ->
        status <$> Map_get n (services w') = Some stopped
        \/ status <$> Map_get n (services w') = Some stopping)
  /\ (forall e w', stopService env n w = (Raise e, w') ->
        status <$> Map_get n (services w') = None
        \/ status <$> Map_get n (services w') = Some error).
Proof.
  split; [|split; [|split]].
  - (* startService returned *)
    intros s w' H.
    unfold startService, startService_sync, bind, getService in H.
    destruct (Map_get n (services w)) as [s0|] eqn:Hget; [|discriminate].
    destruct (bool_decide_reflect (status s0 = running)) as [Hr|Hr];
      simpl in H.
    { injection H as -> ->. auto. }
    destruct (bool_decide_reflect (status s0 = starting)) as [Hs|Hs];
      simpl in H.
    { injection H as -> ->. auto. }
    destruct (env_pm2_start env _ _); simpl in H; [discriminate|].
    injection H as <- <-. simpl.
    rewrite (Map_get_name _ _ _ Hget).
    rewrite !Map_get_assign by auto with registry. rewrite Hget. simpl. auto.
  - (* startService raised *)
    intros e w' H.
    unfold startService, startService_sync, bind, getService in H.
    destruct (Map_get n (services w)) as [s0|] eqn:Hget.
    2:{ injection H as <- <-. rewrite Hget. auto. }
    destruct (bool_decide (status s0 = running) || bool_decide (status s0 = starting));
      [discriminate|].
    simpl in H. destruct (env_pm2_start env _ _); simpl in H; [|discriminate].
    injection H as <- <-. simpl. right.
    rewrite !Map_get_assign by auto with registry. now rewrite Hget.
  - (* stopService returned *)
    intros w' H.
    unfold stopService, stopService_catch, bind, getService in H.
    destruct (Map_get n (services w)) as [s0|] eqn:Hget; [|discriminate].
    destruct (bool_decide_reflect (status s0 = stopped)) as [Hr|Hr];
      simpl in H.
    { injection H as <-. rewrite Hget. simpl. rewrite Hr. auto. }
    destruct (bool_decide_reflect (status s0 = stopping)) as [Hs|Hs];
      simpl in H.
    { injection H as <-. rewrite Hget. simpl. rewrite Hs. auto. }
    destruct (env_pm2_stop env _ _); simpl in H; [discriminate|].
    destruct (env_pm2_delete env _ _); simpl in H; [discriminate|].
    injection H as <-. simpl. left.
    rewrite !Map_get_assign by auto with registry. now rewrite Hget.
  - (* stopService raised *)
    intros e w' H.
    unfold stopService, stopService_catch, bind, getService in H.
    destruct (Map_get n (services w)) as [s0|] eqn:Hget.
    2:{ injection H as <- <-. rewrite Hget. auto. }
    destruct (bool_decide (status s0 = stopped) || bool_decide (status s0 = stopping));
      [discriminate|].
    simpl in H. right.
    destruct (env_pm2_stop env _ _); simpl in H.
    + injection H as <- <-. simpl.
      rewrite !Map_get_assign by auto with registry. now rewrite Hget.
    + destruct (env_pm2_delete env _ _); simpl in H; [|discriminate].
      injection H as <- <-. simpl.
      rewrite !Map_get_assign by auto with registry. now rewrite Hget.
Qed.

Lemma outcome_tells_status_witness :
  exists s w',
    startService obliging_env "hello-world" (demo_world stopped) = (Ok s, w')
    /\ (status s = running \/ status s = starting).
Proof.
  destruct (outcome_tells_status obliging_env "hello-world" (demo_world stopped))
    as (Hstart & _).
  eexists _, _. split; [reflexivity|].
  eapply Hstart. reflexivity.
Defined.

(** [stopService] up to its first supervisor call, for a record that is
    neither [stopped] nor [stopping]. *)
Lemma stopService_proceeds (env : Env) (n : string) (w : World)
  (s : ServiceInstance) :
  Map_get n (services w) = Some s ->
  status s <> stopped -> status s <> stopping ->
  let w1 := with_event (EvLog Info ("Stopping service " +:+ n))
              (with_services (Map_assign n (set_status stopping) (services w)) w) in
  stopService env n w
  = match env_pm2_stop env (trace w1) n with
    | Some err => stopService_catch n err (with_event (EvPm2Stop n) w1)
    | None =>
        match env_pm2_delete env (EvPm2Stop n :: trace w1) n with
        | Some err =>
            stopService_catch n err
              (with_event (EvPm2Delete n) (with_event (EvPm2Stop n) w1))
        | None =>
            (Ok tt,
             with_event (EvLog Info ("Service " +:+ n +:+ " stopped successfully"))
               (with_services
                  (Map_assign n (set_startTime None)
                     (Map_assign n (set_pid None)
                        (Map_assign n (set_status stopped)
                           (Map_assign n (set_status stopping) (services w)))))
                  (with_event (EvPm2Delete n) (with_event (EvPm2Stop n) w1))))
        end
    end.
Proof.
  intros Hget Hst Hsg w1. subst w1.
  unfold stopService, bind, getService. rewrite Hget.
  rewrite (bool_decide_eq_false_2 _ Hst), (bool_decide_eq_false_2 _ Hsg).
  simpl. destruct (env_pm2_stop env _ n); simpl; [reflexivity|].
  destruct (env_pm2_delete env _ n); reflexivity.
Qed.

(** X8. When the supervisor stops and deletes the process of a registered
    service that is neither [stopped] nor [stopping], [stopService] returns
    with the record [stopped], its process id and start time cleared, its
    counters and last activity and the other records as before; the
    supervisor was asked to stop, then to delete. *)
Theorem stopService_success
  (env : Env) (n : string) (w : World) (s : ServiceInstance) :
  Map_get n (services w) = Some s ->
  status s <> stopped -> status s <> stopping ->
  let h0 := EvLog Info ("Stopping service " +:+ n) :: trace w in
  env_pm2_stop env h0 n = None ->
  env_pm2_delete env (EvPm2Stop n :: h0) n = None ->
  exists w',
    stopService env n w = (Ok tt, w')
    /\ Map_get n (services w')
       = Some (set_startTime None (set_pid None (set_status stopped s)))
    /\ (forall n', n' <> n ->
          Map_get n' (services w') = Map_get n' (services w))
    /\ trace w' = EvLog Info ("Service " +:+ n +:+ " stopped successfully")
                    :: EvPm2Delete n :: EvPm2Stop n :: h0.
Proof.
  intros Hget Hst Hsg h0 Hstop Hdel. subst h0.
  rewrite (stopService_proceeds env n w s Hget Hst Hsg). simpl.
  rewrite Hstop, Hdel.
  eexists. split; [reflexivity|]. simpl. split; [|split].
  - rewrite !Map_get_assign by auto with registry. now rewrite Hget.
  - intros n' Hne. now rewrite !Map_get_assign_ne by auto with registry.
  - reflexivity.
Qed.

Lemma stopService_success_witness :
  exists w',
    stopService obliging_env "hello-world" (demo_world running) = (Ok tt, w')
    /\ status <$> Map_get "hello-world" (services w') = Some stopped.
Proof.
  destruct (stopService_success obliging_env "hello-world" (demo_world running)
              (demo_service running)) as (w' & H & Hget & _).
  - reflexivity.
  - discriminate.
  - discriminate.
  - reflexivity.
  - reflexivity.
  - exists w'. split; [exact H|]. now rewrite Hget.
Defined.

(** X9. When the supervisor fails to stop a registered service that is neither
    [stopped] nor [stopping], [stopService] does not go on to delete the
    process: it raises the supervisor's error and leaves the record in
    [error] with an error counter one higher.  The same holds when the
    stop succeeds and the delete fails. *)
Theorem stopService_failure
  (env : Env) (n : string) (w : World) (s : ServiceInstance) (err : Exn) :
  Map_get n (services w) = Some s ->
  status s <> stopped -> status s <> stopping ->
  let h0 := EvLog Info ("Stopping service " +:+ n) :: trace w in
  (env_pm2_stop env h0 n = Some err ->
   exists w',
     stopService env n w = (Raise err, w')
     /\ Map_get n (services w')
        = Some (set_errorCount (errorCount s + 1) (set_status error s))
     /\ trace w' = EvLog Error ("Failed to stop service " +:+ n)
                     :: EvPm2Stop n :: h0)
  /\ (env_pm2_stop env h0 n = None ->
      env_pm2_delete env (EvPm2Stop n :: h0) n = Some err ->
      exists w',
        stopService env n w = (Raise err, w')
        /\ Map_get n (services w')
           = Some (set_errorCount (errorCount s + 1) (set_status error s))
        /\ trace w' = EvLog Error ("Failed to stop service " +:+ n)
                        :: EvPm2Delete n :: EvPm2Stop n :: h0).
Proof.
  intros Hget Hst Hsg h0. subst h0.
  rewrite (stopService_proceeds env n w s Hget Hst Hsg). simpl.
  split.
  - intros ->. unfold stopService_catch, bind, assign, log, emit, throw. simpl.
    eexists. split; [reflexivity|]. simpl. split; [|reflexivity].
    rewrite !Map_get_assign by auto with registry. now rewrite Hget.
  - intros -> ->. unfold stopService_catch, bind, assign, log, emit, throw.
    simpl. eexists. split; [reflexivity|]. simpl. split; [|reflexivity].
    rewrite !Map_get_assign by auto with registry. now rewrite Hget.
Qed.

Lemma stopService_failure_witness :
  exists w',
    stopService delete_fails_env "hello-world" (demo_world running)
    = (Raise (JsError "process not found"), w')
    /\ status <$> Map_get "hello-world" (services w') = Some error.
Proof.
  destruct (stopService_failure delete_fails_env "hello-world"
              (demo_world running) (demo_service running)
              (JsError "process not found")) as (_ & Hdel).
  - reflexivity.
  - discriminate.
  - discriminate.
  - destruct Hdel as (w' & H & Hget & _); [reflexivity | reflexivity |].
    exists w'. split; [exact H|]. now rewrite Hget.
Defined.

(** X10. [updateActivity] on a registered name sets the last activity to now
    and raises the request count by one; the status, the error counter and
    every other field, the other records and the effect history stay. *)
Theorem updateActivity_touches_activity_only
  (env : Env) (n : string) (w : World) (s : ServiceInstance) :
  Map_get n (services w) = Some s ->
  exists w',
    updateActivity env n w = (Ok tt, w')
    /\ Map_get n (services w')
       = Some (set_requestCount (requestCount s + 1)
                 (set_lastActivity (env_now env (trace w)) s))
    /\ (forall n', n' <> n ->
          Map_get n' (services w') = Map_get n' (services w))
    /\ trace w' = trace w /\ conf w' = conf w.
Proof.
  intros Hget. unfold updateActivity, bind, getService. rewrite Hget.
  unfold Date_now, assign. simpl.
  eexists. split; [reflexivity|]. simpl. repeat split.
  - rewrite !Map_get_assign by auto with registry. now rewrite Hget.
  - intros n' Hne. now rewrite !Map_get_assign_ne by auto with registry.
Qed.

Lemma updateActivity_touches_activity_only_witness :
  exists w',
    updateActivity obliging_env "hello-world" (demo_world running) = (Ok tt, w')
    /\ requestCount <$> Map_get "hello-world" (services w') = Some 1
    /\ status <$> Map_get "hello-world" (services w') = Some running.
Proof.
  destruct (updateActivity_touches_activity_only obliging_env "hello-world"
              (demo_world running) (demo_service running))
    as (w' & H & Hget & _).
  - reflexivity.
  - exists w'. split; [exact H|]. now rewrite Hget.
Defined.

(** ** The options given to the supervisor *)

Lemma split_not_nil c s : Js.split c s <> [].
Proof.
  destruct s as [|a rest]; simpl; [discriminate|].
  destruct (Ascii.eqb a c); [discriminate|].
  destruct (Js.split c rest); discriminate.
Qed.

(** Joining what [split] gives, with the separator, gives the string
    back. *)
Lemma join_split c s : Js.join (String c EmptyString) (Js.split c s) = s.
Proof.
  unfold Js.join. induction s as [|a rest IH]; simpl; [reflexivity|].
  pose proof (split_not_nil c rest) as Hnn.
  destruct (Ascii.eqb_spec a c) as [->|Hne].
  - destruct (Js.split c rest) as [|seg segs]; [contradiction|].
    simpl in *. now rewrite IH.
  - destruct (Js.split c rest) as [|seg segs]; [contradiction|].
    simpl in *. destruct segs as [|seg' segs].
    + now rewrite IH.
    + simpl. now rewrite <- IH.
Qed.

(** The pieces [split] gives do not hold the separator. *)
Lemma split_no_separator c s seg :
  In seg (Js.split c s) -> has_char c seg = false.
Proof.
  revert seg. induction s as [|a rest IH]; simpl; intros seg Hin.
  - destruct Hin as [<- | []]. reflexivity.
  - pose proof (split_not_nil c rest) as Hnn.
    destruct (Ascii.eqb_spec a c) as [->|Hne].
    + destruct Hin as [<- | Hin]; [reflexivity | now apply IH].
    + destruct (Js.split c rest) as [|seg0 segs]; [contradiction|].
      destruct Hin as [<- | Hin].
      * simpl. apply Ascii.eqb_neq in Hne. rewrite Hne. simpl.
        apply IH. now left.
      * apply IH. now right.
Qed.

(** X11. The script and the arguments [startService] gives the supervisor are
    the words of the configured command: joined with single spaces they
    give the command back, and none of them holds a space.  The start is
    named after the service. *)
Theorem start_command_round_trip (n : string) (s : ServiceInstance) :
  let c := pm2Config_of n s in
  Js.join " " (pm_script c :: pm_args c) = ServiceConfig.command (config s)
  /\ has_char " " (pm_script c) = false
  /\ (forall a, In a (pm_args c) -> has_char " " a = false)
  /\ pm_name c = n.
Proof.
  intros c. subst c. unfold pm2Config_of. simpl.
  pose proof (join_split " " (ServiceConfig.command (config s))) as Hjoin.
  pose proof (split_no_separator " " (ServiceConfig.command (config s))) as Hsep.
  destruct (Js.split " " (ServiceConfig.command (config s))) as [|word words]
    eqn:Hsplit.
  { exfalso. eapply split_not_nil, Hsplit. }
  simpl. repeat split.
  - exact Hjoin.
  - apply Hsep. now left.
  - intros a Hin. apply Hsep. now right.
Qed.

(** X12. The environment of the started process holds [PORT]: the entry of that
    name in the configured environment if there is one, the configured port
    in decimal otherwise.  Every other entry of the configured environment
    is passed on, and nothing else is. *)
Theorem start_environment (n : string) (s : ServiceInstance) :
  let env_in := ServiceConfig.env (config s) in
  let env_out := pm_env (pm2Config_of n s) in
  env_out !! "PORT"
  = Some (default (Js.toString (ServiceConfig.port (config s)))
            (env_in !! "PORT"))
  /\ forall k, k <> "PORT" -> env_out !! k = env_in !! k.
Proof.
  intros env_in env_out. subst env_in env_out. unfold pm2Config_of. simpl.
  split.
  - rewrite lookup_union, lookup_singleton_eq.
    destruct (ServiceConfig.env (config s) !! "PORT"); reflexivity.
  - intros k Hne. rewrite lookup_union, lookup_singleton_ne by congruence.
    destruct (ServiceConfig.env (config s) !! k); reflexivity.
Qed.

(** ** The statistics of the activity monitor *)

Lemma fold_left_total (f : ServiceInstance -> Z) (l : list ServiceInstance)
  (a : Z) :
  List.fold_left (fun sum s => sum + f s) l a = a + total f l.
Proof.
  revert a. induction l as [|s l IH]; intros a; simpl; [lia|].
  rewrite IH. lia.
Qed.

Lemma count_status_cons st s l :
  ActivityMonitor.count_status st (s :: l)
  = (if bool_decide (status s = st) then 1 else 0)
    + ActivityMonitor.count_status st l.
Proof.
  unfold ActivityMonitor.count_status. simpl.
  destruct (bool_decide (status s = st)); simpl; lia.
Qed.

(** X13. [getStats] changes nothing, and of the counts it gives, those of the
    [running], [stopped] and [error] services add up to the total less the
    services that are [starting] or [stopping]; the request and error
    totals are the sums of the counters. *)
Theorem getStats_counts (w : World) :
  exists st,
    ActivityMonitor.getStats w = (Ok st, w)
    /\ ActivityMonitor.totalServices st = Z.of_nat (List.length (services w))
    /\ ActivityMonitor.runningServices st + ActivityMonitor.stoppedServices st
       + ActivityMonitor.errorServices st
       = ActivityMonitor.totalServices st
         - ActivityMonitor.count_status starting (services w)
         - ActivityMonitor.count_status stopping (services w)
    /\ ActivityMonitor.totalRequests st = total requestCount (services w)
    /\ ActivityMonitor.totalErrors st = total errorCount (services w).
Proof.
  unfold ActivityMonitor.getStats, bind, getAllServices, ret. simpl.
  eexists. split; [reflexivity|]. simpl.
  rewrite !fold_left_total. repeat split; try lia.
  induction (services w) as [|s l IH]; [reflexivity|].
  rewrite !count_status_cons. simpl List.length.
  rewrite Nat2Z.inj_succ.
  destruct (status s); simpl; lia.
Qed.

Lemma count_status_assign st n g l :
  keeps_status g ->
  ActivityMonitor.count_status st (Map_assign n g l)
  = ActivityMonitor.count_status st l.
Proof.
  intros Hg. induction l as [|s l IH]; [reflexivity|].
  unfold Map_assign in *. simpl List.map. rewrite !count_status_cons, IH.
  destruct (is_named n s); now rewrite ?Hg.
Qed.

Lemma total_assign (f : ServiceInstance -> Z) n g l s :
  keeps_name g ->
  List.NoDup (List.map name l) -> Map_get n l = Some s ->
  total f (Map_assign n g l) = total f l - f s + f (g s).
Proof.
  intros Hg. unfold Map_get, Map_assign.
  induction l as [|s0 l IH]; simpl; [discriminate|].
  intros Hnd Hget. apply List.NoDup_cons_iff in Hnd as [Hnotin Hnd].
  destruct (is_named n s0) eqn:E.
  - injection Hget as ->.
    assert (Hrest : List.map (fun s1 => if is_named n s1 then g s1 else s1) l = l).
    { rewrite <- (List.map_id l) at 2. apply List.map_ext_in.
      intros s1 Hin. destruct (is_named n s1) eqn:E1; [|reflexivity].
      exfalso. apply Hnotin. apply is_named_true in E, E1. rewrite E, <- E1.
      now apply List.in_map. }
    rewrite Hrest. lia.
  - rewrite IH by assumption. lia.
Qed.

(** X14. Each [updateActivity] on a registered name raises the request total of
    [getStats] by exactly one and leaves its other figures alone, when the
    names of the registry are distinct, as [registerService] keeps them. *)
Theorem updateActivity_counts_one_request
  (env : Env) (n : string) (w : World) (s : ServiceInstance) :
  List.NoDup (names w) ->
  Map_get n (services w) = Some s ->
  exists st st',
    fst (ActivityMonitor.getStats w) = Ok st
    /\ fst (ActivityMonitor.getStats (snd (updateActivity env n w))) = Ok st'
    /\ ActivityMonitor.totalRequests st' = ActivityMonitor.totalRequests st + 1
    /\ ActivityMonitor.totalErrors st' = ActivityMonitor.totalErrors st
    /\ ActivityMonitor.totalServices st' = ActivityMonitor.totalServices st
    /\ ActivityMonitor.runningServices st' = ActivityMonitor.runningServices st.
Proof.
  intros Hnd Hget. unfold names in Hnd.
  unfold updateActivity, bind, getService. rewrite Hget.
  unfold ActivityMonitor.getStats, bind, getAllServices, ret, Date_now, assign.
  simpl. eexists _, _. split; [reflexivity|]. split; [reflexivity|]. simpl.
  rewrite !fold_left_total.
  set (t := env_now env (trace w)).
  assert (Hget1 : Map_get n (Map_assign n (set_lastActivity t) (services w))
                  = Some (set_lastActivity t s)).
  { rewrite Map_get_assign by auto with registry. now rewrite Hget. }
  assert (Hnd1 : List.NoDup (List.map name
                               (Map_assign n (set_lastActivity t) (services w)))).
  { now rewrite names_assign by auto with registry. }
  repeat split.
  - rewrite (total_assign requestCount n incr_requestCount _ _
               keeps_name_incr_requestCount Hnd1 Hget1).
    rewrite (total_assign requestCount n (set_lastActivity t) _ _
               (keeps_name_set_lastActivity t) Hnd Hget).
    simpl. lia.
  - rewrite (total_assign errorCount n incr_requestCount _ _
               keeps_name_incr_requestCount Hnd1 Hget1).
    rewrite (total_assign errorCount n (set_lastActivity t) _ _
               (keeps_name_set_lastActivity t) Hnd Hget).
    simpl. lia.
  - unfold Map_assign. now rewrite !List.length_map.
  - now rewrite !count_status_assign by auto with registry.
Qed.

Lemma updateActivity_counts_one_request_witness :
  exists st st',
    fst (ActivityMonitor.getStats (demo_world running)) = Ok st
    /\ fst (ActivityMonitor.getStats
              (snd (updateActivity obliging_env "hello-world"
                      (demo_world running)))) = Ok st'
    /\ ActivityMonitor.totalRequests st' = ActivityMonitor.totalRequests st + 1.
Proof.
  destruct (updateActivity_counts_one_request obliging_env "hello-world"
              (demo_world running) (demo_service running))
    as (st & st' & H1 & H2 & H3 & _).
  - unfold names. simpl. apply List.NoDup_cons; [tauto | apply List.NoDup_nil].
  - reflexivity.
  - exists st, st'. auto.
Defined.

(** ** The cleanup loop of the activity monitor *)

(** A date is earlier than [new Date(value)] when the latter is valid and
    its time value is larger. *)
Lemma Date_lt_new (a value : Z) :
  Date_lt a (Date_new value) = true <-> Z.abs value <= Date_max /\ a < value.
Proof.
  unfold Date_lt, Date_new.
  destruct (Z.leb_spec (Z.abs value) Date_max); [rewrite Z.ltb_lt|];
    intuition (discriminate || lia).
Qed.

Lemma Map_get_filter_None n q l :
  Map_get n l = None -> Map_get n (List.filter q l) = None.
Proof.
  unfold Map_get. induction l as [|s l IH]; simpl; [reflexivity|].
  destruct (is_named n s) eqn:E; [discriminate|]. intros H.
  destruct (q s); simpl; [rewrite E|]; auto.
Qed.

Lemma Map_get_filter_Some n q l s :
  Map_get n l = Some s -> q s = true -> Map_get n (List.filter q l) = Some s.
Proof.
  unfold Map_get. induction l as [|s0 l IH]; simpl; [discriminate|].
  destruct (is_named n s0) eqn:E.
  - intros [= ->] Hq. rewrite Hq. simpl. now rewrite E.
  - intros H Hq. destruct (q s0); simpl; [rewrite E|]; auto.
Qed.

Lemma Map_get_filter_rejected n q l s :
  List.NoDup (List.map name l) ->
  Map_get n l = Some s -> q s = false -> Map_get n (List.filter q l) = None.
Proof.
  unfold Map_get. induction l as [|s0 l IH]; simpl; [discriminate|].
  intros Hnd. apply List.NoDup_cons_iff in Hnd as [Hnotin Hnd].
  destruct (is_named n s0) eqn:E.
  - intros [= ->] Hq. rewrite Hq.
    apply Map_get_filter_None. apply Map_get_None_names.
    apply is_named_true in E. now rewrite <- E.
  - intros H Hq. destruct (q s0); simpl; [rewrite E|]; auto.
Qed.

(** What [stopService] leaves alone, however it ends. *)
Lemma stopService_frame (env : Env) (k : string) (w : World) :
  exists o w',
    stopService env k w = (o, w')
    /\ conf w' = conf w
    /\ start_calls (trace w') = start_calls (trace w)
    /\ fetch_calls (trace w') = fetch_calls (trace w)
    /\ names w' = names w
    /\ (forall n, n <> k -> Map_get n (services w') = Map_get n (services w)).
Proof.
  unfold stopService, stopService_catch, bind, getService, names.
  destruct (Map_get k (services w)) as [s|]; [|eexists _, _; repeat split].
  destruct (bool_decide (status s = stopped) || bool_decide (status s = stopping));
    [eexists _, _; repeat split|].
  simpl. destruct (env_pm2_stop env _ _); simpl.
  - eexists _, _. split; [reflexivity|]. simpl. repeat split.
    + now rewrite !names_assign by auto with registry.
    + intros n Hne. now rewrite !Map_get_assign_ne by auto with registry.
  - destruct (env_pm2_delete env _ _); simpl;
      (eexists _, _; split; [reflexivity|]; simpl; repeat split;
       [ now rewrite !names_assign by auto with registry
       | intros n Hne; now rewrite !Map_get_assign_ne by auto with registry ]).
Qed.

(** One turn of the cleanup loop, for a record whose name holds a record
    that is not [running] now, or none: nothing happens. *)
Lemma cleanup_one_not_running (env : Env) (cfg : Config.t)
  (s : ServiceInstance) (w : World) :
  status_of (name s) w <> Some running ->
  ActivityMonitor.cleanup_one env cfg s w = (Ok tt, w).
Proof.
  unfold status_of. intros Hst.
  unfold ActivityMonitor.cleanup_one, bind, deref.
  destruct (Map_get (name s) (services w)) as [s1|] eqn:Hget; simpl.
  - destruct (bool_decide_reflect (status s1 = running)) as [Hr|Hr]; simpl;
      [|reflexivity].
    exfalso. apply Hst. simpl. now rewrite Hr.
  - destruct (bool_decide (status s = running)); simpl; [|reflexivity].
    unfold getInactiveServices, bind, Date_now, getAllServices, ret. simpl.
    change (fun s0 => String.eqb (name s0) (name s)) with (is_named (name s)).
    match goal with
    | |- context [List.find (is_named (name s)) (List.filter ?q (services w))] =>
        change (List.find (is_named (name s)) (List.filter q (services w)))
          with (Map_get (name s) (List.filter q (services w)))
    end.
    now rewrite Map_get_filter_None.
Qed.

(** One turn of the cleanup loop never raises, never starts a service and
    never sends a request, and changes no record under another name. *)
Lemma cleanup_one_frame (env : Env) (cfg : Config.t) (s : ServiceInstance)
  (w : World) :
  exists w',
    ActivityMonitor.cleanup_one env cfg s w = (Ok tt, w')
    /\ conf w' = conf w
    /\ start_calls (trace w') = start_calls (trace w)
    /\ fetch_calls (trace w') = fetch_calls (trace w)
    /\ names w' = names w
    /\ (forall n, n <> name s ->
          Map_get n (services w') = Map_get n (services w)).
Proof.
  destruct (decide (status_of (name s) w = Some running)) as [Hrun|Hrun].
  2:{ exists w. rewrite cleanup_one_not_running by assumption.
      repeat split. }
  unfold status_of in Hrun.
  unfold ActivityMonitor.cleanup_one, bind, deref.
  destruct (Map_get (name s) (services w)) as [s1|] eqn:Hget; [|discriminate].
  simpl in Hrun. injection Hrun as Hrun. simpl.
  rewrite (bool_decide_eq_true_2 _ Hrun). simpl.
  unfold getInactiveServices, bind, Date_now, getAllServices, ret. simpl.
  destruct (List.find _ _).
  2:{ exists w. repeat split. }
  unfold log, emit, try_catch. simpl.
  assert (Hname : name s1 = name s) by (eapply Map_get_name; eauto).
  rewrite Hname.
  destruct (stopService_frame env (name s)
              (with_event (EvLog Info ("Stopping inactive service " +:+ name s)) w))
    as (o & w' & -> & Hconf & Hstart & Hfetch & Hnames & Hother).
  destruct o as [[]|e]; simpl.
  - exists w'. repeat split; assumption.
  - eexists. split; [reflexivity|]. simpl. repeat split; assumption.
Qed.

(** The loop over the records, from any world. *)
Lemma cleanup_loop_frame (env : Env) (cfg : Config.t)
  (l : list ServiceInstance) (w : World) :
  exists w',
    for_each (ActivityMonitor.cleanup_one env cfg) l w = (Ok tt, w')
    /\ conf w' = conf w
    /\ start_calls (trace w') = start_calls (trace w)
    /\ fetch_calls (trace w') = fetch_calls (trace w)
    /\ names w' = names w
    /\ (forall n, status_of n w <> Some running ->
          Map_get n (services w') = Map_get n (services w)).
Proof.
  revert w. induction l as [|s l IH]; intros w; simpl.
  { exists w. repeat split. }
  unfold bind.
  destruct (cleanup_one_frame env cfg s w)
    as (w1 & H1 & Hconf1 & Hstart1 & Hfetch1 & Hnames1 & Hother1).
  rewrite H1.
  destruct (IH w1) as (w' & H & Hconf & Hstart & Hfetch & Hnames & Hidle).
  exists w'. split; [exact H|].
  repeat split; try congruence.
  intros n Hn.
  assert (Hsame : Map_get n (services w1) = Map_get n (services w)).
  { destruct (String.eqb_spec n (name s)) as [->|Hne].
    - rewrite cleanup_one_not_running in H1 by assumption.
      now injection H1 as <-.
    - now apply Hother1. }
  rewrite Hidle; [exact Hsame|].
  unfold status_of in *. now rewrite Hsame.
Qed.

(** X15. The cleanup loop never raises, whatever the supervisor answers; it
    never starts a service and never sends a request; it removes no record;
    and every record that is not [running] when the loop begins is exactly
    as it was when the loop ends. *)
Theorem performCleanup_is_safe (env : Env) (w : World) :
  exists w',
    ActivityMonitor.performCleanup env w = (Ok tt, w')
    /\ start_calls (trace w') = start_calls (trace w)
    /\ fetch_calls (trace w') = fetch_calls (trace w)
    /\ names w' = names w
    /\ forall n,
         status <$> Map_get n (services w) <> Some running ->
         Map_get n (services w') = Map_get n (services w).
Proof.
  unfold ActivityMonitor.performCleanup, bind, ActivityMonitor.getConfig,
    getAllServices.
  simpl.
  destruct (cleanup_loop_frame env (conf w) (services w)
              (with_event EvGetConfig w))
    as (w' & H & _ & Hstart & Hfetch & Hnames & Hidle).
  exists w'. split; [exact H|].
  split; [exact Hstart|]. split; [exact Hfetch|]. split; [exact Hnames|].
  intros n Hn. now apply Hidle.
Qed.

Lemma performCleanup_is_safe_witness :
  exists w',
    ActivityMonitor.performCleanup failing_env (demo_world error) = (Ok tt, w')
    /\ Map_get "hello-world" (services w') = Some (demo_service error).
Proof.
  destruct (performCleanup_is_safe failing_env (demo_world error))
    as (w' & H & _ & _ & _ & Hidle).
  exists w'. split; [exact H|]. rewrite Hidle; [reflexivity | discriminate].
Defined.

Lemma for_each_fixed {A} (f : A -> M unit) (l : list A) (w : World) :
  (forall x, In x l -> f x w = (Ok tt, w)) -> for_each f l w = (Ok tt, w).
Proof.
  induction l as [|x l IH]; intros Hall; simpl; [reflexivity|].
  unfold bind. rewrite (Hall x (or_introl eq_refl)).
  apply IH. intros y Hin. apply Hall. now right.
Qed.

(** X16. No early eviction: when the names of the registry are distinct and no
    running service has been idle for longer than its timeout (its own, or
    the default one when its own is 0), the cleanup loop reads the
    configuration and does nothing else: no record changes and the
    supervisor is not called. *)
Theorem performCleanup_spares_active (env : Env) (w : World) :
  List.NoDup (names w) ->
  (forall s, In s (services w) -> status s = running ->
     env_now env (EvGetConfig :: trace w) - lastActivity s
     <= cleanup_timeout_of (conf w) s) ->
  ActivityMonitor.performCleanup env w = (Ok tt, with_event EvGetConfig w).
Proof.
  intros Hnd Hactive.
  unfold ActivityMonitor.performCleanup, bind, ActivityMonitor.getConfig,
    getAllServices.
  simpl. apply for_each_fixed. intros s Hin.
  unfold ActivityMonitor.cleanup_one, bind, deref. simpl.
  rewrite (Map_get_of_In _ _ Hnd Hin). simpl.
  destruct (bool_decide_reflect (status s = running)) as [Hr|Hr]; simpl;
    [|reflexivity].
  unfold getInactiveServices, bind, Date_now, getAllServices, ret. simpl.
  change (fun s0 => String.eqb (name s0) (name s)) with (is_named (name s)).
  match goal with
  | |- context [List.find (is_named (name s)) (List.filter ?q (services w))] =>
      change (List.find (is_named (name s)) (List.filter q (services w)))
        with (Map_get (name s) (List.filter q (services w)));
      rewrite (Map_get_filter_rejected (name s) q (services w) s Hnd
                 (Map_get_of_In _ _ Hnd Hin))
  end; [reflexivity|].
  rewrite (bool_decide_eq_true_2 _ Hr). simpl.
  apply not_true_is_false. rewrite Date_lt_new.
  specialize (Hactive s Hin Hr).
  unfold cleanup_timeout_of in Hactive. lia.
Qed.

Lemma performCleanup_spares_active_witness :
  ActivityMonitor.performCleanup failing_env (demo_world running)
  = (Ok tt, with_event EvGetConfig (demo_world running)).
Proof.
  apply (performCleanup_spares_active failing_env (demo_world running)).
  - unfold names. simpl. apply List.NoDup_cons; [tauto | apply List.NoDup_nil].
  - intros s [<- | []] _. vm_compute. discriminate.
Defined.

(** One turn of the cleanup loop for a name other than [n] leaves the
    record of [n] alone. *)
Lemma cleanup_one_other (env : Env) (cfg : Config.t) (s0 : ServiceInstance)
  (w : World) (n : string) :
  name s0 <> n ->
  Map_get n (services (snd (ActivityMonitor.cleanup_one env cfg s0 w)))
  = Map_get n (services w)
  /\ conf (snd (ActivityMonitor.cleanup_one env cfg s0 w)) = conf w.
Proof.
  intros Hne.
  destruct (cleanup_one_frame env cfg s0 w)
    as (w' & -> & Hconf & _ & _ & _ & Hother).
  simpl. split; [apply Hother; congruence | exact Hconf].
Qed.

(** One turn of the cleanup loop for the name of a running record that has
    been idle for longer than its timeout, with a supervisor that stops and
    deletes. *)
Lemma cleanup_one_evicts (env : Env) (s0 s : ServiceInstance) (w : World) :
  Map_get (name s0) (services w) = Some s ->
  status s = running ->
  (forall h, Z.abs (env_now env h - cleanup_timeout_of (conf w) s) <= Date_max) ->
  (forall h, env_now env h - lastActivity s > cleanup_timeout_of (conf w) s) ->
  (forall h, env_pm2_stop env h (name s0) = None) ->
  (forall h, env_pm2_delete env h (name s0) = None) ->
  exists w',
    ActivityMonitor.cleanup_one env (conf w) s0 w = (Ok tt, w')
    /\ conf w' = conf w
    /\ Map_get (name s0) (services w')
       = Some (set_startTime None (set_pid None (set_status stopped s))).
Proof.
  intros Hget Hrun Hrange Hidle Hstop Hdel.
  assert (Hname : name s = name s0) by (eapply Map_get_name; eauto).
  unfold ActivityMonitor.cleanup_one, bind, deref. rewrite Hget. simpl.
  rewrite (bool_decide_eq_true_2 _ Hrun). simpl.
  unfold getInactiveServices, bind, Date_now, getAllServices, ret. simpl.
  change (fun s1 => String.eqb (name s1) (name s)) with (is_named (name s)).
  match goal with
  | |- context [List.find (is_named (name s)) (List.filter ?q (services w))] =>
      change (List.find (is_named (name s)) (List.filter q (services w)))
        with (Map_get (name s) (List.filter q (services w)));
      rewrite (Map_get_filter_Some (name s) q (services w) s)
  end.
  - unfold log, emit, try_catch. simpl. rewrite Hname.
    set (w1 := with_event
                 (EvLog Info ("Stopping inactive service " +:+ name s0)) w).
    assert (Hget1 : Map_get (name s0) (services w1) = Some s) by exact Hget.
    rewrite (stopService_proceeds env (name s0) w1 s Hget1)
      by (rewrite Hrun; discriminate).
    simpl. rewrite Hstop, Hdel. simpl.
    eexists. split; [reflexivity|]. split; [reflexivity|]. simpl.
    rewrite !Map_get_assign by auto with registry. now rewrite Hget.
  - now rewrite Hname.
  - rewrite (bool_decide_eq_true_2 _ Hrun). simpl.
    apply Date_lt_new.
    specialize (Hidle (trace w)). specialize (Hrange (trace w)).
    unfold cleanup_timeout_of in Hidle, Hrange. lia.
Qed.

(** The cleanup loop from any point on: the turn for the name of the idle
    record stops it, the turns before leave it alone, and the turns after
    find it [stopped]. *)
Lemma cleanup_loop_evicts (env : Env) (cfg : Config.t) (n : string)
  (s : ServiceInstance) (l : list ServiceInstance) (w : World) :
  conf w = cfg ->
  Map_get n (services w) = Some s ->
  status s = running ->
  (forall h, Z.abs (env_now env h - cleanup_timeout_of cfg s) <= Date_max) ->
  (forall h, env_now env h - lastActivity s > cleanup_timeout_of cfg s) ->
  (forall h, env_pm2_stop env h n = None) ->
  (forall h, env_pm2_delete env h n = None) ->
  In n (List.map name l) ->
  Map_get n (services (snd (for_each (ActivityMonitor.cleanup_one env cfg) l w)))
  = Some (set_startTime None (set_pid None (set_status stopped s))).
Proof.
  intros Hcfg Hget Hrun Hrange Hidle Hstop Hdel. revert w Hcfg Hget.
  induction l as [|s0 l IH]; intros w Hcfg Hget Hin; simpl in *; [tauto|].
  unfold bind.
  destruct (String.eqb_spec (name s0) n) as [Heq|Hne].
  - subst n cfg.
    destruct (cleanup_one_evicts env s0 s w Hget Hrun Hrange Hidle Hstop Hdel)
      as (w1 & -> & Hconf & Hget1).
    destruct (cleanup_loop_frame env (conf w) l w1)
      as (w' & -> & _ & _ & _ & _ & Hrest).
    simpl. rewrite Hrest; [exact Hget1|].
    unfold status_of. rewrite Hget1. discriminate.
  - destruct (cleanup_one_other env cfg s0 w n Hne) as [Hsame Hconf].
    destruct (cleanup_one_frame env cfg s0 w) as (w1 & Heq1 & _).
    rewrite Heq1 in *. simpl in Hsame, Hconf.
    apply IH; [congruence | congruence | tauto].
Qed.

Lemma performCleanup_frame_only (env : Env) (w : World) :
  exists w', ActivityMonitor.performCleanup env w = (Ok tt, w').
Proof.
  unfold ActivityMonitor.performCleanup, bind, ActivityMonitor.getConfig,
    getAllServices.
  simpl.
  destruct (cleanup_loop_frame env (conf w) (services w)
              (with_event EvGetConfig w)) as (w' & H & _).
  eauto.
Qed.

(** X17. Eviction, for a timeout that is a whole number of milliseconds (the
    service's own, or the default one when its own is 0): when the
    supervisor stops and deletes on request, a running service that has
    been idle for longer than its timeout, whenever the clock is read, with
    a cutoff time [now - timeout] that a [Date] can hold, is [stopped] by
    the cleanup loop, with its process id and start time cleared. *)
Theorem performCleanup_evicts_idle
  (env : Env) (w : World) (n : string) (s : ServiceInstance) :
  Map_get n (services w) = Some s ->
  status s = running ->
  (forall h, Z.abs (env_now env h - cleanup_timeout_of (conf w) s) <= Date_max) ->
  (forall h, env_now env h - lastActivity s > cleanup_timeout_of (conf w) s) ->
  (forall h, env_pm2_stop env h n = None) ->
  (forall h, env_pm2_delete env h n = None) ->
  exists w',
    ActivityMonitor.performCleanup env w = (Ok tt, w')
    /\ Map_get n (services w')
       = Some (set_startTime None (set_pid None (set_status stopped s))).
Proof.
  intros Hget Hrun Hrange Hidle Hstop Hdel.
  destruct (performCleanup_frame_only env w) as (w' & Heq).
  exists w'. split; [exact Heq|].
  unfold ActivityMonitor.performCleanup, bind, ActivityMonitor.getConfig,
    getAllServices in Heq.
  simpl in Heq.
  pose proof (cleanup_loop_evicts env (conf w) n s (services w)
                (with_event EvGetConfig w) eq_refl Hget Hrun Hrange Hidle Hstop
                Hdel)
    as Hloop.
  rewrite Heq in Hloop. apply Hloop.
  apply List.in_map_iff. exists s. split.
  - eapply Map_get_name; eauto.
  - eapply Map_get_In; eauto.
Qed.

Lemma performCleanup_evicts_idle_witness :
  exists w',
    ActivityMonitor.performCleanup steady_env (demo_world running)
    = (Ok tt, w')
    /\ status <$> Map_get "hello-world" (services w') = Some stopped.
Proof.
  destruct (performCleanup_evicts_idle steady_env (demo_world running)
              "hello-world" (demo_service running))
    as (w' & H & Hget).
  - reflexivity.
  - reflexivity.
  - intros h. vm_compute. discriminate.
  - intros h. vm_compute. reflexivity.
  - reflexivity.
  - reflexivity.
  - exists w'. split; [exact H|]. now rewrite Hget.
Defined.

(** ** The health loop: which services are probed *)

Lemma Map_get_forget_errors n l :
  Map_get n (List.map forget_errors l) = forget_errors <$> Map_get n l.
Proof.
  unfold Map_get. induction l as [|s l IH]; simpl; [reflexivity|].
  change (is_named n (forget_errors s)) with (is_named n s).
  destruct (is_named n s); [reflexivity | exact IH].
Qed.

(** One task of the health loop, for a name whose record is [running]: one
    request, the probe of that record, and no rejection. *)
Lemma health_task_probe (env : Env) (s s1 : ServiceInstance) (w : World) :
  Map_get (name s) (services w) = Some s1 -> status s1 = running ->
  exists w',
    ActivityMonitor.health_task env s w = (Ok tt, w')
    /\ fetch_calls (trace w') = health_request s1 :: fetch_calls (trace w)
    /\ start_calls (trace w') = start_calls (trace w).
Proof.
  intros Hget Hrun.
  destruct (healthCheck_running env (name s) w s1 Hget Hrun) as (r & Heq & _).
  unfold ActivityMonitor.health_task, try_catch, bind. rewrite Heq.
  destruct (bool_decide (h_status r = healthy)); simpl;
    eexists; (split; [reflexivity|]); split; reflexivity.
Qed.

Lemma health_loop_probes (env : Env) (w0 : World)
  (l : list ServiceInstance) (w : World) :
  List.NoDup (names w0) ->
  (forall s, In s l -> In s (services w0) /\ status s = running) ->
  List.map forget_errors (services w) = List.map forget_errors (services w0) ->
  exists w',
    Promise_all (List.map (ActivityMonitor.health_task env) l) w = (Ok tt, w')
    /\ fetch_calls (trace w')
       = List.rev (List.map health_request l) ++ fetch_calls (trace w)
    /\ start_calls (trace w') = start_calls (trace w).
Proof.
  intros Hnd. revert w. induction l as [|s l IH]; intros w Hl Hsame; simpl.
  { exists w. repeat split. }
  destruct (Hl s (or_introl eq_refl)) as [Hin Hrun].
  assert (Hget : exists s1, Map_get (name s) (services w) = Some s1
                            /\ forget_errors s1 = forget_errors s).
  { pose proof (Map_get_forget_errors (name s) (services w)) as H1.
    rewrite Hsame, Map_get_forget_errors in H1.
    rewrite (Map_get_of_In _ _ Hnd Hin) in H1. simpl in H1.
    destruct (Map_get (name s) (services w)) as [s1|]; [|discriminate].
    exists s1. split; [reflexivity|]. simpl in H1. congruence. }
  destruct Hget as (s1 & Hget & Hforget).
  assert (Hrun1 : status s1 = running).
  { apply (f_equal status) in Hforget. simpl in Hforget. congruence. }
  assert (Hreq : health_request s1 = health_request s).
  { unfold health_request.
    pose proof (f_equal port Hforget) as Hp.
    pose proof (f_equal config Hforget) as Hc.
    simpl in Hp, Hc. now rewrite Hp, Hc. }
  destruct (health_task_probe env s s1 w Hget Hrun1)
    as (w1 & Heq & Hfetch & Hstart).
  rewrite Heq.
  destruct (IH w1) as (w' & Heq' & Hfetch' & Hstart').
  - intros s' Hin'. apply Hl. now right.
  - rewrite <- Hsame.
    pose proof (health_task_frame env s w) as Hframe.
    now rewrite Heq in Hframe.
  - exists w'. split; [exact Heq'|]. split.
    + rewrite Hfetch', Hfetch, Hreq. now rewrite <- List.app_assoc.
    + congruence.
Qed.

(** X18. With distinct names in the registry, the health loop never raises,
    whatever the network answers, and it sends exactly one request for each
    record that is [running] when it begins, in the order of the registry:
    the GET of its health path on its port.  It gives the supervisor no
    start command. *)
Theorem performHealthChecks_probes_running (env : Env) (w : World) :
  List.NoDup (names w) ->
  exists w',
    ActivityMonitor.performHealthChecks env w = (Ok tt, w')
    /\ fetch_calls (trace w')
       = List.rev
           (List.map health_request
              (List.filter (fun s => bool_decide (status s = running))
                 (services w)))
         ++ fetch_calls (trace w)
    /\ start_calls (trace w') = start_calls (trace w).
Proof.
  intros Hnd.
  unfold ActivityMonitor.performHealthChecks, bind, getAllServices. simpl.
  apply (health_loop_probes env w); auto.
  intros s Hin. apply List.filter_In in Hin as [Hin Hrun].
  split; [exact Hin|]. now apply bool_decide_eq_true in Hrun.
Qed.

Lemma performHealthChecks_probes_running_witness :
  exists w',
    ActivityMonitor.performHealthChecks failing_env (demo_world running)
    = (Ok tt, w')
    /\ List.map f_url (fetch_calls (trace w'))
       = ["http://localhost:3001/health"].
Proof.
  destruct (performHealthChecks_probes_running failing_env (demo_world running))
    as (w' & H & Hfetch & _).
  - unfold names. simpl. apply List.NoDup_cons; [tauto | apply List.NoDup_nil].
  - exists w'. split; [exact H|]. now rewrite Hfetch.
Defined.

(** ** The router: paths *)

Lemma segments_of_slashes proto k query :
  segments_of (mkURL proto (slashes k) query) = [].
Proof.
  unfold segments_of. simpl. induction k as [|k IH]; simpl; [reflexivity|].
  exact IH.
Qed.

(** X19. A request whose path is empty or made of slashes only names no service:
    it is answered 404 [Service not specified] and nothing else happens. *)
Theorem no_service_name_gets_404
  (env : Env) (w : World) (k : nat) (proto query method : string)
  (headers : Headers.t) (body : option string) :
  handleRequest env
    (mkRequest (mkURL proto (slashes k) query) method headers body) w
  = (Ok (error_response 404 "Service not specified"), w)
  /\ r_status (error_response 404 "Service not specified") = 404%N.
Proof.
  split; [|reflexivity].
  unfold handleRequest, try_catch, bind. cbn [q_url].
  now rewrite segments_of_slashes.
Qed.








(** ** The router: what comes back *)

(** The constructor of [Response] either returns or raises an [Error]; it
    changes nothing. *)
Lemma Response_new_outcome (body : option string) (code : N)
  (statusText : string) (headers : Headers.t) (w : World) :
  (exists r, Response_new body code statusText headers w = (Ok r, w))
  \/ (exists msg,
        Response_new body code statusText headers w = (Raise (JsError msg), w)).
Proof.
  unfold Response_new, throw, ret.
  repeat match goal with
         | |- context [if ?b then _ else _] => destruct b
         end; eauto.
Qed.

(** What the constructor takes. *)
Lemma Response_new_ok (body : option string) (code : N)
  (statusText : string) (headers : Headers.t) (w : World) :
  (200 <= code <= 599)%N ->
  reason_phrase statusText = true ->
  body = None \/ null_body_status code = false ->
  Response_new body code statusText headers w
  = (Ok (mkResponse code statusText headers body), w).
Proof.
  intros [Hlo Hhi] Htext Hbody. unfold Response_new.
  rewrite (proj2 (N.leb_le _ _) Hlo), (proj2 (N.leb_le _ _) Hhi), Htext.
  simpl. destruct Hbody as [-> | ->].
  - rewrite bool_decide_eq_false_2 by tauto. reflexivity.
  - rewrite andb_false_r. reflexivity.
Qed.

(** A status above 599 is refused. *)
Lemma Response_new_above_range (body : option string) (code : N)
  (statusText : string) (headers : Headers.t) (w : World) :
  (599 < code)%N ->
  exists msg,
    Response_new body code statusText headers w = (Raise (JsError msg), w).
Proof.
  intros Hhi. unfold Response_new.
  rewrite (proj2 (N.leb_gt _ _) Hhi), andb_false_r. simpl. eauto.
Qed.

(** [handleRequest] for a running service, in full. *)
Lemma handleRequest_running_outcome
  (env : Env) (request : Request) (w : World) (n : string)
  (rest : list string) (s : ServiceInstance) :
  segments_of (q_url request) = n :: rest ->
  ignored n = false ->
  Map_get n (services w) = Some s -> status s = running ->
  let out := forward_request request s (n :: rest) in
  let w1 := with_event (EvFetch out)
              (with_event (EvLog Debug "Forwarding request")
                 (snd (updateActivity env n w))) in
  handleRequest env request w
  = match env_fetch env (EvLog Debug "Forwarding request" :: trace w) out with
    | inl err =>
        (Ok (if Js.is_timeout err
             then error_response 504 "Gateway timeout"
             else error_response 500 "Internal server error"),
         with_event (EvLog Error "Request handling error") w1)
    | inr response =>
        match
          Response_new (r_body response) (r_status response)
            (r_statusText response)
            (Headers.set "X-Gateway-Request-ID" (env_uuid env (trace w1))
               (Headers.set "X-Gateway-Service" n (r_headers response)))
            (with_event EvRandomUUID w1)
        with
        | (Ok answer, w2) => (Ok answer, w2)
        | (Raise _, w2) =>
            (Ok (error_response 500 "Internal server error"),
             with_event (EvLog Error "Request handling error") w2)
        end
    end.
Proof.
  intros Hseg Hign Hget Hrun out w1. subst out w1.
  unfold handleRequest, try_catch, bind. rewrite Hseg.
  rewrite (ensureServiceRunning_running env n w s Hign Hget Hrun).
  assert (Hn : name s = n) by (eapply Map_get_name; eauto).
  rewrite Hn.
  destruct (updateActivity_registered env n w s Hget) as (w1 & Hupd & Htr).
  rewrite Hupd. simpl snd.
  unfold log, emit, fetch, randomUUID, ret, throw. simpl. rewrite Htr.
  destruct (env_fetch env _ _) as [err|response]; simpl; rewrite ?Htr.
  - destruct (Js.is_timeout err); reflexivity.
  - match goal with
    | |- context [Response_new ?b ?c ?t ?h ?w0] =>
        destruct (Response_new_outcome b c t h w0) as [[r ->] | [msg ->]]
    end; reflexivity.
Qed.

(** X21. When the backend of a running service does not answer, the client gets
    504 [Gateway timeout] if the forward timed out and 500 [Internal server
    error] for any other failure; the request has been counted all the
    same (last activity and request count), and the status and error
    counter of the record are as before. *)
Theorem backend_failure_is_504_or_500
  (env : Env) (request : Request) (w : World) (n : string)
  (rest : list string) (s : ServiceInstance) (err : Exn) :
  segments_of (q_url request) = n :: rest ->
  ignored n = false ->
  Map_get n (services w) = Some s -> status s = running ->
  env_fetch env (EvLog Debug "Forwarding request" :: trace w)
    (forward_request request s (n :: rest)) = inl err ->
  exists w',
    handleRequest env request w
    = (Ok (if Js.is_timeout err
           then error_response 504 "Gateway timeout"
           else error_response 500 "Internal server error"), w')
    /\ Map_get n (services w')
       = Some (set_requestCount (requestCount s + 1)
                 (set_lastActivity (env_now env (trace w)) s))
    /\ start_calls (trace w') = start_calls (trace w)
    /\ stop_calls (trace w') = stop_calls (trace w).
Proof.
  intros Hseg Hign Hget Hrun Hfetch.
  rewrite (handleRequest_running_outcome env request w n rest s Hseg Hign
             Hget Hrun).
  rewrite Hfetch. eexists. split; [reflexivity|].
  unfold updateActivity, bind, getService. rewrite Hget.
  unfold Date_now, assign. simpl. repeat split.
  rewrite !Map_get_assign by auto with registry. now rewrite Hget.
Qed.

Lemma backend_failure_is_504_or_500_witness :
  exists w',
    handleRequest failing_env (demo_request "/hello-world/hello" "")
      (demo_world running)
    = (Ok (error_response 504 "Gateway timeout"), w')
    /\ requestCount <$> Map_get "hello-world" (services w') = Some 1.
Proof.
  destruct (backend_failure_is_504_or_500 failing_env
              (demo_request "/hello-world/hello" "") (demo_world running)
              "hello-world" ["hello"] (demo_service running)
              (DOMException "TimeoutError" "The operation timed out."))
    as (w' & H & Hget & _).
  - reflexivity.
  - reflexivity.
  - reflexivity.
  - reflexivity.
  - reflexivity.
  - exists w'. split; [exact H|]. now rewrite Hget.
Defined.

(** X22. When the backend of a running service answers with a response the
    [Response] constructor takes, that is, with a status from 200 to 599, a
    status text that is empty or a reason phrase, and no body if the status
    is 204, 205 or 304, the client gets its status, status text and body as
    they are, and its headers with two added or replaced:
    [X-Gateway-Service], the service name, and [X-Gateway-Request-ID], a
    fresh identifier.  Every other header of the backend's answer comes
    through.  When the backend answers with a status above 599, the client
    gets 500 [Internal server error] instead. *)
Theorem backend_answer_is_passed_on
  (env : Env) (request : Request) (w : World) (n : string)
  (rest : list string) (s : ServiceInstance) (response : Response) :
  segments_of (q_url request) = n :: rest ->
  ignored n = false ->
  Map_get n (services w) = Some s -> status s = running ->
  env_fetch env (EvLog Debug "Forwarding request" :: trace w)
    (forward_request request s (n :: rest)) = inr response ->
  ((200 <= r_status response <= 599)%N ->
   reason_phrase (r_statusText response) = true ->
   r_body response = None \/ null_body_status (r_status response) = false ->
   exists answer uuid,
     fst (handleRequest env request w) = Ok answer
     /\ r_status answer = r_status response
     /\ r_statusText answer = r_statusText response
     /\ r_body answer = r_body response
     /\ Headers.get "X-Gateway-Service" (r_headers answer) = Some n
     /\ Headers.get "X-Gateway-Request-ID" (r_headers answer) = Some uuid
     /\ forall h,
          Js.toLowerCase h <> "x-gateway-service" ->
          Js.toLowerCase h <> "x-gateway-request-id" ->
          Headers.get h (r_headers answer)
          = Headers.get h (r_headers response))
  /\ ((599 < r_status response)%N ->
      fst (handleRequest env request w)
      = Ok (error_response 500 "Internal server error")).
Proof.
  intros Hseg Hign Hget Hrun Hfetch.
  rewrite (handleRequest_running_outcome env request w n rest s Hseg Hign
             Hget Hrun).
  rewrite Hfetch. split.
  - intros Hrange Htext Hbody.
    rewrite Response_new_ok by assumption.
    eexists _, _. split; [reflexivity|]. simpl.
    repeat split.
    + rewrite Headers_get_set_ne by (simpl; discriminate).
      apply Headers_get_set.
    + apply Headers_get_set.
    + intros h H1 H2. now rewrite !Headers_get_set_ne by (simpl; assumption).
  - intros Habove.
    match goal with
    | |- context [Response_new ?b ?c ?t ?h ?w0] =>
        destruct (Response_new_above_range b c t h w0 Habove) as [msg ->]
    end.
    reflexivity.
Qed.

Lemma backend_answer_is_passed_on_witness :
  exists answer,
    fst (handleRequest obliging_env (demo_request "/hello-world/hello" "")
           (demo_world running)) = Ok answer
    /\ r_status answer = 200%N
    /\ r_body answer = Some "hello"
    /\ Headers.get "Content-Type" (r_headers answer) = Some "text/plain"
    /\ Headers.get "X-Gateway-Service" (r_headers answer) = Some "hello-world".
Proof.
  destruct (backend_answer_is_passed_on obliging_env
              (demo_request "/hello-world/hello" "") (demo_world running)
              "hello-world" ["hello"] (demo_service running)
              (mkResponse 200 "OK" [("content-type", "text/plain")]
                 (Some "hello")))
    as [Hpass _].
  - reflexivity.
  - reflexivity.
  - reflexivity.
  - reflexivity.
  - reflexivity.
  - destruct Hpass as (answer & uuid & H & Hst & _ & Hbody & Hsvc & _ & Hother).
    + vm_compute. split; discriminate.
    + reflexivity.
    + right. reflexivity.
    + exists answer. repeat split; try assumption.
      rewrite Hother; [reflexivity | discriminate | discriminate].
Defined.

(** ** The router: starting on demand *)

(** [startService] when the supervisor refuses. *)
Lemma startService_refused (env : Env) (n : string) (w : World)
  (s : ServiceInstance) (err : Exn) :
  Map_get n (services w) = Some s ->
  status s <> running -> status s <> starting ->
  env_pm2_start env (trace (snd (startService_sync n w))) (pm2Config_of n s)
    = Some err ->
  exists w',
    startService env n w = (Raise err, w')
    /\ Map_get n (services w')
       = Some (set_errorCount (errorCount s + 1) (set_status error s))
    /\ fetch_calls (trace w') = fetch_calls (trace w)
    /\ stop_calls (trace w') = stop_calls (trace w).
Proof.
  intros Hget Hr Hs Hfail.
  rewrite (startService_sync_launches n w s Hget Hr Hs) in Hfail.
  simpl in Hfail.
  unfold startService, bind.
  rewrite (startService_sync_launches n w s Hget Hr Hs).
  unfold pm2_start. simpl. rewrite Hfail.
  unfold startService_resume, bind, assign, log, emit, throw. simpl.
  eexists. split; [reflexivity|]. simpl. repeat split.
  rewrite !Map_get_assign by auto with registry. now rewrite Hget.
Qed.

(** X23. When the supervisor refuses to start a registered service that is
    neither [running] nor [starting], the client gets 503 [Service
    unavailable]; no request is sent to a backend, the request is not
    counted, and the record is left in [error] with an error counter one
    higher. *)
Theorem start_failure_is_503
  (env : Env) (request : Request) (w : World) (n : string)
  (rest : list string) (s : ServiceInstance) (err : Exn) :
  segments_of (q_url request) = n :: rest ->
  ignored n = false ->
  Map_get n (services w) = Some s ->
  status s <> running -> status s <> starting ->
  env_pm2_start env (trace (snd (startService_sync n w))) (pm2Config_of n s)
    = Some err ->
  exists w',
    handleRequest env request w
    = (Ok (error_response 503 "Service unavailable"), w')
    /\ Map_get n (services w')
       = Some (set_errorCount (errorCount s + 1) (set_status error s))
    /\ fetch_calls (trace w') = fetch_calls (trace w)
    /\ stop_calls (trace w') = stop_calls (trace w).
Proof.
  intros Hseg Hign Hget Hr Hs Hfail.
  destruct (startService_refused env n w s err Hget Hr Hs Hfail)
    as (w1 & Hstart & Hget1 & Hfetch & Hstop).
  unfold handleRequest, try_catch, bind. rewrite Hseg.
  unfold ensureServiceRunning. rewrite Hign.
  unfold bind, getService. rewrite Hget.
  unfold start_if_needed. rewrite (bool_decide_eq_false_2 _ Hr). simpl.
  unfold try_catch, bind. rewrite Hstart. simpl.
  eexists. split; [reflexivity|]. simpl. auto.
Qed.

Lemma start_failure_is_503_witness :
  exists w',
    handleRequest failing_env (demo_request "/hello-world/hello" "")
      (demo_world stopped)
    = (Ok (error_response 503 "Service unavailable"), w')
    /\ status <$> Map_get "hello-world" (services w') = Some error
    /\ fetch_calls (trace w') = [].
Proof.
  destruct (start_failure_is_503 failing_env
              (demo_request "/hello-world/hello" "") (demo_world stopped)
              "hello-world" ["hello"] (demo_service stopped)
              (JsError "spawn failed"))
    as (w' & H & Hget & Hfetch & _).
  - reflexivity.
  - reflexivity.
  - reflexivity.
  - discriminate.
  - discriminate.
  - reflexivity.
  - exists w'. split; [exact H|]. rewrite Hget. split; [reflexivity|exact Hfetch].
Defined.

(** The second half of [ensureServiceRunning], on the record read just
    before. *)
Lemma start_if_needed_post (env : Env) (n : string) (w : World) :
  exists r w',
    start_if_needed env n (Map_get n (services w)) w = (Ok r, w')
    /\ match r with
       | Some s =>
           Map_get n (services w') = Some s
           /\ (status s = running \/ status s = starting)
       | None => True
       end.
Proof.
  unfold start_if_needed.
  destruct (Map_get n (services w)) as [s|] eqn:Hget;
    [|exists None, w; split; [reflexivity | exact I]].
  destruct (bool_decide_reflect (status s = running)) as [Hr|Hr]; simpl.
  { exists (Some s), w. split; [reflexivity|]. auto. }
  unfold try_catch, bind, startService, bind.
  destruct (decide (status s = starting)) as [Hs|Hs].
  - rewrite (startService_sync_returns _ _ _ Hget (or_intror Hs)). simpl.
    eexists _, _. split; [reflexivity|]. simpl. rewrite Hget. auto.
  - rewrite (startService_sync_launches _ _ _ Hget Hr Hs).
    unfold pm2_start. simpl.
    destruct (env_pm2_start env _ _) as [err|]; simpl.
    + eexists None, _. split; [reflexivity | exact I].
    + eexists _, _. split; [reflexivity|]. simpl.
      rewrite !Map_get_assign by auto with registry. rewrite Hget. simpl. auto.
Qed.

(** X24. Run on its own, with nothing else running at its [await] points,
    [ensureServiceRunning] never raises, and a record it returns is the one
    the registry holds under the name and is [running] or [starting].  The
    second happens: for a service that is [starting], the router gives no
    start command, waits the settle delay and returns the record as it is,
    still [starting].  Between requests that run at the same time the
    status is not assured: when three requests arrive together and the
    supervisor refuses the start, in the schedule [all_arrive ++
    start_fails], a request comes back from [ensureServiceRunning] with
    the record in [error]. *)
Theorem ensureServiceRunning_alone_returns_running_or_starting
  (env : Env) (n : string) (w : World) :
  (exists r w',
     ensureServiceRunning env n w = (Ok r, w')
     /\ match r with
        | Some s =>
            Map_get n (services w') = Some s
            /\ (status s = running \/ status s = starting)
        | None => True
        end)
  /\ (forall s,
        ignored n = false ->
        Map_get n (services w) = Some s -> status s = starting ->
        ensureServiceRunning env n w
        = (Ok (Some s), with_event (EvSleep 1000) w))
  /\ List.existsb (ensured_in error)
       (threads (run failing_env (all_arrive ++ start_fails)
                   (init cold_world three_requests))) = true.
Proof.
  split; [|split; [|reflexivity]].
  - unfold ensureServiceRunning.
    destruct (ignored n); [exists None, w; split; [reflexivity | exact I]|].
    unfold bind, getService.
    destruct (Map_get n (services w)) as [s|] eqn:Hget.
    + rewrite <- Hget. apply start_if_needed_post.
    + unfold getConfig. simpl.
      destruct (Config.services (conf w) !! n) as [c|];
        [|eexists None, _; split; [reflexivity | exact I]].
      destruct (registerService env n c (with_event EvGetConfig w))
        as [[[]|e] w1] eqn:Hreg.
      * apply start_if_needed_post.
      * exfalso. unfold registerService, bind, services_has in Hreg.
        destruct (Map_has n _); simpl in Hreg; discriminate.
  - intros s Hign Hget Hs.
    unfold ensureServiceRunning. rewrite Hign.
    unfold bind, getService. rewrite Hget.
    unfold start_if_needed.
    assert (Hr : status s <> running) by (rewrite Hs; discriminate).
    rewrite (bool_decide_eq_false_2 _ Hr). simpl.
    unfold try_catch, bind, startService, bind.
    rewrite (startService_sync_returns _ _ _ Hget (or_intror Hs)). simpl.
    now rewrite Hget.
Qed.

Lemma ensureServiceRunning_alone_returns_running_or_starting_witness :
  ensureServiceRunning failing_env "hello-world" (demo_world starting)
  = (Ok (Some (demo_service starting)),
     with_event (EvSleep 1000) (demo_world starting)).
Proof.
  destruct (ensureServiceRunning_alone_returns_running_or_starting failing_env
              "hello-world" (demo_world starting)) as (_ & Hwait & _).
  apply Hwait; reflexivity.
Defined.

(** [handleRequest] once [ensureServiceRunning] has returned a record. *)
Lemma handleRequest_forwarded
  (env : Env) (request : Request) (w w3 : World) (n : string)
  (rest : list string) (s : ServiceInstance) :
  segments_of (q_url request) = n :: rest ->
  ensureServiceRunning env n w = (Ok (Some s), w3) ->
  Map_get n (services w3) = Some s ->
  let out := forward_request request s (n :: rest) in
  let w4 := with_event (EvFetch out)
              (with_event (EvLog Debug "Forwarding request")
                 (snd (updateActivity env n w3))) in
  handleRequest env request w
  = match env_fetch env (EvLog Debug "Forwarding request" :: trace w3) out with
    | inl err =>
        (Ok (if Js.is_timeout err
             then error_response 504 "Gateway timeout"
             else error_response 500 "Internal server error"),
         with_event (EvLog Error "Request handling error") w4)
    | inr response =>
        match
          Response_new (r_body response) (r_status response)
            (r_statusText response)
            (Headers.set "X-Gateway-Request-ID" (env_uuid env (trace w4))
               (Headers.set "X-Gateway-Service" n (r_headers response)))
            (with_event EvRandomUUID w4)
        with
        | (Ok answer, w2) => (Ok answer, w2)
        | (Raise _, w2) =>
            (Ok (error_response 500 "Internal server error"),
             with_event (EvLog Error "Request handling error") w2)
        end
    end.
Proof.
  intros Hseg Hens Hget out w4. subst out w4.
  unfold handleRequest, try_catch, bind. rewrite Hseg, Hens.
  assert (Hn : name s = n) by (eapply Map_get_name; eauto).
  rewrite Hn.
  destruct (updateActivity_registered env n w3 s Hget) as (w1 & Hupd & Htr).
  rewrite Hupd. simpl snd.
  unfold log, emit, fetch, randomUUID, ret, throw. simpl. rewrite Htr.
  destruct (env_fetch env _ _) as [err|response]; simpl; rewrite ?Htr.
  - destruct (Js.is_timeout err); reflexivity.
  - match goal with
    | |- context [Response_new ?b ?c ?t ?h ?w0] =>
        destruct (Response_new_outcome b c t h w0) as [[r ->] | [msg ->]]
    end; reflexivity.
Qed.

(** [ensureServiceRunning] for a configured name without a record, when
    the supervisor accepts the start. *)
Lemma ensureServiceRunning_cold
  (env : Env) (n : string) (c : ServiceConfig.t) (w : World) :
  ignored n = false ->
  Map_get n (services w) = None ->
  Config.services (conf w) !! n = Some c ->
  (forall h cfg, env_pm2_start env h cfg = None) ->
  exists s w3,
    ensureServiceRunning env n w = (Ok (Some s), w3)
    /\ Map_get n (services w3) = Some s
    /\ status s = running /\ port s = ServiceConfig.port c
    /\ config s = c /\ requestCount s = 0 /\ errorCount s = 0
    /\ names w3 = names w ++ [n]
    /\ List.map pm_name (start_calls (trace w3))
       = n :: List.map pm_name (start_calls (trace w))
    /\ fetch_calls (trace w3) = fetch_calls (trace w)
    /\ stop_calls (trace w3) = stop_calls (trace w)
    /\ (exists h, trace w3 = EvSleep 1000 :: h).
Proof.
  intros Hign Hnone Hcfg Hok.
  unfold ensureServiceRunning. rewrite Hign.
  unfold bind, getService. rewrite Hnone.
  unfold getConfig. simpl. rewrite Hcfg.
  unfold registerService, bind, services_has. simpl.
  rewrite Map_has_get, Hnone.
  unfold Date_now, services_set, log, emit. simpl.
  unfold Map_set_new. rewrite Map_get_app, Hnone. simpl.
  unfold is_named at 1. simpl. rewrite String.eqb_refl.
  unfold start_if_needed. simpl.
  unfold try_catch, bind, startService, bind.
  set (inst := mkService n c stopped None (ServiceConfig.port c)
                 (env_now env (EvGetConfig :: trace w)) None 0 0).
  set (w1 := with_event (EvLog Info ("Service " +:+ n +:+ " registered"))
               (with_services (services w ++ [inst])
                  (with_event EvGetConfig w))).
  assert (Hget1 : Map_get n (services w1) = Some inst).
  { subst w1. simpl. rewrite Map_get_app, Hnone. simpl.
    unfold is_named. simpl. now rewrite String.eqb_refl. }
  change (startService_sync n
            {| services := services w ++ [inst]; conf := conf w;
               trace := EvLog Info ("Service " +:+ n +:+ " registered")
                        :: EvGetConfig :: trace w |})
    with (startService_sync n w1).
  rewrite (startService_sync_launches n w1 inst Hget1)
    by (subst inst; simpl; discriminate).
  unfold pm2_start. simpl. rewrite Hok. simpl.
  rewrite !Map_get_assign by auto with registry.
  rewrite Map_get_app, Hnone. simpl.
  unfold is_named at 1. simpl. rewrite String.eqb_refl. simpl.
  eexists _, _. split; [reflexivity|]. simpl.
  rewrite !Map_get_assign by auto with registry.
  rewrite Map_get_app, Hnone. simpl.
  unfold is_named at 1. simpl. rewrite String.eqb_refl. simpl.
  repeat split.
  - unfold names. simpl. rewrite !names_assign by auto with registry.
    now rewrite List.map_app.
  - eauto.
Qed.

(** X25. A cold start through the router, for a request handled on its own:
    for a configured service without a record, when the supervisor accepts the start and the backend answers
    with a response the [Response] constructor takes (a status from 200 to
    599, a status text that is empty or a reason phrase, and no body if the
    status is 204, 205 or 304), the client gets the backend's status and
    body.  On the way the record is registered and started with one start
    command named after the service, the router waits the settle delay of
    1000 ms, and the request is counted and forwarded once, to the
    configured port.  The record ends [running] with a request count of
    1. *)
Theorem cold_start_round_trip
  (env : Env) (request : Request) (w : World) (n : string)
  (rest : list string) (c : ServiceConfig.t) (response : Response) :
  segments_of (q_url request) = n :: rest ->
  ignored n = false ->
  Map_get n (services w) = None ->
  Config.services (conf w) !! n = Some c ->
  (forall h cfg, env_pm2_start env h cfg = None) ->
  (forall h out, env_fetch env h out = inr response) ->
  (200 <= r_status response <= 599)%N ->
  reason_phrase (r_statusText response) = true ->
  r_body response = None \/ null_body_status (r_status response) = false ->
  exists answer w' s' out,
    handleRequest env request w = (Ok answer, w')
    /\ r_status answer = r_status response
    /\ r_body answer = r_body response
    /\ Map_get n (services w') = Some s'
    /\ status s' = running /\ requestCount s' = 1 /\ errorCount s' = 0
    /\ names w' = names w ++ [n]
    /\ List.map pm_name (start_calls (trace w'))
       = n :: List.map pm_name (start_calls (trace w))
    /\ fetch_calls (trace w') = out :: fetch_calls (trace w)
    /\ f_url out = "http://localhost:" +:+ Js.toString (ServiceConfig.port c)
                   +:+ path_of rest +:+ search (q_url request)
    /\ In (EvSleep 1000) (trace w')
    /\ stop_calls (trace w') = stop_calls (trace w).
Proof.
  intros Hseg Hign Hnone Hcfg Hok Hfetch Hrange Htext Hbody.
  destruct (ensureServiceRunning_cold env n c w Hign Hnone Hcfg Hok)
    as (s & w3 & Hens & Hget3 & Hrun & Hport & Hconfig & Hreq & Herr & Hnames
        & Hstart & Hfetch3 & Hstop & (h & Htrace)).
  rewrite (handleRequest_forwarded env request w w3 n rest s Hseg Hens Hget3).
  rewrite Hfetch, Response_new_ok by assumption.
  destruct (updateActivity_registered env n w3 s Hget3) as (w4 & Hupd & Htr).
  assert (Hget4 : Map_get n (services w4)
                  = Some (set_requestCount (requestCount s + 1)
                            (set_lastActivity (env_now env (trace w3)) s))
                  /\ names w4 = names w3).
  { unfold updateActivity, bind, getService in Hupd. rewrite Hget3 in Hupd.
    unfold Date_now, assign in Hupd. simpl in Hupd. injection Hupd as <-.
    simpl. unfold names. simpl.
    rewrite !Map_get_assign, !names_assign by auto with registry.
    now rewrite Hget3. }
  destruct Hget4 as [Hget4 Hnames4].
  rewrite Hupd. simpl snd.
  eexists _, _, _, (forward_request request s (n :: rest)).
  split; [reflexivity|]. simpl.
  split; [reflexivity|]. split; [reflexivity|].
  split; [exact Hget4|]. simpl.
  split; [exact Hrun|]. split; [rewrite Hreq; reflexivity|].
  split; [exact Herr|].
  split; [unfold names in *; simpl; congruence|].
  split; [rewrite Htr; exact Hstart|].
  split; [rewrite Htr, Hfetch3; reflexivity|].
  split.
  { rewrite Hport. do 2 f_equal.
    unfold targetPath_of, path_of. simpl Js.slice1.
    destruct (String.eqb_spec ("/" +:+ Js.join "/" rest) "/") as [E|E].
    - destruct (_ && _); [now rewrite E | reflexivity].
    - reflexivity. }
  split; [rewrite Htr, Htrace; simpl; auto|].
  rewrite Htr. exact Hstop.
Qed.

Lemma cold_start_round_trip_witness :
  exists answer w',
    handleRequest obliging_env (demo_request "/hello-world/hello" "?name=Ada")
      cold_world = (Ok answer, w')
    /\ r_status answer = 200%N
    /\ status <$> Map_get "hello-world" (services w') = Some running
    /\ List.map f_url (fetch_calls (trace w'))
       = ["http://localhost:3001/hello?name=Ada"].
Proof.
  destruct (cold_start_round_trip obliging_env
              (demo_request "/hello-world/hello" "?name=Ada") cold_world
              "hello-world" ["hello"] demo_config
              (mkResponse 200 "OK" [("content-type", "text/plain")]
                 (Some "hello")))
    as (answer & w' & s' & out & H & Hst & _ & Hget & Hrun & _ & _ & _ & _
        & Hfetch & Hurl & _).
  - reflexivity.
  - reflexivity.
  - reflexivity.
  - reflexivity.
  - reflexivity.
  - reflexivity.
  - vm_compute. split; discriminate.
  - reflexivity.
  - right. reflexivity.
  - exists answer, w'. split; [exact H|]. split; [exact Hst|].
    rewrite Hget, Hfetch. simpl. rewrite Hrun, Hurl. auto.
Defined.

Ltac finish_bounded :=
  eexists _, _; split; [reflexivity|]; simpl;
  unfold Map_assign, Map_set_new;
  rewrite ?List.length_map, ?List.length_app, ?List.length_map; simpl;
  repeat split; lia.

(** X26. [handleRequest] always answers: it never raises.  Handling one request
    never asks the supervisor to stop or delete anything, gives it at most
    one start command, sends at most one request to a backend, registers
    at most one record, and leaves the configuration alone. *)
Theorem handleRequest_is_bounded (env : Env) (request : Request) (w : World) :
  exists answer w',
    handleRequest env request w = (Ok answer, w')
    /\ stop_calls (trace w') = stop_calls (trace w)
    /\ (List.length (start_calls (trace w'))
        <= S (List.length (start_calls (trace w))))%nat
    /\ (List.length (fetch_calls (trace w'))
        <= S (List.length (fetch_calls (trace w))))%nat
    /\ (List.length (services w) <= List.length (services w')
        <= S (List.length (services w)))%nat
    /\ conf w' = conf w.
Proof.
  unfold_model.
  destruct (segments_of (q_url request)) as [|m rest] eqn:Hseg.
  { unfold_model. finish_bounded. }
  repeat (first [ progress unfold_model | progress unfold Response_new
                | split_match ]);
    finish_bounded.
Qed.

(** ** The management API: service actions *)

Import ManagementAPI.

(** X27. [handleServiceAction] always answers, with status 200, 400 or 500: what
    [startService] and [stopService] raise is caught.  An empty service
    name is answered 400 [Service name required], and an action other than
    [start], [stop], [restart] and [health] is answered 400 [Invalid
    action]; in both cases nothing else happens. *)
Theorem handleServiceAction_always_answers
  (env : Env) (serviceName action : string) (w : World) :
  (exists answer w',
     handleServiceAction env serviceName action w = (Ok answer, w')
     /\ (a_status answer = 200 \/ a_status answer = 400
         \/ a_status answer = 500)%N)
  /\ (serviceName = "" ->
      handleServiceAction env serviceName action w
      = (Ok (json 400 (P_error "Service name required")), w))
  /\ (serviceName <> "" ->
      action <> "start" -> action <> "stop" -> action <> "restart" ->
      action <> "health" ->
      handleServiceAction env serviceName action w
      = (Ok (json 400 (P_error "Invalid action")), w)).
Proof.
  split; [|split].
  - unfold handleServiceAction.
    destruct (Js.truthy serviceName); simpl;
      [|eexists _, _; split; [reflexivity | simpl; auto]].
    unfold try_catch.
    destruct (service_action env serviceName action w) as [[answer|e] w']
      eqn:Hact.
    + exists answer, w'. split; [reflexivity|].
      unfold service_action in Hact.
      destruct (String.eqb action "start").
      { unfold bind in Hact. destruct (startService _ _ _) as [[?|?] ?];
          [|discriminate]. injection Hact as <- <-. simpl. auto. }
      destruct (String.eqb action "stop").
      { unfold bind in Hact. destruct (stopService _ _ _) as [[?|?] ?];
          [|discriminate]. injection Hact as <- <-. simpl. auto. }
      destruct (String.eqb action "restart").
      { unfold bind in Hact. destruct (stopService _ _ _) as [[?|?] ?];
          [|discriminate]. simpl in Hact.
        destruct (startService _ _ _) as [[?|?] ?]; [|discriminate].
        injection Hact as <- <-. simpl. auto. }
      destruct (String.eqb action "health").
      { unfold bind in Hact. destruct (healthCheck _ _ _) as [[?|?] ?];
          [|discriminate]. injection Hact as <- <-. simpl. auto. }
      injection Hact as <- <-. simpl. auto.
    + eexists _, _. split; [reflexivity|]. simpl. auto.
  - intros ->. reflexivity.
  - intros Hname H1 H2 H3 H4.
    unfold handleServiceAction, Js.truthy.
    apply String.eqb_neq in Hname, H1, H2, H3, H4.
    rewrite Hname. simpl. unfold try_catch, service_action.
    now rewrite H1, H2, H3, H4.
Qed.

Lemma handleServiceAction_always_answers_witness :
  handleServiceAction failing_env "hello-world" "pause" (demo_world running)
  = (Ok (json 400 (P_error "Invalid action")), demo_world running).
Proof.
  destruct (handleServiceAction_always_answers failing_env "hello-world"
              "pause" (demo_world running)) as (_ & _ & Hinvalid).
  apply Hinvalid; discriminate.
Defined.

(** X28. For a name the registry does not hold, the actions [start], [stop] and
    [restart] are answered 500 with the message [Service <name> not
    registered], and [health] is answered 200 with an [unhealthy] result;
    no record is created and nothing else happens. *)
Theorem actions_on_unregistered_service
  (env : Env) (n : string) (w : World) :
  n <> "" ->
  Map_get n (services w) = None ->
  let not_registered :=
    (Ok (json 500 (P_error ("Service " +:+ n +:+ " not registered"))), w) in
  handleServiceAction env n "start" w = not_registered
  /\ handleServiceAction env n "stop" w = not_registered
  /\ handleServiceAction env n "restart" w = not_registered
  /\ handleServiceAction env n "health" w
     = (Ok (json 200 (P_health n (mkHealth unhealthy 0
                                    (Some "Service not running")))), w).
Proof.
  intros Hname Hnone not_registered. subst not_registered.
  apply String.eqb_neq in Hname.
  unfold handleServiceAction, Js.truthy. rewrite Hname. simpl.
  unfold try_catch, service_action, bind. simpl.
  unfold startService, startService_sync, stopService, healthCheck, bind,
    getService.
  rewrite Hnone. simpl. auto.
Qed.

Lemma actions_on_unregistered_service_witness :
  handleServiceAction obliging_env "unknown-service" "start" cold_world
  = (Ok (json 500 (P_error "Service unknown-service not registered")),
     cold_world).
Proof.
  destruct (actions_on_unregistered_service obliging_env "unknown-service"
              cold_world) as (H & _).
  - discriminate.
  - reflexivity.
  - exact H.
Defined.

(** X29. [restart] stops before it starts: when the supervisor fails to stop a
    registered service that is neither [stopped] nor [stopping], the answer
    is 500 with the message of the supervisor's error, no start command is
    given, and the record is left in [error]. *)
Theorem restart_gives_up_when_stop_fails
  (env : Env) (n : string) (w : World) (s : ServiceInstance) (err : Exn) :
  n <> "" ->
  Map_get n (services w) = Some s ->
  status s <> stopped -> status s <> stopping ->
  env_pm2_stop env (EvLog Info ("Stopping service " +:+ n) :: trace w) n
    = Some err ->
  exists w',
    handleServiceAction env n "restart" w
    = (Ok (json 500 (P_error (Js.error_message err))), w')
    /\ start_calls (trace w') = start_calls (trace w)
    /\ Map_get n (services w')
       = Some (set_errorCount (errorCount s + 1) (set_status error s)).
Proof.
  intros Hname Hget Hst Hsg Hfail.
  apply String.eqb_neq in Hname.
  unfold handleServiceAction, Js.truthy. rewrite Hname. simpl.
  unfold try_catch, service_action, bind. simpl.
  rewrite (stopService_proceeds env n w s Hget Hst Hsg). simpl.
  rewrite Hfail.
  unfold stopService_catch, bind, assign, log, emit, throw. simpl.
  eexists. split; [reflexivity|]. simpl. split; [reflexivity|].
  rewrite !Map_get_assign by auto with registry. now rewrite Hget.
Qed.

Lemma restart_gives_up_when_stop_fails_witness :
  exists w',
    handleServiceAction failing_env "hello-world" "restart" (demo_world running)
    = (Ok (json 500 (P_error "stop failed")), w')
    /\ start_calls (trace w') = [].
Proof.
  destruct (restart_gives_up_when_stop_fails failing_env "hello-world"
              (demo_world running) (demo_service running)
              (JsError "stop failed")) as (w' & H & Hstart & _).
  - discriminate.
  - reflexivity.
  - discriminate.
  - discriminate.
  - reflexivity.
  - exists w'. split; [exact H | exact Hstart].
Defined.

(** ** Several requests at once: retries *)

(** X30. Under any interleaving of requests that arrive together, for a
    non-empty service name whose record is absent or [stopped] at the
    start, the start commands given to the supervisor for that name are as
    many as its reported failures, plus one while the record is [starting]
    or [running]: a further start command is only ever given after the
    one before has been reported as failed. *)
Theorem start_commands_follow_failures
  (env : Env) (w : World) (requests : list Request) (n : string)
  (schedule : list (nat * Answer)) :
  n <> "" ->
  status_of n w = None \/ status_of n w = Some stopped ->
  let final := run env schedule (init w requests) in
  invoked n (world final)
  = (invoked n w + failed n final + active n (world final))%nat
  /\ (active n (world final) <= 1)%nat.
Proof.
  intros Hn Hcold final.
  destruct (run_Inv env n (invoked n w) schedule (init w requests) Hn
              (init_Inv n w requests Hcold)) as [_ Hinv _].
  split; [exact Hinv | apply active_le_1].
Qed.

Lemma start_commands_follow_failures_witness :
  invoked "hello-world"
    (world (run failing_env (all_arrive ++ start_fails)
              (init cold_world three_requests)))
  = (0 + failed "hello-world"
           (run failing_env (all_arrive ++ start_fails)
              (init cold_world three_requests))
     + active "hello-world"
         (world (run failing_env (all_arrive ++ start_fails)
                   (init cold_world three_requests))))%nat.
Proof.
  destruct (start_commands_follow_failures failing_env cold_world
              three_requests "hello-world" (all_arrive ++ start_fails))
    as [H _].
  - discriminate.
  - left. reflexivity.
  - exact H.
Defined.
